(** * LBANN: mini-batch index scheduling and gradient checking

    A shallow embedding of

      - [include/lbann/data_readers/data_reader.hpp]
        (class [generic_data_reader]), and
      - [src/callbacks/check_gradients.cpp]
        (the callback [check_gradients::do_check_gradients])

    together with the properties the specification states about them.

    Conventions.
      - A C++ [int] is a [Z]; the conversion of a [size_t] to [int] is
        written out as the 32-bit wrap-around [to_int].
      - [DataType] (declared in [lbann/base.hpp], either [float] or
        [double]) is a type parameter carrying the arithmetic the code
        uses, see [Scalar].  Two instances are given: IEEE binary64
        ([PrimFloat.float], executable) and the real numbers (exact
        arithmetic, where [std::pow] and [std::sqrt] have a closed
        definition).
      - The model, its layers, objective function, metrics and weights
        are collaborators of the callback: their operations are the
        fields of [Collaborators], their effect on the model state is
        passed explicitly, and every call and every line printed is
        recorded in a trace.
      - The callback is embedded twice: in [CheckGradients] no call to
        a collaborator throws, in [CheckGradientsExceptions] each may;
        a run of the second that does not end in an exception of a
        collaborator is a run of the first. *)

From Stdlib Require Import ZArith QArith Reals Lra Lia String Floats.
From stdpp Require Import base list gmap strings.

Local Open Scope Z_scope.

(** * Scalars: the arithmetic of [DataType] *)

Module Scalar.

(** The operations of [DataType] used by the code: literals and
    integer conversions, [+ - * /], unary minus, [std::fabs],
    [operator<], [operator==], [std::isnan], [std::isinf].

    Where the code combines a [DataType] with an [int] or a [double]
    (as in [2 * step_size] or [std::pow(step_size, 4) / 18]) the
    operand is converted by [s_lit] and the operation is the one of the
    class: the precision an intermediate result is held in is part of
    the operation.  With [DataType = double] nothing is converted. *)
Class Scalar (D : Type) : Type := {
  s_lit   : Q -> D;
  s_add   : D -> D -> D;
  s_sub   : D -> D -> D;
  s_mul   : D -> D -> D;
  s_div   : D -> D -> D;
  s_neg   : D -> D;
  s_fabs  : D -> D;
  s_ltb   : D -> D -> bool;
  s_eqb   : D -> D -> bool;
  s_isnan : D -> bool;
  s_isinf : D -> bool
}.

(** [std::pow], [std::sqrt] and
    [std::numeric_limits<DataType>::epsilon()]. *)
Class ScalarMath (D : Type) `{Scalar D} : Type := {
  s_pow     : D -> D -> D;
  s_sqrt    : D -> D;
  s_epsilon : D
}.

Declare Scope scalar_scope.
Delimit Scope scalar_scope with S.

Notation "x + y" := (s_add x y) : scalar_scope.
Notation "x - y" := (s_sub x y) : scalar_scope.
Notation "x * y" := (s_mul x y) : scalar_scope.
Notation "x / y" := (s_div x y) : scalar_scope.
Notation "- x" := (s_neg x) : scalar_scope.
Notation "x <? y" := (s_ltb x y) : scalar_scope.
Notation "x =? y" := (s_eqb x y) : scalar_scope.
(** [a > b] is [b < a]; [a != b] is [!(a == b)]. *)
Notation "x >? y" := (s_ltb y x) : scalar_scope.
Notation "x !=? y" := (negb (s_eqb x y)) (at level 70) : scalar_scope.

Section Derived.
Context {D : Type} `{Scalar D}.

(** An integer constant converted to [DataType]. *)
Definition s_int (z : Z) : D := s_lit (inject_Z z).

(** [std::max(a, b)]: [(a < b) ? b : a]. *)
Definition std_max (a b : D) : D := if (a <? b)%S then b else a.
End Derived.

(** ** IEEE binary64 *)

Definition float_of_Z (z : Z) : float :=
  match z with
  | Z0 => PrimFloat.zero
  | Zpos _ => PrimFloat.of_uint63 (Uint63.of_Z z)
  | Zneg p => PrimFloat.opp (PrimFloat.of_uint63 (Uint63.of_Z (Zpos p)))
  end.

(** A literal is the quotient of two exactly represented integers,
    rounded once. *)
#[export] Instance float_scalar : Scalar float := {|
  s_lit q := PrimFloat.div (float_of_Z (Qnum q)) (float_of_Z (Zpos (Qden q)));
  s_add := PrimFloat.add;
  s_sub := PrimFloat.sub;
  s_mul := PrimFloat.mul;
  s_div := PrimFloat.div;
  s_neg := PrimFloat.opp;
  s_fabs := PrimFloat.abs;
  s_ltb := PrimFloat.ltb;
  s_eqb := PrimFloat.eqb;
  s_isnan := PrimFloat.is_nan;
  s_isinf := PrimFloat.is_infinity
|}.

(** ** Exact real arithmetic

    No rounding and no special values.  [std::pow] is [Rpower] away
    from a zero base; a negative base (where [std::pow] with a
    fractional exponent is NaN) is outside what this instance
    represents.  The machine epsilon is that of [float], [2^-23]. *)

#[export] Instance R_scalar : Scalar R := {|
  s_lit := Q2R;
  s_add := Rplus;
  s_sub := Rminus;
  s_mul := Rmult;
  s_div := Rdiv;
  s_neg := Ropp;
  s_fabs := Rabs;
  s_ltb x y := if Rlt_dec x y then true else false;
  s_eqb x y := if Req_dec_T x y then true else false;
  s_isnan _ := false;
  s_isinf _ := false
|}.

Definition R_pow (x y : R) : R :=
  if Req_dec_T x 0 then (if Req_dec_T y 0 then 1%R else 0%R)
  else Rpower x y.

#[export] Instance R_scalar_math : ScalarMath R := {|
  s_pow := R_pow;
  s_sqrt := R_sqrt.sqrt;
  s_epsilon := (/ 2 ^ 23)%R
|}.

End Scalar.

(** * The data reader: [generic_data_reader] *)

Module DataReader.

(** ** 32-bit integers *)

Definition int_max : Z := 2 ^ 31 - 1.

(** Conversion of an integer value to [int], as in the cast
    [(int) v.size()]: the value modulo [2^32], read as two's
    complement. *)
Definition to_int (z : Z) : Z := (z + 2 ^ 31) mod 2 ^ 32 - 2 ^ 31.

(** ** The state of a reader

    The data members of the class, in the order of their declaration.
    An [int] or [size_t] is a [Z], a [double] a binary64 float.  The
    public matrix [m_indices_fetched_per_mb] and the image preprocessor
    base class play no part in index scheduling and are left out. *)
Record generic_data_reader : Type := {
  m_batch_size : Z;
  m_current_pos : Z;
  m_batch_stride : Z;
  m_base_offset : Z;
  m_model_offset : Z;
  m_sample_stride : Z;
  m_use_alt_last_mini_batch_size : Z;
  m_shuffled_indices : list Z;
  m_unused_indices : list Z;
  m_last_mini_batch_threshold : Z;
  m_last_mini_batch_size : Z;
  m_last_mini_batch_stride : Z;
  m_current_mini_batch_idx : Z;
  m_num_mini_batches_per_reader : Z;
  m_num_iterations_per_epoch : Z;
  m_rank : Z;
  m_file_dir : string;
  m_data_fn : string;
  m_label_fn : string;
  m_first_n : bool;
  m_max_sample_count : Z;
  m_validation_percent : float;
  m_max_sample_count_was_set : Z;
  m_use_percent : float;
  m_role : string;
  m_master : bool
}.

(** The members the constructor leaves uninitialised: their value in a
    new object is indeterminate. *)
Record indeterminate : Type := {
  i_current_mini_batch_idx : Z;
  i_num_mini_batches_per_reader : Z;
  i_num_iterations_per_epoch : Z;
  i_rank : Z
}.

(** [generic_data_reader(int batchSize, bool shuffle = true)].  The
    member initialisers do not mention [shuffle]. *)
Definition new_generic_data_reader
    (batchSize : Z) (shuffle : bool) (u : indeterminate)
  : generic_data_reader := {|
  m_batch_size := batchSize;
  m_current_pos := 0;
  m_batch_stride := batchSize;
  m_base_offset := 0;
  m_model_offset := 0;
  m_sample_stride := 1;
  m_use_alt_last_mini_batch_size := 0;
  m_shuffled_indices := [];
  m_unused_indices := [];
  m_last_mini_batch_threshold := 0;
  m_last_mini_batch_size := batchSize;
  m_last_mini_batch_stride := batchSize;
  m_current_mini_batch_idx := i_current_mini_batch_idx u;
  m_num_mini_batches_per_reader := i_num_mini_batches_per_reader u;
  m_num_iterations_per_epoch := i_num_iterations_per_epoch u;
  m_rank := i_rank u;
  m_file_dir := EmptyString;
  m_data_fn := EmptyString;
  m_label_fn := EmptyString;
  m_first_n := false;
  m_max_sample_count := 0;
  m_validation_percent := (-1)%float;
  m_max_sample_count_was_set := 0;
  m_use_percent := 1%float;
  m_role := EmptyString;
  m_master := false
|}.

(** ** Queries defined in the header *)

Definition position_valid (r : generic_data_reader) : bool :=
  m_current_pos r <? to_int (Z.of_nat (length (m_shuffled_indices r))).

Definition at_new_epoch (r : generic_data_reader) : bool :=
  m_current_mini_batch_idx r =? 0.

Definition getm_batch_max (r : generic_data_reader) : Z := m_batch_size r.
Definition get_batch_stride (r : generic_data_reader) : Z := m_batch_stride r.
Definition get_base_offset (r : generic_data_reader) : Z := m_base_offset r.
Definition get_model_offset (r : generic_data_reader) : Z := m_model_offset r.
Definition getPosition (r : generic_data_reader) : Z := m_current_pos r.

Definition getNumData (r : generic_data_reader) : Z :=
  to_int (Z.of_nat (length (m_shuffled_indices r))).

Definition get_num_unused_data (r : generic_data_reader) : Z :=
  to_int (Z.of_nat (length (m_unused_indices r))).

(** ** The index sets and the cursor, as one value

    The members the scheduler moves and a checkpoint holds: the two
    index vectors and the cursor fields of the data model. *)
Record cursor : Type := {
  c_shuffled_indices : list Z;
  c_unused_indices : list Z;
  c_current_pos : Z;
  c_batch_stride : Z;
  c_base_offset : Z;
  c_model_offset : Z;
  c_sample_stride : Z;
  c_last_mini_batch_threshold : Z;
  c_last_mini_batch_size : Z;
  c_last_mini_batch_stride : Z;
  c_current_mini_batch_idx : Z;
  c_num_mini_batches_per_reader : Z;
  c_num_iterations_per_epoch : Z
}.

Definition cursor_of (r : generic_data_reader) : cursor := {|
  c_shuffled_indices := m_shuffled_indices r;
  c_unused_indices := m_unused_indices r;
  c_current_pos := m_current_pos r;
  c_batch_stride := m_batch_stride r;
  c_base_offset := m_base_offset r;
  c_model_offset := m_model_offset r;
  c_sample_stride := m_sample_stride r;
  c_last_mini_batch_threshold := m_last_mini_batch_threshold r;
  c_last_mini_batch_size := m_last_mini_batch_size r;
  c_last_mini_batch_stride := m_last_mini_batch_stride r;
  c_current_mini_batch_idx := m_current_mini_batch_idx r;
  c_num_mini_batches_per_reader := m_num_mini_batches_per_reader r;
  c_num_iterations_per_epoch := m_num_iterations_per_epoch r
|}.

(** The reader [r] with its index sets and cursor replaced by [c]; the
    other members are kept. *)
Definition with_cursor (r : generic_data_reader) (c : cursor)
  : generic_data_reader := {|
  m_batch_size := m_batch_size r;
  m_current_pos := c_current_pos c;
  m_batch_stride := c_batch_stride c;
  m_base_offset := c_base_offset c;
  m_model_offset := c_model_offset c;
  m_sample_stride := c_sample_stride c;
  m_use_alt_last_mini_batch_size := m_use_alt_last_mini_batch_size r;
  m_shuffled_indices := c_shuffled_indices c;
  m_unused_indices := c_unused_indices c;
  m_last_mini_batch_threshold := c_last_mini_batch_threshold c;
  m_last_mini_batch_size := c_last_mini_batch_size c;
  m_last_mini_batch_stride := c_last_mini_batch_stride c;
  m_current_mini_batch_idx := c_current_mini_batch_idx c;
  m_num_mini_batches_per_reader := c_num_mini_batches_per_reader c;
  m_num_iterations_per_epoch := c_num_iterations_per_epoch c;
  m_rank := m_rank r;
  m_file_dir := m_file_dir r;
  m_data_fn := m_data_fn r;
  m_label_fn := m_label_fn r;
  m_first_n := m_first_n r;
  m_max_sample_count := m_max_sample_count r;
  m_validation_percent := m_validation_percent r;
  m_max_sample_count_was_set := m_max_sample_count_was_set r;
  m_use_percent := m_use_percent r;
  m_role := m_role r;
  m_master := m_master r
|}.

(** Setters defined in the header. *)
Definition set_last_mini_batch_threshold (t : Z) (r : generic_data_reader)
  : generic_data_reader :=
  let c := cursor_of r in
  with_cursor r {|
    c_shuffled_indices := c_shuffled_indices c;
    c_unused_indices := c_unused_indices c;
    c_current_pos := c_current_pos c;
    c_batch_stride := c_batch_stride c;
    c_base_offset := c_base_offset c;
    c_model_offset := c_model_offset c;
    c_sample_stride := c_sample_stride c;
    c_last_mini_batch_threshold := t;
    c_last_mini_batch_size := c_last_mini_batch_size c;
    c_last_mini_batch_stride := c_last_mini_batch_stride c;
    c_current_mini_batch_idx := c_current_mini_batch_idx c;
    c_num_mini_batches_per_reader := c_num_mini_batches_per_reader c;
    c_num_iterations_per_epoch := c_num_iterations_per_epoch c |}.

Definition set_last_mini_batch_stride (s : Z) (r : generic_data_reader)
  : generic_data_reader :=
  let c := cursor_of r in
  with_cursor r {|
    c_shuffled_indices := c_shuffled_indices c;
    c_unused_indices := c_unused_indices c;
    c_current_pos := c_current_pos c;
    c_batch_stride := c_batch_stride c;
    c_base_offset := c_base_offset c;
    c_model_offset := c_model_offset c;
    c_sample_stride := c_sample_stride c;
    c_last_mini_batch_threshold := c_last_mini_batch_threshold c;
    c_last_mini_batch_size := c_last_mini_batch_size c;
    c_last_mini_batch_stride := s;
    c_current_mini_batch_idx := c_current_mini_batch_idx c;
    c_num_mini_batches_per_reader := c_num_mini_batches_per_reader c;
    c_num_iterations_per_epoch := c_num_iterations_per_epoch c |}.

(** The reader [r] at position [pos] of mini-batch [idx], working on the
    index sequence [shuffled]. *)
Definition move_to (pos idx : Z) (shuffled : list Z) (r : generic_data_reader)
  : generic_data_reader :=
  let c := cursor_of r in
  with_cursor r {|
    c_shuffled_indices := shuffled;
    c_unused_indices := c_unused_indices c;
    c_current_pos := pos;
    c_batch_stride := c_batch_stride c;
    c_base_offset := c_base_offset c;
    c_model_offset := c_model_offset c;
    c_sample_stride := c_sample_stride c;
    c_last_mini_batch_threshold := c_last_mini_batch_threshold c;
    c_last_mini_batch_size := c_last_mini_batch_size c;
    c_last_mini_batch_stride := c_last_mini_batch_stride c;
    c_current_mini_batch_idx := idx;
    c_num_mini_batches_per_reader := c_num_mini_batches_per_reader c;
    c_num_iterations_per_epoch := c_num_iterations_per_epoch c |}.

(** ** Advancing the cursor *)

Section Update.

(** The random permutation of the index sequence, threading the state of
    the generator, and the position a reader starts an epoch at. *)
Context {rng : Type}.
Variable shuffle : rng -> list Z -> rng * list Z.
Variable initial_position : generic_data_reader -> Z.

(** The stride of the next advance: [last_mini_batch_stride] once the
    position has reached [last_mini_batch_threshold], [batch_stride]
    before. *)
Definition next_stride (r : generic_data_reader) : Z :=
  if m_last_mini_batch_threshold r <=? m_current_pos r
  then m_last_mini_batch_stride r
  else m_batch_stride r.

(** Modelled from the spec: the body of [generic_data_reader::update],
    which the header only declares.  The position advances by
    [next_stride].  When the new position is at or beyond the size of
    the working set the epoch ends: the mini-batch index returns to 0,
    the position to the start of an epoch, the indices are reshuffled
    unless [m_first_n] is set (the header: indices are not shuffled
    then), and the call returns [true].  Otherwise the reader moves to
    the new position, counts one more mini-batch and returns [false]. *)
Definition update (r : generic_data_reader) (g : rng)
  : bool * generic_data_reader * rng :=
  let pos := m_current_pos r + next_stride r in
  if Z.of_nat (length (m_shuffled_indices r)) <=? pos then
    let gs := if m_first_n r then (g, m_shuffled_indices r)
              else shuffle g (m_shuffled_indices r) in
    (true, move_to (initial_position r) 0 gs.2 r, gs.1)
  else
    (false,
     move_to pos (m_current_mini_batch_idx r + 1) (m_shuffled_indices r) r,
     g).

End Update.

(** ** Checkpoints *)

(** Modelled from the spec: the checkpoint store behind [persist], an
    interface declared in [lbann/io/persist.hpp].  A store maps a
    name to a blob; a blob is a sequence of 32-bit words. *)
Abbreviation persist := (gmap string (list Z)).

Inductive checkpoint_error : Type :=
| MissingBlob
| CorruptStateError.

Definition cursor_words (c : cursor) : list Z :=
  [ c_current_pos c; c_batch_stride c; c_base_offset c; c_model_offset c;
    c_sample_stride c; c_last_mini_batch_threshold c;
    c_last_mini_batch_size c; c_last_mini_batch_stride c;
    c_current_mini_batch_idx c; c_num_mini_batches_per_reader c;
    c_num_iterations_per_epoch c ].

(** The blob of a cursor: the eleven scalar fields, then each index
    vector behind its length. *)
Definition serialize (c : cursor) : list Z :=
  cursor_words c
  ++ Z.of_nat (length (c_shuffled_indices c)) :: c_shuffled_indices c
  ++ Z.of_nat (length (c_unused_indices c)) :: c_unused_indices c.

(** A vector behind its length; [None] when the count is negative or
    more words are announced than the blob holds. *)
Definition read_vector (ws : list Z) : option (list Z * list Z) :=
  match ws with
  | [] => None
  | n :: rest =>
      if (0 <=? n) && (n <=? Z.of_nat (length rest))
      then Some (take (Z.to_nat n) rest, drop (Z.to_nat n) rest)
      else None
  end.

Definition deserialize (ws : list Z) : option cursor :=
  match ws with
  | pos :: bstride :: boff :: moff :: sstride :: thr :: lsize :: lstride
      :: idx :: nmb :: nit :: rest =>
      '(shuffled, rest1) ← read_vector rest;
      '(unused, rest2) ← read_vector rest1;
      match rest2 with
      | [] => Some {|
          c_shuffled_indices := shuffled;
          c_unused_indices := unused;
          c_current_pos := pos;
          c_batch_stride := bstride;
          c_base_offset := boff;
          c_model_offset := moff;
          c_sample_stride := sstride;
          c_last_mini_batch_threshold := thr;
          c_last_mini_batch_size := lsize;
          c_last_mini_batch_stride := lstride;
          c_current_mini_batch_idx := idx;
          c_num_mini_batches_per_reader := nmb;
          c_num_iterations_per_epoch := nit |}
      | _ :: _ => None
      end
  | _ => None
  end.

(** Modelled from the spec: [saveToCheckpointShared], declared in the
    header only.  Writes the blob of the reader's index sets and cursor
    under [name]; returns success, the number of bytes written and the
    store. *)
Definition saveToCheckpointShared
    (p : persist) (name : string) (r : generic_data_reader)
  : bool * Z * persist :=
  let blob := serialize (cursor_of r) in
  (true, 4 * Z.of_nat (length blob), <[name := blob]> p).

(** Modelled from the spec: [loadFromCheckpointShared], declared in the
    header only.  Reads the blob under [name] into the reader [r];
    returns the number of bytes read and the reader, or the error. *)
Definition loadFromCheckpointShared
    (p : persist) (name : string) (r : generic_data_reader)
  : checkpoint_error + Z * generic_data_reader :=
  match p !! name with
  | None => inl MissingBlob
  | Some blob =>
      match deserialize blob with
      | None => inl CorruptStateError
      | Some c => inr (4 * Z.of_nat (length blob), with_cursor r c)
      end
  end.

(** ** Readers to run the scheduler on *)

(** A reader whose working set holds [n] indices, the other members as
    the constructor leaves them. *)
Definition reader_of_size (n : nat) : generic_data_reader :=
  let r := new_generic_data_reader 1 true
             {| i_current_mini_batch_idx := 0;
                i_num_mini_batches_per_reader := 0;
                i_num_iterations_per_epoch := 0;
                i_rank := 0 |} in
  move_to 0 0 (replicate n 0) r.

(** The example of the specification: 105 samples, stride 10, threshold
    100, last stride 5, at position 0. *)
Definition example_reader : generic_data_reader :=
  set_last_mini_batch_stride 5
    (set_last_mini_batch_threshold 100
       (move_to 0 0 (seqZ 0 105)
          (new_generic_data_reader 10 true
             {| i_current_mini_batch_idx := 0;
                i_num_mini_batches_per_reader := 11;
                i_num_iterations_per_epoch := 11;
                i_rank := 0 |}))).

(** [n] updates in a row, with a shuffle that reverses the indices and
    epochs that start at position 0: what each returned, and the reader
    after the last. *)
Fixpoint updates (n : nat) (r : generic_data_reader)
  : list bool * generic_data_reader :=
  match n with
  | O => ([], r)
  | S n' =>
      let u := update (fun (g : unit) l => (g, reverse l)) (fun _ => 0) r tt in
      let rest := updates n' u.1.2 in
      (u.1.1 :: rest.1, rest.2)
  end.

End DataReader.

(** * The data reader: capabilities a subclass must supply *)

Module DataReaderDefaults.
Import DataReader.

(** The macro [NOT_IMPLEMENTED(n)]: throws an [lbann_exception] whose
    message is built from the name of the method. *)
Definition NOT_IMPLEMENTED {A : Type} (n : string) : string + A :=
  inl ("the method " ++ n ++ " has not been implemented")%string.

(** Sequencing with exceptions: what follows a throw does not run. *)
Definition and_then {A B : Type} (x : string + A) (f : A -> string + B)
  : string + B :=
  match x with
  | inl e => inl e
  | inr a => f a
  end.

Section Defaults.

(** The matrix type [Mat]. *)
Context {Mat : Type}.

(** The virtual fetch functions and [save_image] as the base class
    defines them: the macro, then [return 0]. *)
Definition fetch_data (r : generic_data_reader) (X : Mat) : string + Z :=
  and_then (NOT_IMPLEMENTED (A := unit) "fetch_data") (fun _ => inr 0).

Definition fetch_label (r : generic_data_reader) (Y : Mat) : string + Z :=
  and_then (NOT_IMPLEMENTED (A := unit) "fetch_label") (fun _ => inr 0).

Definition fetch_response (r : generic_data_reader) (Y : Mat) : string + Z :=
  and_then (NOT_IMPLEMENTED (A := unit) "fetch_response") (fun _ => inr 0).

Definition save_image (r : generic_data_reader) (pixels : Mat)
    (filename : string) (do_scale : bool) : string + unit :=
  NOT_IMPLEMENTED "save_image".

End Defaults.

(** The sizes the base class reports. *)
Definition get_num_labels (r : generic_data_reader) : Z := 0.
Definition getNumResponses (r : generic_data_reader) : Z := 1.
Definition get_linearized_data_size (r : generic_data_reader) : Z := 0.
Definition get_linearized_label_size (r : generic_data_reader) : Z := 0.
Definition get_linearized_response_size (r : generic_data_reader) : Z := 1.
Definition get_data_dims (r : generic_data_reader) : list Z := [].

(** [getIndices()[i]]: the element of the working set at position [i],
    when there is one. *)
Definition index_at (r : generic_data_reader) (i : Z) : option Z :=
  if i <? 0 then None else m_shuffled_indices r !! Z.to_nat i.

End DataReaderDefaults.

(** * The gradient-check callback: [check_gradients] *)

Module CheckGradients.
Import Scalar.

(** ** The collaborators

    What the callback consumes of the model: the model [m] with its
    communicator, layers, objective function, metrics and weights.
    [model] is the state all of them live in; layers, weights and
    metrics are handles (the pointers the model's vectors hold).  A
    call that mutates takes the state and returns the new one.

    Attributes that the callback reads more than once and that no call
    it makes is meant to change are functions of the handle alone:
    whether a layer is an input layer (the [dynamic_cast] to
    [generic_input_layer]), whether a weights object has an optimizer
    ([get_optimizer() != nullptr]), its name, and the shape and
    distribution of its matrix ([Width], [Height], [IsLocal],
    [LocalRow], [LocalCol], [RedundantRank]).

    None of the calls throws here; [CheckGradientsExceptions] has the
    callback with calls that can throw. *)
Class Collaborators
    (D execution_mode model Layer weights metric : Type) : Type := {
  (** model *)
  get_execution_mode : model -> execution_mode;
  get_current_mini_batch_size : model -> Z;
  get_layers : model -> list Layer;
  get_weights : model -> list weights;
  get_metrics : model -> list metric;
  am_world_master : model -> bool;
  (** layers *)
  is_input_layer : Layer -> bool;
  forward_prop : Layer -> model -> model;
  back_prop : Layer -> model -> model;
  set_initial_position : Layer -> execution_mode -> model -> model;
  (** objective function *)
  obj_reset_statistics : execution_mode -> model -> model;
  start_evaluation : execution_mode -> Z -> model -> model;
  finish_evaluation : execution_mode -> Z -> model -> D * model;
  differentiate : model -> model;
  compute_weight_regularization : model -> model;
  (** metrics *)
  met_reset_statistics : metric -> execution_mode -> model -> model;
  (** weights, their matrix of values and their optimizer's gradient *)
  get_name : weights -> string;
  has_optimizer : weights -> bool;
  clear_gradient : weights -> model -> model;
  set_value : weights -> D -> Z -> Z -> model -> model;
  Width : weights -> Z;
  Height : weights -> Z;
  IsLocal : weights -> Z -> Z -> bool;
  LocalRow : weights -> Z -> Z;
  LocalCol : weights -> Z -> Z;
  RedundantRank : weights -> Z;
  values_GetLocal : model -> weights -> Z -> Z -> D;
  gradient_GetLocal : model -> weights -> Z -> Z -> D
}.

(** ** What a run leaves behind: calls and printed lines *)

(** The five values printed for an entry. *)
Record entry_report (D : Type) : Type := {
  r_name : string;
  r_row : Z;
  r_col : Z;
  r_weight : D;
  r_analytical_gradient : D;
  r_numerical_gradient : D;
  r_error : D;
  r_relative_error : D
}.
Arguments r_name {D} _.
Arguments r_row {D} _.
Arguments r_col {D} _.
Arguments r_weight {D} _.
Arguments r_analytical_gradient {D} _.
Arguments r_numerical_gradient {D} _.
Arguments r_error {D} _.
Arguments r_relative_error {D} _.

(** What is written to [std::cout]. *)
Inductive output (D : Type) : Type :=
| OutHeader (objective step_size expected_error : D)
| OutChecking (name : string)
| OutGradientError (r : entry_report D)
| OutEntry (r : entry_report D)
| OutRule.
Arguments OutHeader {D} _ _ _.
Arguments OutChecking {D} _.
Arguments OutGradientError {D} _.
Arguments OutEntry {D} _.
Arguments OutRule {D}.

(** One event per call to a collaborator that mutates, and per output. *)
Inductive event (D execution_mode Layer weights metric : Type) : Type :=
| EvObjResetStatistics (mode : execution_mode)
| EvMetResetStatistics (met : metric) (mode : execution_mode)
| EvClearGradient (w : weights)
| EvForwardProp (l : Layer)
| EvBackProp (l : Layer)
| EvStartEvaluation (mode : execution_mode) (mini_batch_size : Z)
| EvFinishEvaluation (mode : execution_mode) (mini_batch_size : Z) (value : D)
| EvDifferentiate
| EvComputeWeightRegularization
| EvSetValue (w : weights) (value : D) (row col : Z)
| EvSetInitialPosition (l : Layer) (mode : execution_mode)
| EvPrint (line : output D).
Arguments EvObjResetStatistics {D execution_mode Layer weights metric} _.
Arguments EvMetResetStatistics {D execution_mode Layer weights metric} _ _.
Arguments EvClearGradient {D execution_mode Layer weights metric} _.
Arguments EvForwardProp {D execution_mode Layer weights metric} _.
Arguments EvBackProp {D execution_mode Layer weights metric} _.
Arguments EvStartEvaluation {D execution_mode Layer weights metric} _ _.
Arguments EvFinishEvaluation {D execution_mode Layer weights metric} _ _ _.
Arguments EvDifferentiate {D execution_mode Layer weights metric}.
Arguments EvComputeWeightRegularization {D execution_mode Layer weights metric}.
Arguments EvSetValue {D execution_mode Layer weights metric} _ _ _ _.
Arguments EvSetInitialPosition {D execution_mode Layer weights metric} _ _.
Arguments EvPrint {D execution_mode Layer weights metric} _.

(** How a call ends: it returns, or an [lbann_exception] propagates
    ([LBANN_ERROR]). *)
Inductive outcome (A : Type) : Type :=
| Returns (a : A)
| Throws (message : string).
Arguments Returns {A} _.
Arguments Throws {A} _.

(** The configuration held by the callback object. *)
Record check_gradients (D execution_mode : Type)
    `{Countable execution_mode} : Type := {
  m_modes : gset execution_mode;
  m_step_size : D;
  m_verbose : bool;
  m_error_on_failure : bool
}.
Arguments m_modes {D execution_mode _ _} _.
Arguments m_step_size {D execution_mode _ _} _.
Arguments m_verbose {D execution_mode _ _} _.
Arguments m_error_on_failure {D execution_mode _ _} _.

Section Callback.

Context {D : Type} {DS : Scalar D}.
Context {execution_mode : Type} `{Countable execution_mode}.
Context {model Layer weights metric : Type}.
Context {C : Collaborators D execution_mode model Layer weights metric}.

Local Abbreviation event := (event D execution_mode Layer weights metric).
Local Abbreviation config := (check_gradients D execution_mode).

(** ** The monad of the callback

    A computation takes the state of the model and gives how it ends,
    the state it leaves and the events it produced, in order.  After a
    throw nothing more runs; the state and events up to the throw
    stay. *)
Definition M (A : Type) : Type := model -> outcome A * model * list event.

Definition ret {A : Type} (a : A) : M A := fun m => (Returns a, m, []).

Definition bind {A B : Type} (x : M A) (f : A -> M B) : M B :=
  fun m =>
    match x m with
    | (Returns a, m1, t1) =>
        match f a m1 with
        | (o, m2, t2) => (o, m2, t1 ++ t2)
        end
    | (Throws e, m1, t1) => (Throws e, m1, t1)
    end.

#[global] Instance M_ret : MRet M := @ret.
#[global] Instance M_bind : MBind M := fun A B f x => bind x f.

(** Reading the state. *)
Definition gets {A : Type} (f : model -> A) : M A :=
  fun m => (Returns (f m), m, []).

(** A call that mutates the state. *)
Definition call (f : model -> model) (e : event) : M unit :=
  fun m => (Returns tt, f m, [e]).

Definition print (line : output D) : M unit :=
  fun m => (Returns tt, m, [EvPrint line]).

Definition throw {A : Type} (message : string) : M A :=
  fun m => (Throws message, m, []).

(** A range-based [for] over a vector read when the loop starts. *)
Fixpoint for_each {A : Type} (xs : list A) (body : A -> M unit) : M unit :=
  match xs with
  | [] => ret tt
  | x :: xs' => body x ;; for_each xs' body
  end.

Definition when (b : bool) (c : M unit) : M unit := if b then c else ret tt.

(** The state, outcome and trace of a run. *)
Definition final_state {A : Type} (r : outcome A * model * list event)
  : model := r.1.2.
Definition result {A : Type} (r : outcome A * model * list event)
  : outcome A := r.1.1.
Definition trace {A : Type} (r : outcome A * model * list event)
  : list event := r.2.

(** [obj->finish_evaluation(mode, mini_batch_size)]: returns the value
    of the objective function. *)
Definition call_finish_evaluation (mode : execution_mode) (mini_batch_size : Z)
  : M D :=
  fun m =>
    let vm := finish_evaluation mode mini_batch_size m in
    (Returns vm.1, vm.2, [EvFinishEvaluation mode mini_batch_size vm.1]).

(** ** [compute_objective_function]

    Forward prop on all layers except input layers, then the objective
    function is evaluated for the current mode and mini-batch size. *)
Definition compute_objective_function : M D :=
  layers ← gets get_layers;
  for_each layers (fun l =>
    when (negb (is_input_layer l)) (call (forward_prop l) (EvForwardProp l))) ;;
  mode ← gets get_execution_mode;
  mini_batch_size ← gets get_current_mini_batch_size;
  call (start_evaluation mode mini_batch_size)
       (EvStartEvaluation mode mini_batch_size) ;;
  call_finish_evaluation mode mini_batch_size.

(** ** The arithmetic of one entry *)

(** The five-point central difference,
    [(- f_2h + 8 * f_h - 8 * f_nh + f_n2h) / (12 * step_size)]. *)
Definition numerical_gradient (f_2h f_h f_nh f_n2h step_size : D) : D :=
  ((- f_2h + s_int 8 * f_h - s_int 8 * f_nh + f_n2h)
   / (s_int 12 * step_size))%S.

(** [std::fabs(analytical_gradient - numerical_gradient)]. *)
Definition gradient_error (analytical numerical : D) : D :=
  s_fabs (analytical - numerical)%S.

(** The relative error: zero, replaced by the quotient when the error
    differs from zero. *)
Definition relative_error (analytical numerical : D) : D :=
  let error := gradient_error analytical numerical in
  if (error !=? s_int 0)%S
  then (error / std_max (s_fabs analytical) (s_fabs numerical))%S
  else s_int 0.

(** The test before the warning:
    [error > expected_error || std::isnan(error) || std::isinf(error)]. *)
Definition gradient_check_failed (error expected_error : D) : bool :=
  (error >? expected_error)%S || s_isnan error || s_isinf error.

(** ** One entry of a weights matrix *)

Section Entry.

Variable cfg : config.
Variables step_size expected_error : D.
Variable w : weights.
Variables col row : Z.

Definition weight_is_local : bool := IsLocal w row col.
Definition local_row : Z := if weight_is_local then LocalRow w row else 0.
Definition local_col : Z := if weight_is_local then LocalCol w col else 0.

Definition initial_weight (m : model) : D :=
  if weight_is_local then values_GetLocal m w local_row local_col
  else s_int 0.

Definition set_entry (v : D) : M unit :=
  call (set_value w v row col) (EvSetValue w v row col).

(** The four perturbed evaluations and the reset of the entry.  Returns
    the initial weight and the four objective values. *)
Definition perturb_entry : M (D * (D * D * D * D)) :=
  w0 ← gets initial_weight;
  set_entry (w0 + s_int 2 * step_size)%S ;;
  f_2h ← compute_objective_function;
  set_entry (w0 + step_size)%S ;;
  f_h ← compute_objective_function;
  set_entry (w0 - step_size)%S ;;
  f_nh ← compute_objective_function;
  set_entry (w0 - s_int 2 * step_size)%S ;;
  f_n2h ← compute_objective_function;
  set_entry w0 ;;
  ret (w0, (f_2h, f_h, f_nh, f_n2h)).

(** Only the owner of the entry compares. *)
Definition is_owner : bool := weight_is_local && (RedundantRank w =? 0).

Definition report_of (w0 analytical numerical : D) : entry_report D := {|
  r_name := get_name w;
  r_row := row;
  r_col := col;
  r_weight := w0;
  r_analytical_gradient := analytical;
  r_numerical_gradient := numerical;
  r_error := gradient_error analytical numerical;
  r_relative_error := relative_error analytical numerical
|}.

(** The comparison of the analytical with the numerical gradient, the
    warning, and the error when [m_error_on_failure] is set. *)
Definition compare_entry (x : D * (D * D * D * D)) : M unit :=
  let '(w0, (f_2h, f_h, f_nh, f_n2h)) := x in
  if is_owner then
    analytical_gradient ← gets (fun m => gradient_GetLocal m w local_row local_col);
    let numerical := numerical_gradient f_2h f_h f_nh f_n2h step_size in
    let error := gradient_error analytical_gradient numerical in
    if gradient_check_failed error expected_error then
      print (OutGradientError (report_of w0 analytical_gradient numerical)) ;;
      if m_error_on_failure cfg
      then throw ("gradient checking found large difference between "
                  ++ "analytical and numerical gradients")
      else ret tt
    else
      when (m_verbose cfg)
           (print (OutEntry (report_of w0 analytical_gradient numerical)))
  else ret tt.

(** The body of the loop over the entries. *)
Definition check_entry : M unit :=
  x ← perturb_entry; compare_entry x.

End Entry.

(** ** One weights object: all entries, column by column *)

Definition check_weights (cfg : config) (step_size expected_error : D)
    (w : weights) : M unit :=
  if negb (has_optimizer w) then ret tt
  else
    master ← gets am_world_master;
    when master (print (OutChecking (get_name w))) ;;
    for_each (seqZ 0 (Width w)) (fun col =>
      for_each (seqZ 0 (Height w)) (fun row =>
        check_entry cfg step_size expected_error w col row)).

End Callback.

Section Run.

Context {D : Type} {DS : Scalar D} {DM : ScalarMath D}.
Context {execution_mode : Type} `{Countable execution_mode}.
Context {model Layer weights metric : Type}.
Context {C : Collaborators D execution_mode model Layer weights metric}.

Local Abbreviation config := (check_gradients D execution_mode).
Local Abbreviation M := (@M D execution_mode model Layer weights metric).

(** ** The finite-difference step and the expected error *)

(** [std::pow(std::numeric_limits<DataType>::epsilon(), 0.9)], the
    local constant [epsilon]. *)
Definition epsilon : D := s_pow s_epsilon (s_lit (9 # 10)).

(** The local [step_size]: the configured one when it is positive. *)
Definition finite_difference_step (cfg : config) (objective : D) : D :=
  if (m_step_size cfg >? s_int 0)%S
  then m_step_size cfg
  else (s_fabs objective * s_sqrt epsilon)%S.

(** The local [expected_error]. *)
Definition expected_gradient_error (objective step_size : D) : D :=
  s_pow (epsilon * objective / step_size
         + s_pow step_size (s_int 4) / s_int 18)%S
        (s_lit (9 # 10)).

(** ** [check_gradients::do_check_gradients] *)

(** The test on the execution mode:
    [!m_modes.empty() && m_modes.count(mode) == 0]. *)
Definition check_not_needed (cfg : config) (mode : execution_mode) : bool :=
  negb (bool_decide (m_modes cfg = ∅)) && bool_decide (mode ∉ m_modes cfg).

(** Reset statistics and gradients. *)
Definition reset_statistics_and_gradients (mode : execution_mode) : M unit :=
  call (obj_reset_statistics mode) (EvObjResetStatistics mode) ;;
  metrics ← gets get_metrics;
  for_each metrics (fun met =>
    call (met_reset_statistics met mode) (EvMetResetStatistics met mode)) ;;
  ws ← gets get_weights;
  for_each ws (fun w =>
    when (has_optimizer w) (call (clear_gradient w) (EvClearGradient w))).

(** Load data in input layers. *)
Definition load_data_in_input_layers : M unit :=
  layers ← gets get_layers;
  for_each layers (fun l =>
    when (is_input_layer l) (call (forward_prop l) (EvForwardProp l))).

(** Compute gradients: the objective function is differentiated, then
    back prop runs from the last layer to the first. *)
Definition compute_gradients : M unit :=
  call differentiate EvDifferentiate ;;
  call compute_weight_regularization EvComputeWeightRegularization ;;
  layers ← gets get_layers;
  for_each (rev layers) (fun l => call (back_prop l) (EvBackProp l)).

(** Clean up: the data readers of the input layers return to their
    initial position and the statistics are reset. *)
Definition clean_up (mode : execution_mode) : M unit :=
  layers ← gets get_layers;
  for_each layers (fun l =>
    when (is_input_layer l)
         (call (set_initial_position l mode) (EvSetInitialPosition l mode))) ;;
  call (obj_reset_statistics mode) (EvObjResetStatistics mode) ;;
  metrics ← gets get_metrics;
  for_each metrics (fun met =>
    call (met_reset_statistics met mode) (EvMetResetStatistics met mode)).

(** From the choice of the step to the end: with the value [objective]
    of the objective function the step size and the expected error are
    fixed, the gradients computed, and every weights object checked. *)
Definition check_with_objective (cfg : config) (mode : execution_mode)
    (objective : D) : M unit :=
  let step_size := finite_difference_step cfg objective in
  let expected_error := expected_gradient_error objective step_size in
  compute_gradients ;;
  master ← gets am_world_master;
  when master (print (OutHeader objective step_size expected_error)) ;;
  ws ← gets get_weights;
  for_each ws (check_weights cfg step_size expected_error) ;;
  master ← gets am_world_master;
  when master (print OutRule) ;;
  clean_up mode.

(** Everything after the test on the execution mode. *)
Definition run_gradient_check (cfg : config) (mode : execution_mode) : M unit :=
  reset_statistics_and_gradients mode ;;
  load_data_in_input_layers ;;
  objective ← compute_objective_function;
  check_with_objective cfg mode objective.

Definition do_check_gradients (cfg : config) : M unit :=
  mode ← gets get_execution_mode;
  if check_not_needed cfg mode then ret tt
  else run_gradient_check cfg mode.

End Run.

End CheckGradients.

(** * A small model: the sum of squared weights

    A concrete model to run the callback on: one process, an input
    layer and a layer computing the sum of the squares of all weight
    entries, which is the objective.  There are two weights objects: a
    2 x 1 matrix with an optimizer, whose gradient back prop sets to
    twice the values, and a 1 x 1 matrix without optimizer. *)

Module Quadratic.
Import Scalar CheckGradients.

Inductive mode : Type := training | validation | testing.

#[global] Instance mode_eq_dec : EqDecision mode.
Proof. solve_decision. Defined.

Definition mode_code (x : mode) : nat :=
  match x with training => 0 | validation => 1 | testing => 2 end%nat.

Definition mode_of_code (n : nat) : mode :=
  match n with O => training | S O => validation | _ => testing end.

#[global] Instance mode_countable : Countable mode.
Proof.
  refine (inj_countable' mode_code mode_of_code _).
  intros []; reflexivity.
Defined.

Inductive layer : Type := input_layer | sum_of_squares.

Inductive weights : Type := trained | frozen.

#[global] Instance weights_eq_dec : EqDecision weights.
Proof. solve_decision. Defined.

Section Model.

Context {D : Type} {DS : Scalar D}.

(** The state: the execution mode, the values and the gradient of the
    weights (local entries, by local row and column), the output of the
    sum-of-squares layer, the number of evaluations the objective
    function and the metric have recorded, and the position of the
    input layer's data reader. *)
Record model : Type := {
  t_mode : mode;
  t_values : weights -> Z -> Z -> D;
  t_gradient : weights -> Z -> Z -> D;
  t_output : D;
  t_objective_statistics : Z;
  t_metric_statistics : Z;
  t_reader_position : Z
}.

Definition height (w : weights) : Z :=
  match w with trained => 2 | frozen => 1 end.

Definition in_matrix (w : weights) (row col : Z) : bool :=
  (0 <=? row) && (row <? height w) && (col =? 0).

Definition square (x : D) : D := (x * x)%S.

Definition sum_squares (v : weights -> Z -> Z -> D) : D :=
  (square (v trained 0 0) + square (v trained 1 0) + square (v frozen 0 0))%S.

Definition update_entry (v : weights -> Z -> Z -> D)
    (w : weights) (i j : Z) (x : D) : weights -> Z -> Z -> D :=
  fun w' i' j' =>
    if bool_decide (w' = w) && (i' =? i) && (j' =? j) then x else v w' i' j'.

Definition with_values (m : model) (v : weights -> Z -> Z -> D) : model := {|
  t_mode := t_mode m;
  t_values := v;
  t_gradient := t_gradient m;
  t_output := t_output m;
  t_objective_statistics := t_objective_statistics m;
  t_metric_statistics := t_metric_statistics m;
  t_reader_position := t_reader_position m |}.

Definition with_gradient (m : model) (g : weights -> Z -> Z -> D) : model := {|
  t_mode := t_mode m;
  t_values := t_values m;
  t_gradient := g;
  t_output := t_output m;
  t_objective_statistics := t_objective_statistics m;
  t_metric_statistics := t_metric_statistics m;
  t_reader_position := t_reader_position m |}.

Definition with_output (m : model) (x : D) : model := {|
  t_mode := t_mode m;
  t_values := t_values m;
  t_gradient := t_gradient m;
  t_output := x;
  t_objective_statistics := t_objective_statistics m;
  t_metric_statistics := t_metric_statistics m;
  t_reader_position := t_reader_position m |}.

Definition with_counters (m : model) (obj met pos : Z) : model := {|
  t_mode := t_mode m;
  t_values := t_values m;
  t_gradient := t_gradient m;
  t_output := t_output m;
  t_objective_statistics := obj;
  t_metric_statistics := met;
  t_reader_position := pos |}.

#[global] Instance quadratic : Collaborators D mode model layer weights unit := {|
  get_execution_mode := t_mode;
  get_current_mini_batch_size _ := 1;
  get_layers _ := [input_layer; sum_of_squares];
  get_weights _ := [trained; frozen];
  get_metrics _ := [tt];
  am_world_master _ := true;
  is_input_layer l := match l with input_layer => true | _ => false end;
  forward_prop l m :=
    match l with
    | input_layer =>
        with_counters m (t_objective_statistics m) (t_metric_statistics m)
                      (t_reader_position m + 1)
    | sum_of_squares => with_output m (sum_squares (t_values m))
    end;
  back_prop l m :=
    match l with
    | input_layer => m
    | sum_of_squares =>
        with_gradient m (fun w i j =>
          match w with
          | trained => (s_int 2 * t_values m w i j)%S
          | frozen => t_gradient m w i j
          end)
    end;
  set_initial_position _ _ m :=
    with_counters m (t_objective_statistics m) (t_metric_statistics m) 0;
  obj_reset_statistics _ m :=
    with_counters m 0 (t_metric_statistics m) (t_reader_position m);
  start_evaluation _ _ m := m;
  finish_evaluation _ _ m :=
    (t_output m,
     with_counters m (t_objective_statistics m + 1) (t_metric_statistics m)
                   (t_reader_position m));
  differentiate m := m;
  compute_weight_regularization m := m;
  met_reset_statistics _ _ m :=
    with_counters m (t_objective_statistics m) 0 (t_reader_position m);
  get_name w := match w with trained => "trained" | frozen => "frozen" end%string;
  has_optimizer w := match w with trained => true | frozen => false end;
  clear_gradient w m :=
    with_gradient m (fun w' i j =>
      if bool_decide (w' = w) then s_int 0 else t_gradient m w' i j);
  set_value w x row col m :=
    if in_matrix w row col
    then with_values m (update_entry (t_values m) w row col x)
    else m;
  Width _ := 1;
  Height := height;
  IsLocal := in_matrix;
  LocalRow _ row := row;
  LocalCol _ col := col;
  RedundantRank _ := 0;
  values_GetLocal m := t_values m;
  gradient_GetLocal m := t_gradient m
|}.

(** The weights [(a, b)] and [c], everything else at rest. *)
Definition initial_model (md : mode) (a b c : D) : model := {|
  t_mode := md;
  t_values w i j :=
    match w with
    | trained => if i =? 0 then a else b
    | frozen => c
    end;
  t_gradient _ _ _ := s_int 0;
  t_output := s_int 0;
  t_objective_statistics := 0;
  t_metric_statistics := 0;
  t_reader_position := 0
|}.

End Model.

Arguments model D : clear implicits.

(** ** States and configurations to run the check on *)

(** Weights [(1, 2)] and [3]; the gradients are those of back prop. *)
Definition checked_model : model float :=
  final_state
    (compute_gradients
       (forward_prop sum_of_squares (initial_model training 1 2 3)%float)).

(** The same with the sign of the gradient flipped. *)
Definition corrupted_model : model float :=
  with_gradient checked_model
    (fun w i j => PrimFloat.opp (t_gradient checked_model w i j)).

Definition verbose (error_on_failure : bool) : check_gradients float mode := {|
  m_modes := ∅;
  m_step_size := s_lit (1 # 1000);
  m_verbose := true;
  m_error_on_failure := error_on_failure
|}.

Definition check_all (error_on_failure : bool) (m : model float)
  : outcome unit * model float * list (event float mode layer weights unit) :=
  for_each (get_weights m)
    (check_weights (verbose error_on_failure)
       (s_lit (1 # 1000)) (s_lit (1 # 1000000))) m.

Definition real_model : model R := initial_model training 1%R 2%R 3%R.

Definition real_config : check_gradients R mode := {|
  m_modes := ∅;
  m_step_size := 1%R;
  m_verbose := true;
  m_error_on_failure := true
|}.

End Quadratic.

(** * What a run of the gradient check shows

    The notions the properties of the callback are stated with: views
    of the trace, relations between states, and the laws the
    collaborators are assumed to obey. *)

Module CheckGradientsViews.
Import Scalar CheckGradients.

(** ** What the perturbation of an entry shows

    The calls that matter to the finite-difference stencil: a write of
    a weights entry, and an evaluation of the objective function with
    the value it returned. *)
Inductive perturbation_step (D weights : Type) : Type :=
| Write (w : weights) (row col : Z) (value : D)
| Evaluate (value : D).
Arguments Write {D weights} _ _ _ _.
Arguments Evaluate {D weights} _.

Section Views.

Context {D : Type} {DS : Scalar D}.
Context {execution_mode : Type} `{Countable execution_mode}.
Context {model Layer weights metric : Type}.
Context {C : Collaborators D execution_mode model Layer weights metric}.

Local Abbreviation event := (event D execution_mode Layer weights metric).
Local Abbreviation config := (check_gradients D execution_mode).
Local Abbreviation M := (@M D execution_mode model Layer weights metric).

(** The step of the stencil an event is, if it is one. *)
Definition perturbation (e : event) : option (perturbation_step D weights) :=
  match e with
  | EvSetValue w v row col => Some (Write w row col v)
  | EvFinishEvaluation _ _ v => Some (Evaluate v)
  | _ => None
  end.

(** The entry a write goes to. *)
Definition written_entry (e : event) : option (weights * Z * Z) :=
  match e with
  | EvSetValue w _ row col => Some (w, row, col)
  | _ => None
  end.

(** Output, as opposed to a call. *)
Definition is_print (e : event) : Prop :=
  match e with EvPrint _ => True | _ => False end.

(** The report an event prints, if it prints one. *)
Definition printed_report (e : event) : option (entry_report D) :=
  match e with
  | EvPrint (OutGradientError r) | EvPrint (OutEntry r) => Some r
  | _ => None
  end.

(** The report of a gradient error an event prints, if it prints one. *)
Definition printed_gradient_error (e : event) : option (entry_report D) :=
  match e with
  | EvPrint (OutGradientError r) => Some r
  | _ => None
  end.

(** The weight values a process can read: they are the same in [m] and
    [m']. *)
Definition same_values (m m' : model) : Prop :=
  forall w i j, values_GetLocal m' w i j = values_GetLocal m w i j.

(** The calls other than [set_value] relate the state before to the
    state after by [R]. *)
Class Respects (R : relation model) : Prop := {
  respects_forward_prop : forall l m, R m (forward_prop l m);
  respects_back_prop : forall l m, R m (back_prop l m);
  respects_set_initial_position :
    forall l mode m, R m (set_initial_position l mode m);
  respects_obj_reset_statistics :
    forall mode m, R m (obj_reset_statistics mode m);
  respects_start_evaluation :
    forall mode mbs m, R m (start_evaluation mode mbs m);
  respects_finish_evaluation :
    forall mode mbs m, R m (finish_evaluation mode mbs m).2;
  respects_differentiate : forall m, R m (differentiate m);
  respects_compute_weight_regularization :
    forall m, R m (compute_weight_regularization m);
  respects_met_reset_statistics :
    forall met mode m, R m (met_reset_statistics met mode m);
  respects_clear_gradient : forall w m, R m (clear_gradient w m)
}.

(** Modelled from the spec: what the collaborators do to the values of
    the weights; their code is in other files of the library.  Forward
    and backward propagation, the objective function, the metrics, the
    optimizers and the data readers leave the values as they are; and
    [weights::set_value(value, row, col)] sets the entry on the process
    that holds it ([IsLocal]), at its local coordinates, and changes no
    other entry. *)
Class WeightValueLaws : Prop := {
  calls_keep_values :: Respects same_values;
  set_value_local :
    forall w v row col m,
      IsLocal w row col = true ->
      values_GetLocal (set_value w v row col m) w
                      (LocalRow w row) (LocalCol w col) = v;
  set_value_elsewhere :
    forall w v row col m w' i j,
      values_GetLocal (set_value w v row col m) w' i j
      = values_GetLocal m w' i j
      \/ (IsLocal w row col = true /\ w' = w
          /\ i = LocalRow w row /\ j = LocalCol w col)
}.

(** A block of the finite-difference stencil with step [h]: the four
    perturbed writes to one entry, each followed by an evaluation, and
    the write of the initial value. *)
Definition stencil_block (h : D) (l : list (perturbation_step D weights))
  : Prop :=
  exists (w : weights) (row col : Z) (w0 f_2h f_h f_nh f_n2h : D),
    l = [Write w row col (w0 + s_int 2 * h)%S; Evaluate f_2h;
         Write w row col (w0 + h)%S; Evaluate f_h;
         Write w row col (w0 - h)%S; Evaluate f_nh;
         Write w row col (w0 - s_int 2 * h)%S; Evaluate f_n2h;
         Write w row col w0].

(** A trace whose writes and evaluations are stencil blocks with step
    [h], one after the other. *)
Definition stencil_blocks (h : D) (t : list event) : Prop :=
  exists blocks, Forall (stencil_block h) blocks
                 /\ omap perturbation t = concat blocks.

(** The header an event prints, if it prints one: the objective, the
    step size and the expected error. *)
Definition printed_header (e : event) : option (D * D * D) :=
  match e with
  | EvPrint (OutHeader objective step_size expected_error) =>
      Some (objective, step_size, expected_error)
  | _ => None
  end.

(** Neither a write, nor the end of an evaluation, nor output. *)
Definition plain_call (e : event) : Prop :=
  match e with
  | EvSetValue _ _ _ _ | EvFinishEvaluation _ _ _ | EvPrint _ => False
  | _ => True
  end.

(** [c] never throws. *)
Definition returns {A : Type} (c : M A) : Prop :=
  forall m, exists a, result (c m) = Returns a.

(** [c] relates the state it starts in to the state it leaves by [R]
    and produces a trace in [Q], however it ends. *)
Definition tame (R : relation model) (Q : list event -> Prop) {A : Type}
    (c : M A) : Prop :=
  forall m, R m (final_state (c m)) /\ Q (trace (c m)).

(** The value [compute_objective_function] returns in state [m], the
    state it leaves and the calls it makes. *)
Definition objective_value (m : model) : D :=
  match result (compute_objective_function m) with
  | Returns v => v
  | Throws _ => s_int 0
  end.

Definition after_objective (m : model) : model :=
  final_state (compute_objective_function m).

Definition objective_trace (m : model) : list event :=
  trace (compute_objective_function m).

(** ** One entry *)

Section EntryViews.

Variable cfg : config.
Variables h expected : D.
Variable w : weights.
Variables col row : Z.

(** The state after the entry was set to [v] and the objective function
    evaluated, and the value the evaluation returned. *)
Definition perturbed (v : D) (m : model) : model :=
  after_objective (set_value w v row col m).

Definition evaluated_at (v : D) (m : model) : D :=
  objective_value (set_value w v row col m).

(** The states in which the four perturbations start. *)
Definition before_2h (m : model) : model := m.

Definition before_h (m : model) : model :=
  perturbed (initial_weight w col row m + s_int 2 * h)%S (before_2h m).

Definition before_nh (m : model) : model :=
  perturbed (initial_weight w col row m + h)%S (before_h m).

Definition before_n2h (m : model) : model :=
  perturbed (initial_weight w col row m - h)%S (before_nh m).

(** The four objective values. *)
Definition f_2h (m : model) : D :=
  evaluated_at (initial_weight w col row m + s_int 2 * h)%S (before_2h m).

Definition f_h (m : model) : D :=
  evaluated_at (initial_weight w col row m + h)%S (before_h m).

Definition f_nh (m : model) : D :=
  evaluated_at (initial_weight w col row m - h)%S (before_nh m).

Definition f_n2h (m : model) : D :=
  evaluated_at (initial_weight w col row m - s_int 2 * h)%S (before_n2h m).

(** The state once the entry is reset. *)
Definition entry_restored (m : model) : model :=
  set_value w (initial_weight w col row m) row col
    (perturbed (initial_weight w col row m - s_int 2 * h)%S (before_n2h m)).

(** The calls of the perturbation of the entry, and what it returns. *)
Definition entry_trace (m : model) : list event :=
  let w0 := initial_weight w col row m in
  [EvSetValue w (w0 + s_int 2 * h)%S row col]
  ++ objective_trace (set_value w (w0 + s_int 2 * h)%S row col (before_2h m))
  ++ [EvSetValue w (w0 + h)%S row col]
  ++ objective_trace (set_value w (w0 + h)%S row col (before_h m))
  ++ [EvSetValue w (w0 - h)%S row col]
  ++ objective_trace (set_value w (w0 - h)%S row col (before_nh m))
  ++ [EvSetValue w (w0 - s_int 2 * h)%S row col]
  ++ objective_trace (set_value w (w0 - s_int 2 * h)%S row col (before_n2h m))
  ++ [EvSetValue w w0 row col].

Definition entry_values (m : model) : D * (D * D * D * D) :=
  (initial_weight w col row m, (f_2h m, f_h m, f_nh m, f_n2h m)).

(** The analytical gradient, read once the entry is reset, and the
    numerical gradient of the entry. *)
Definition analytical_of (m : model) : D :=
  gradient_GetLocal (entry_restored m) w
    (local_row w col row) (local_col w col row).

Definition numerical_of (m : model) : D :=
  numerical_gradient (f_2h m) (f_h m) (f_nh m) (f_n2h m) h.

(** Whether the entry fails the test, and its report. *)
Definition entry_failed (m : model) : bool :=
  gradient_check_failed (gradient_error (analytical_of m) (numerical_of m))
                        expected.

Definition entry_report_of (m : model) : entry_report D :=
  report_of w col row (initial_weight w col row m)
            (analytical_of m) (numerical_of m).

(** What the comparison of an entry prints. *)
Definition entry_output (m : model) : list event :=
  if is_owner w col row then
    if entry_failed m then [EvPrint (OutGradientError (entry_report_of m))]
    else if m_verbose cfg then [EvPrint (OutEntry (entry_report_of m))]
         else []
  else [].

(** How the check of the entry ends. *)
Definition entry_result (m : model) : outcome unit :=
  if is_owner w col row && entry_failed m && m_error_on_failure cfg
  then Throws ("gradient checking found large difference between "
               ++ "analytical and numerical gradients")
  else Returns tt.

End EntryViews.

(** The writes the check of a weights object makes when it runs to its
    end: none without an optimizer, else five for every entry, column
    by column. *)
Definition entries_written (w : weights) : list (weights * Z * Z) :=
  if has_optimizer w then
    flat_map (fun col =>
      flat_map (fun row => replicate 5 (w, row, col)) (seqZ 0 (Height w)))
      (seqZ 0 (Width w))
  else [].

(** The relation that holds between any two states. *)
Definition any_state : relation model := fun _ _ => True.

(** What is printed agrees with the objective [f0], the step [h] and
    the expected error [expected]: a header shows the three, the error
    of an entry reported as a gradient error fails the test against
    [expected], and the error of an entry reported otherwise passes
    it. *)
Definition output_agrees (f0 h expected : D) (e : event) : Prop :=
  match e with
  | EvPrint (OutHeader objective step_size expected_error) =>
      objective = f0 /\ step_size = h /\ expected_error = expected
  | EvPrint (OutGradientError rep) =>
      gradient_check_failed (r_error rep) expected = true
  | EvPrint (OutEntry rep) =>
      gradient_check_failed (r_error rep) expected = false
  | _ => True
  end.

(** When [c] throws, the last event of its trace is in [P]. *)
Definition abrupt (P : event -> Prop) {A : Type} (c : M A) : Prop :=
  forall m e, result (c m) = Throws e ->
              exists t ev, trace (c m) = t ++ [ev] /\ P ev.

(** The report of a gradient error whose error fails the test against
    [expected]. *)
Definition failure_report (expected : D) (e : event) : Prop :=
  exists rep, e = EvPrint (OutGradientError rep)
              /\ gradient_check_failed (r_error rep) expected = true.

End Views.

(** The expected error in the words of the specification: with the
    machine epsilon itself where the code has its power 0.9. *)
Definition claimed_expected_error {D : Type} {DS : Scalar D}
    {DM : ScalarMath D} (f0 h : D) : D :=
  s_pow (s_epsilon * f0 / h + s_pow h (s_int 4) / s_int 18)%S
        (s_lit (9 # 10)).

End CheckGradientsViews.

(** * The structure of a run

    The notions the properties of the order and the number of the
    calls are stated with. *)

Module CheckGradientsStructure.
Import Scalar CheckGradients CheckGradientsViews.

Section Structure.

Context {D : Type} {DS : Scalar D}.
Context {execution_mode : Type} `{Countable execution_mode}.
Context {model Layer weights metric : Type}.
Context {C : Collaborators D execution_mode model Layer weights metric}.

Local Abbreviation event := (event D execution_mode Layer weights metric).

(** What the callback iterates over and tests is the same in [m'] as
    in [m]: the layers, the weights, the metrics, the execution mode,
    and whether the process is the world master. *)
Definition same_structure (m m' : model) : Prop :=
  get_layers m' = get_layers m
  /\ get_weights m' = get_weights m
  /\ get_metrics m' = get_metrics m
  /\ get_execution_mode m' = get_execution_mode m
  /\ am_world_master m' = am_world_master m.

(** An assumption on the collaborators, whose code is in other files
    of the library: none of the calls the callback makes adds or
    removes a layer, a weights object or a metric, changes the
    execution mode, or changes which process is the world master. *)
Class StableStructure : Prop := {
  calls_keep_structure :: Respects same_structure;
  set_value_keeps_structure :
    forall w v row col m, same_structure m (set_value w v row col m)
}.

(** The data reader an event returns to its initial position, if it
    does. *)
Definition reader_reset (e : event) : option (Layer * execution_mode) :=
  match e with
  | EvSetInitialPosition l mode => Some (l, mode)
  | _ => None
  end.

(** The statistics an event resets, if it does: those of the objective
    function ([None]) or of a metric. *)
Definition statistics_reset (e : event)
  : option (option metric * execution_mode) :=
  match e with
  | EvObjResetStatistics mode => Some (None, mode)
  | EvMetResetStatistics met mode => Some (Some met, mode)
  | _ => None
  end.

(** The line an event prints, if it is not the report of an entry: the
    header, a line naming a weights object, or the closing rule. *)
Definition printed_frame (e : event) : option (output D) :=
  match e with
  | EvPrint (OutGradientError _) | EvPrint (OutEntry _) => None
  | EvPrint line => Some line
  | _ => None
  end.

(** The value an evaluation of the objective function returned. *)
Definition evaluation (e : event) : option D :=
  match e with
  | EvFinishEvaluation _ _ v => Some v
  | _ => None
  end.

(** A call that leaves the gradients and the loaded mini-batch alone:
    it neither clears nor computes a gradient, and a forward prop is
    not on an input layer. *)
Definition keeps_gradients_and_data (e : event) : Prop :=
  match e with
  | EvClearGradient _ | EvDifferentiate | EvComputeWeightRegularization
  | EvBackProp _ => False
  | EvForwardProp l => is_input_layer l = false
  | _ => True
  end.

(** The calls of the check before it prints and perturbs, for a model
    with the structure of [m]: statistics and gradients are reset, the
    input layers load data, the objective function is evaluated (for a
    mini-batch of size [mbs], to [f0]), and the gradients are
    computed, with back prop from the last layer to the first. *)
Definition prologue_calls (mode : execution_mode) (mbs : Z) (f0 : D)
    (m : model) : list event :=
  [EvObjResetStatistics mode]
  ++ map (fun met => EvMetResetStatistics met mode) (get_metrics m)
  ++ map EvClearGradient (List.filter has_optimizer (get_weights m))
  ++ map EvForwardProp (List.filter is_input_layer (get_layers m))
  ++ map EvForwardProp
         (List.filter (fun l => negb (is_input_layer l)) (get_layers m))
  ++ [EvStartEvaluation (get_execution_mode m) mbs;
      EvFinishEvaluation (get_execution_mode m) mbs f0]
  ++ [EvDifferentiate; EvComputeWeightRegularization]
  ++ map EvBackProp (rev (get_layers m)).

(** The calls of the clean-up, for a model with the structure of
    [m]. *)
Definition clean_up_calls (mode : execution_mode) (m : model) : list event :=
  map (fun l => EvSetInitialPosition l mode)
      (List.filter is_input_layer (get_layers m))
  ++ [EvObjResetStatistics mode]
  ++ map (fun met => EvMetResetStatistics met mode) (get_metrics m).

(** The number of entries the check perturbs in a weights object. *)
Definition entry_count (w : weights) : nat :=
  if has_optimizer w then (Z.to_nat (Width w) * Z.to_nat (Height w))%nat
  else 0%nat.

End Structure.

(** ** The arithmetic of the comparison *)

(** A binary64 value that is NaN or infinite. *)
Definition nan_or_infinite (x : spec_float) : bool :=
  match x with
  | S754_nan | S754_infinity _ => true
  | _ => false
  end.

(** A polynomial of degree at most four, and its derivative
    (its being the derivative is [quartic_derivative_correct]). *)
Definition quartic (a0 a1 a2 a3 a4 x : R) : R :=
  (a0 + a1 * x + a2 * x ^ 2 + a3 * x ^ 3 + a4 * x ^ 4)%R.

Definition quartic_derivative (a1 a2 a3 a4 x : R) : R :=
  (a1 + 2 * a2 * x + 3 * a3 * x ^ 2 + 4 * a4 * x ^ 3)%R.

(** A configuration for the example model that neither reports
    passing entries nor throws. *)
Definition quiet_config : check_gradients R Quadratic.mode := {|
  m_modes := ∅;
  m_step_size := 1%R;
  m_verbose := false;
  m_error_on_failure := false
|}.

End CheckGradientsStructure.

(** * The check, entry by entry

    The notions the order of the entries and the end of the check are
    stated with. *)

Module CheckGradientsRuns.
Import Scalar CheckGradients CheckGradientsViews.

(** The check of one entry in one state of the model. *)
Record entry_run (model weights : Type) : Type := {
  run_weights : weights;
  run_row : Z;
  run_col : Z;
  run_state : model
}.
Arguments run_weights {model weights} _.
Arguments run_row {model weights} _.
Arguments run_col {model weights} _.
Arguments run_state {model weights} _.

Section Runs.

Context {D : Type} {DS : Scalar D} {DM : ScalarMath D}.
Context {execution_mode : Type} `{Countable execution_mode}.
Context {model Layer weights metric : Type}.
Context {C : Collaborators D execution_mode model Layer weights metric}.

Local Abbreviation event := (event D execution_mode Layer weights metric).
Local Abbreviation config := (check_gradients D execution_mode).
Local Abbreviation run := (entry_run model weights).

(** The state in which the objective function is evaluated first:
    statistics and gradients are reset and the input layers have
    loaded data. *)
Definition baseline_state (mode : execution_mode) (m : model) : model :=
  final_state
    (load_data_in_input_layers
       (final_state (reset_statistics_and_gradients mode m))).

(** The value of this first evaluation. *)
Definition baseline_objective (mode : execution_mode) (m : model) : D :=
  objective_value (baseline_state mode m).

(** The state in which the loop over the weights starts: the objective
    function has been evaluated and the gradients computed. *)
Definition checking_state (mode : execution_mode) (m : model) : model :=
  final_state (compute_gradients (after_objective (baseline_state mode m))).

(** The entries of a weights object, as [(w, row, col)], in the order
    of the loops: column by column; none without an optimizer. *)
Definition all_entries (w : weights) : list (weights * Z * Z) :=
  if has_optimizer w then
    flat_map (fun col => map (fun row => (w, row, col)) (seqZ 0 (Height w)))
             (seqZ 0 (Width w))
  else [].

(** A call, as opposed to output. *)
Definition call_of (e : event) : option event :=
  match e with
  | EvPrint _ => None
  | _ => Some e
  end.

Section OneRun.

Variable cfg : config.
Variables h expected : D.
Variable r : run.

Definition run_entry : weights * Z * Z :=
  (run_weights r, run_row r, run_col r).

(** The calls of the run, what it prints, how it ends and the state it
    leaves. *)
Definition run_trace : list event :=
  entry_trace h (run_weights r) (run_col r) (run_row r) (run_state r).

Definition run_output : list event :=
  entry_output cfg h expected (run_weights r) (run_col r) (run_row r)
               (run_state r).

Definition run_result : outcome unit :=
  entry_result cfg h expected (run_weights r) (run_col r) (run_row r)
               (run_state r).

Definition run_restored : model :=
  entry_restored h (run_weights r) (run_col r) (run_row r) (run_state r).

(** Whether the process owns the entry, so compares; the report of
    the entry; and whether the entry fails the test. *)
Definition run_owned : bool :=
  is_owner (run_weights r) (run_col r) (run_row r).

Definition run_report : entry_report D :=
  entry_report_of h (run_weights r) (run_col r) (run_row r) (run_state r).

Definition run_failed : bool :=
  entry_failed h expected (run_weights r) (run_col r) (run_row r)
               (run_state r).

End OneRun.

(** The runs of the loop over the entries [es] from the state [m]: the
    loop stops at the first run that throws. *)
Fixpoint entry_runs (cfg : config) (h expected : D)
    (es : list (weights * Z * Z)) (m : model) : list run :=
  match es with
  | [] => []
  | (w, row, col) :: es' =>
      let r := {| run_weights := w; run_row := row; run_col := col;
                  run_state := m |} in
      r :: match run_result cfg h expected r with
           | Returns _ => entry_runs cfg h expected es' (run_restored h r)
           | Throws _ => []
           end
  end.

(** Runs that follow one another from the state [m]: each starts in
    the state the one before it left. *)
Fixpoint consecutive (h : D) (m : model) (runs : list run) : Prop :=
  match runs with
  | [] => True
  | r :: runs' =>
      run_state r = m /\ consecutive h (run_restored h r) runs'
  end.

End Runs.

End CheckGradientsRuns.

(** * The callback when a collaborator can throw

    The callback has no [try] block and holds the perturbed entry in
    no object with a destructor: an exception of a collaborator leaves
    [do_check_gradients] at the call that threw.  Here the calls to the
    collaborators may throw, and the callback is the same code: the
    definitions are those of [CheckGradients], line for line, in a
    monad with one more way to end. *)

Module CheckGradientsExceptions.
Import Scalar CheckGradients CheckGradientsViews.

(** How a call ends: it returns, the error of the callback itself
    propagates ([LBANN_ERROR], line 204), or the exception of a
    collaborator does. *)
Inductive exit (A : Type) : Type :=
| Done (a : A)
| Mismatch (message : string)
| Raised (message : string).
Arguments Done {A} _.
Arguments Mismatch {A} _.
Arguments Raised {A} _.

(** Which calls throw: [thrown e m] is the message and the state left
    behind when the call that would be recorded as [e], made in state
    [m], throws instead of returning.  The calls are those that are
    recorded: reading the model and writing to [std::cout] are not
    modelled as throwing. *)
Class Exceptions (D execution_mode model Layer weights metric : Type)
  : Type := {
  thrown : event D execution_mode Layer weights metric -> model
           -> option (string * model)
}.

(** The collaborators that never throw. *)
Definition no_exceptions {D execution_mode model Layer weights metric : Type}
  : Exceptions D execution_mode model Layer weights metric :=
  {| thrown _ _ := None |}.

Section Callback.

Context {D : Type} {DS : Scalar D}.
Context {execution_mode : Type} `{Countable execution_mode}.
Context {model Layer weights metric : Type}.
Context {C : Collaborators D execution_mode model Layer weights metric}.
Context {E : Exceptions D execution_mode model Layer weights metric}.

Local Abbreviation event := (event D execution_mode Layer weights metric).
Local Abbreviation config := (check_gradients D execution_mode).

(** The monad: as [M], with the third way to end.  After the error of
    the callback or an exception nothing more runs. *)
Definition T (A : Type) : Type := model -> exit A * model * list event.

Definition ret {A : Type} (a : A) : T A := fun m => (Done a, m, []).

Definition bind {A B : Type} (x : T A) (f : A -> T B) : T B :=
  fun m =>
    match x m with
    | (Done a, m1, t1) =>
        match f a m1 with
        | (o, m2, t2) => (o, m2, t1 ++ t2)
        end
    | (Mismatch e, m1, t1) => (Mismatch e, m1, t1)
    | (Raised e, m1, t1) => (Raised e, m1, t1)
    end.

#[export] Instance T_ret : MRet T := @ret.
#[export] Instance T_bind : MBind T := fun A B f x => bind x f.

Definition gets {A : Type} (f : model -> A) : T A :=
  fun m => (Done (f m), m, []).

(** A call that mutates the state, or throws. *)
Definition call (f : model -> model) (e : event) : T unit :=
  fun m =>
    match thrown e m with
    | Some (message, m') => (Raised message, m', [])
    | None => (Done tt, f m, [e])
    end.

Definition print (line : output D) : T unit :=
  fun m => (Done tt, m, [EvPrint line]).

(** [LBANN_ERROR]. *)
Definition throw {A : Type} (message : string) : T A :=
  fun m => (Mismatch message, m, []).

Fixpoint for_each {A : Type} (xs : list A) (body : A -> T unit) : T unit :=
  match xs with
  | [] => ret tt
  | x :: xs' => body x ;; for_each xs' body
  end.

Definition when (b : bool) (c : T unit) : T unit := if b then c else ret tt.

(** How a run ends, the state it leaves and its trace. *)
Definition exit_of {A : Type} (r : exit A * model * list event) : exit A :=
  r.1.1.
Definition state_of {A : Type} (r : exit A * model * list event) : model :=
  r.1.2.
Definition trace_of {A : Type} (r : exit A * model * list event)
  : list event := r.2.

Definition call_finish_evaluation (mode : execution_mode) (mini_batch_size : Z)
  : T D :=
  fun m =>
    let vm := finish_evaluation mode mini_batch_size m in
    match thrown (EvFinishEvaluation mode mini_batch_size vm.1) m with
    | Some (message, m') => (Raised message, m', [])
    | None => (Done vm.1, vm.2, [EvFinishEvaluation mode mini_batch_size vm.1])
    end.

(** [compute_objective_function] (lines 48-64). *)
Definition compute_objective_function : T D :=
  layers ← gets get_layers;
  for_each layers (fun l =>
    when (negb (is_input_layer l)) (call (forward_prop l) (EvForwardProp l))) ;;
  mode ← gets get_execution_mode;
  mini_batch_size ← gets get_current_mini_batch_size;
  call (start_evaluation mode mini_batch_size)
       (EvStartEvaluation mode mini_batch_size) ;;
  call_finish_evaluation mode mini_batch_size.

Section Entry.

Variable cfg : config.
Variables step_size expected_error : D.
Variable w : weights.
Variables col row : Z.

Definition set_entry (v : D) : T unit :=
  call (set_value w v row col) (EvSetValue w v row col).

(** Lines 171-179. *)
Definition perturb_entry : T (D * (D * D * D * D)) :=
  w0 ← gets (initial_weight w col row);
  set_entry (w0 + s_int 2 * step_size)%S ;;
  f_2h ← compute_objective_function;
  set_entry (w0 + step_size)%S ;;
  f_h ← compute_objective_function;
  set_entry (w0 - step_size)%S ;;
  f_nh ← compute_objective_function;
  set_entry (w0 - s_int 2 * step_size)%S ;;
  f_n2h ← compute_objective_function;
  set_entry w0 ;;
  ret (w0, (f_2h, f_h, f_nh, f_n2h)).

(** Lines 183-209. *)
Definition compare_entry (x : D * (D * D * D * D)) : T unit :=
  let '(w0, (f_2h, f_h, f_nh, f_n2h)) := x in
  if is_owner w col row then
    analytical_gradient ←
      gets (fun m => gradient_GetLocal m w (local_row w col row)
                                       (local_col w col row));
    let numerical := numerical_gradient f_2h f_h f_nh f_n2h step_size in
    let error := gradient_error analytical_gradient numerical in
    if gradient_check_failed error expected_error then
      print (OutGradientError
               (report_of w col row w0 analytical_gradient numerical)) ;;
      if m_error_on_failure cfg
      then throw ("gradient checking found large difference between "
                  ++ "analytical and numerical gradients")
      else ret tt
    else
      when (m_verbose cfg)
           (print (OutEntry
                     (report_of w col row w0 analytical_gradient numerical)))
  else ret tt.

Definition check_entry : T unit :=
  x ← perturb_entry; compare_entry x.

End Entry.

Definition check_weights (cfg : config) (step_size expected_error : D)
    (w : weights) : T unit :=
  if negb (has_optimizer w) then ret tt
  else
    master ← gets am_world_master;
    when master (print (OutChecking (get_name w))) ;;
    for_each (seqZ 0 (Width w)) (fun col =>
      for_each (seqZ 0 (Height w)) (fun row =>
        check_entry cfg step_size expected_error w col row)).

Definition reset_statistics_and_gradients (mode : execution_mode) : T unit :=
  call (obj_reset_statistics mode) (EvObjResetStatistics mode) ;;
  metrics ← gets get_metrics;
  for_each metrics (fun met =>
    call (met_reset_statistics met mode) (EvMetResetStatistics met mode)) ;;
  ws ← gets get_weights;
  for_each ws (fun w =>
    when (has_optimizer w) (call (clear_gradient w) (EvClearGradient w))).

Definition load_data_in_input_layers : T unit :=
  layers ← gets get_layers;
  for_each layers (fun l =>
    when (is_input_layer l) (call (forward_prop l) (EvForwardProp l))).

Definition compute_gradients : T unit :=
  call differentiate EvDifferentiate ;;
  call compute_weight_regularization EvComputeWeightRegularization ;;
  layers ← gets get_layers;
  for_each (rev layers) (fun l => call (back_prop l) (EvBackProp l)).

Definition clean_up (mode : execution_mode) : T unit :=
  layers ← gets get_layers;
  for_each layers (fun l =>
    when (is_input_layer l)
         (call (set_initial_position l mode) (EvSetInitialPosition l mode))) ;;
  call (obj_reset_statistics mode) (EvObjResetStatistics mode) ;;
  metrics ← gets get_metrics;
  for_each metrics (fun met =>
    call (met_reset_statistics met mode) (EvMetResetStatistics met mode)).

End Callback.

Section Run.

Context {D : Type} {DS : Scalar D} {DM : ScalarMath D}.
Context {execution_mode : Type} `{Countable execution_mode}.
Context {model Layer weights metric : Type}.
Context {C : Collaborators D execution_mode model Layer weights metric}.
Context {E : Exceptions D execution_mode model Layer weights metric}.

Local Abbreviation config := (check_gradients D execution_mode).
Local Abbreviation T := (@T D execution_mode model Layer weights metric).
Local Abbreviation M := (@M D execution_mode model Layer weights metric).

Definition check_with_objective (cfg : config) (mode : execution_mode)
    (objective : D) : T unit :=
  let step_size := finite_difference_step cfg objective in
  let expected_error := expected_gradient_error objective step_size in
  compute_gradients ;;
  master ← gets am_world_master;
  when master (print (OutHeader objective step_size expected_error)) ;;
  ws ← gets get_weights;
  for_each ws (check_weights cfg step_size expected_error) ;;
  master ← gets am_world_master;
  when master (print OutRule) ;;
  clean_up mode.

Definition run_gradient_check (cfg : config) (mode : execution_mode) : T unit :=
  reset_statistics_and_gradients mode ;;
  load_data_in_input_layers ;;
  objective ← compute_objective_function;
  check_with_objective cfg mode objective.

(** [check_gradients::do_check_gradients] (lines 77-241). *)
Definition do_check_gradients (cfg : config) : T unit :=
  mode ← gets get_execution_mode;
  if check_not_needed cfg mode then ret tt
  else run_gradient_check cfg mode.

(** A run without exceptions, as a run of this monad. *)
Definition lift {A : Type}
    (r : outcome A * model
         * list (event D execution_mode Layer weights metric))
  : exit A * model * list (event D execution_mode Layer weights metric) :=
  (match r.1.1 with Returns a => Done a | Throws e => Mismatch e end,
   r.1.2, r.2).

(** [cT] follows [c]: a run of [cT] is the run of [c] from the same
    state, unless it ends in an exception of a collaborator; then some
    call threw, and what was done before is what [c] does before it
    makes this call. *)
Definition follows {A : Type} (c : M A) (cT : T A) : Prop :=
  forall m,
    cT m = lift (c m)
    \/ exists message e rest m' x,
         exit_of (cT m) = Raised message
         /\ trace (c m) = trace_of (cT m) ++ e :: rest
         /\ ~ is_print e
         /\ thrown e m' = Some x.

End Run.

End CheckGradientsExceptions.

(** * States and configurations for runs of the whole callback *)

Module CheckGradientsExamples.
Import Scalar CheckGradients Quadratic CheckGradientsExceptions.

(** IEEE binary64 with the functions of [<cmath>]: [std::sqrt] is
    correctly rounded, [std::pow] is not specified to the last bit and
    is a parameter, and the machine epsilon of [double] is [2^-52]. *)
Definition float_math (pow : float -> float -> float) : ScalarMath float := {|
  s_pow := pow;
  s_sqrt := PrimFloat.sqrt;
  s_epsilon := 0x1p-52%float
|}.

(** A configuration that lets the check run in validation only. *)
Definition validation_only : check_gradients R mode := {|
  m_modes := {[validation]};
  m_step_size := 1%R;
  m_verbose := true;
  m_error_on_failure := false
|}.

(** A configuration that throws at the first failing entry. *)
Definition strict_config : check_gradients float mode := {|
  m_modes := ∅;
  m_step_size := s_lit (1 # 1000);
  m_verbose := false;
  m_error_on_failure := true
|}.

(** A configuration without a step size: the step is chosen from the
    objective. *)
Definition automatic_step : check_gradients float mode := {|
  m_modes := ∅;
  m_step_size := 0%float;
  m_verbose := false;
  m_error_on_failure := false
|}.

(** Weights [(1, 2)], and an infinite weight without optimizer: the
    objective function is infinite. *)
Definition infinite_model : model float :=
  initial_model training 1%float 2%float PrimFloat.infinity.

(** A sum-of-squares layer whose forward prop throws when the first
    entry of the trained weights is greater than [limit]. *)
Definition guarded_layer (limit : float)
  : Exceptions float mode (model float) layer weights unit := {|
  thrown e m :=
    match e with
    | EvForwardProp sum_of_squares =>
        if PrimFloat.ltb limit (t_values m trained 0 0)
        then Some ("weight out of range"%string, m)
        else None
    | _ => None
    end
|}.

End CheckGradientsExamples.

(** * Properties of the data reader *)

Module DataReaderFacts.
Import DataReader.

Lemma to_int_small (z : Z) : - 2 ^ 31 <= z <= int_max -> to_int z = z.
Proof.
  unfold to_int, int_max. intros Hz.
  rewrite Z.mod_small by lia. lia.
Qed.

Lemma to_int_wraps : to_int (2 ^ 31) = - 2 ^ 31.
Proof. reflexivity. Qed.

(** C9, as the code has it: with a working set that the cast to [int]
    represents (at most [2^31 - 1] indices), [position_valid] holds
    exactly when [current_pos] is below the size of the working set;
    and in every state of the reader, whatever the size of its working
    set, [at_new_epoch] holds exactly when [current_mini_batch_idx] is
    0. *)
Theorem position_valid_at_new_epoch_spec (r : generic_data_reader) :
  (Z.of_nat (length (m_shuffled_indices r)) <= int_max ->
   (position_valid r = true
      <-> m_current_pos r < Z.of_nat (length (m_shuffled_indices r))))
  /\ (at_new_epoch r = true <-> m_current_mini_batch_idx r = 0).
Proof.
  unfold position_valid, at_new_epoch. split.
  - intros Hsize. rewrite to_int_small by (unfold int_max in *; lia).
    apply Z.ltb_lt.
  - apply Z.eqb_eq.
Qed.

Lemma position_valid_at_new_epoch_witness :
  Z.of_nat (length (m_shuffled_indices (reader_of_size 3))) <= int_max
  /\ (position_valid (reader_of_size 3) = true
        <-> m_current_pos (reader_of_size 3)
            < Z.of_nat (length (m_shuffled_indices (reader_of_size 3))))
  /\ (at_new_epoch (reader_of_size (Z.to_nat (2 ^ 31))) = true
        <-> m_current_mini_batch_idx (reader_of_size (Z.to_nat (2 ^ 31)))
            = 0).
Proof.
  assert (Hsize : Z.of_nat (length (m_shuffled_indices (reader_of_size 3)))
                  <= int_max) by (vm_compute; discriminate).
  split; [exact Hsize |]. split.
  - exact (proj1 (position_valid_at_new_epoch_spec (reader_of_size 3)) Hsize).
  - exact (proj2 (position_valid_at_new_epoch_spec
                    (reader_of_size (Z.to_nat (2 ^ 31))))).
Defined.

(** C9, as stated, fails: with [2^31] indices in the working set the
    cast [(int) m_shuffled_indices.size()] is negative, and
    [position_valid] is false at position 0 although 0 is below the
    size. *)
Lemma position_valid_wraps :
  let r := reader_of_size (Z.to_nat (2 ^ 31)) in
  position_valid r = false
  /\ m_current_pos r < Z.of_nat (length (m_shuffled_indices r)).
Proof.
  cbv zeta. unfold position_valid.
  change (m_current_pos (reader_of_size (Z.to_nat (2 ^ 31)))) with 0.
  change (m_shuffled_indices (reader_of_size (Z.to_nat (2 ^ 31))))
    with (replicate (Z.to_nat (2 ^ 31)) 0).
  rewrite length_replicate, Z2Nat.id by (apply Z.pow_nonneg; lia).
  split; [reflexivity | apply Z.pow_pos_nonneg; lia].
Qed.

(** C2 (against the model of [update] taken from the specification):
    the position advances by [batch_stride], or by
    [last_mini_batch_stride] once it has reached
    [last_mini_batch_threshold]; [update] returns [true] exactly when
    the advanced position is at or beyond the size of the working set,
    and then the mini-batch index is 0 and the indices are reshuffled if
    shuffling is configured ([m_first_n] unset); otherwise the reader
    is at the advanced position, on the same index sequence. *)
Theorem update_spec {rng : Type}
    (shuffle : rng -> list Z -> rng * list Z)
    (initial_position : generic_data_reader -> Z)
    (r : generic_data_reader) (g : rng) :
  let stride := if m_last_mini_batch_threshold r <=? m_current_pos r
                then m_last_mini_batch_stride r else m_batch_stride r in
  let pos := m_current_pos r + stride in
  let u := update shuffle initial_position r g in
  (u.1.1 = true <-> Z.of_nat (length (m_shuffled_indices r)) <= pos)
  /\ (u.1.1 = true ->
        m_current_mini_batch_idx u.1.2 = 0
        /\ m_shuffled_indices u.1.2
           = (if m_first_n r then m_shuffled_indices r
              else (shuffle g (m_shuffled_indices r)).2))
  /\ (u.1.1 = false ->
        m_current_pos u.1.2 = pos
        /\ m_shuffled_indices u.1.2 = m_shuffled_indices r).
Proof.
  cbv zeta. unfold update, next_stride.
  destruct (Z.leb_spec (Z.of_nat (length (m_shuffled_indices r)))
              (m_current_pos r
               + (if m_last_mini_batch_threshold r <=? m_current_pos r
                  then m_last_mini_batch_stride r else m_batch_stride r)))
    as [Hend | Hin]; cbn [fst snd].
  - split; [tauto |]. split; [| discriminate].
    intros _. split; [reflexivity |].
    destruct (m_first_n r); reflexivity.
  - split; [split; [discriminate | lia] |].
    split; [discriminate |]. intros _. split; reflexivity.
Qed.

(** The example of the specification: from position 0 ten updates
    reach position 100 without ending the epoch; the eleventh advances
    by 5 and ends it. *)
Lemma update_last_mini_batch_example :
  (updates 10 example_reader).1 = replicate 10 false
  /\ m_current_pos (updates 10 example_reader).2 = 100
  /\ at_new_epoch (updates 10 example_reader).2 = false
  /\ (updates 11 example_reader).1 = replicate 10 false ++ [true]
  /\ at_new_epoch (updates 11 example_reader).2 = true.
Proof. vm_compute. repeat split; reflexivity. Qed.

(** ** Checkpoints *)

Lemma read_vector_app (xs rest : list Z) :
  read_vector (Z.of_nat (length xs) :: xs ++ rest) = Some (xs, rest).
Proof.
  unfold read_vector.
  rewrite length_app, Nat2Z.id.
  replace ((0 <=? Z.of_nat (length xs))
           && (Z.of_nat (length xs)
               <=? Z.of_nat (length xs + length rest))) with true.
  - rewrite take_app_length, drop_app_length. reflexivity.
  - symmetry. apply andb_true_iff. split; apply Z.leb_le; lia.
Qed.

Lemma read_vector_exact (xs : list Z) :
  read_vector (Z.of_nat (length xs) :: xs) = Some (xs, []).
Proof.
  pose proof (read_vector_app xs []) as Hread.
  rewrite app_nil_r in Hread. exact Hread.
Qed.

Lemma deserialize_serialize (c : cursor) : deserialize (serialize c) = Some c.
Proof.
  destruct c. unfold serialize, cursor_words, deserialize.
  cbn [app c_shuffled_indices c_unused_indices c_current_pos c_batch_stride
       c_base_offset c_model_offset c_sample_stride
       c_last_mini_batch_threshold c_last_mini_batch_size
       c_last_mini_batch_stride c_current_mini_batch_idx
       c_num_mini_batches_per_reader c_num_iterations_per_epoch].
  rewrite read_vector_app. cbn [mbind option_bind].
  rewrite read_vector_exact. reflexivity.
Qed.

Lemma cursor_of_with_cursor (r : generic_data_reader) (c : cursor) :
  cursor_of (with_cursor r c) = c.
Proof. destruct c. reflexivity. Qed.

(** C7 (against the model of the checkpoint functions taken from the
    specification): saving a reader and loading the checkpoint into any
    other instance succeeds, reads the bytes that were written, and
    gives a reader with the same shuffled indices, unused indices and
    cursor fields. *)
Theorem checkpoint_round_trip
    (p : persist) (name : string) (r fresh : generic_data_reader) :
  let s := saveToCheckpointShared p name r in
  s.1.1 = true
  /\ exists r',
       loadFromCheckpointShared s.2 name fresh = inr (s.1.2, r')
       /\ m_shuffled_indices r' = m_shuffled_indices r
       /\ m_unused_indices r' = m_unused_indices r
       /\ cursor_of r' = cursor_of r.
Proof.
  cbv zeta. unfold saveToCheckpointShared, loadFromCheckpointShared.
  cbn [fst snd]. split; [reflexivity |].
  rewrite lookup_insert_eq, deserialize_serialize.
  exists (with_cursor fresh (cursor_of r)).
  split; [reflexivity |]. split; [reflexivity |]. split; [reflexivity |].
  apply cursor_of_with_cursor.
Qed.

(** A truncated blob is refused: the corrupt-state error. *)
Lemma load_truncated_checkpoint (fresh : generic_data_reader) :
  loadFromCheckpointShared
    (<[ "reader"%string := take 12 (serialize (cursor_of example_reader)) ]> ∅)
    "reader"%string fresh
  = inl CorruptStateError.
Proof. reflexivity. Qed.

End DataReaderFacts.

(** * Properties of the gradient check *)

Module CheckGradientsFacts.
Import Scalar CheckGradients CheckGradientsViews.

Section Facts.

Context {D : Type} {DS : Scalar D}.
Context {execution_mode : Type} `{Countable execution_mode}.
Context {model Layer weights metric : Type}.
Context {C : Collaborators D execution_mode model Layer weights metric}.

Local Abbreviation event := (event D execution_mode Layer weights metric).
Local Abbreviation config := (check_gradients D execution_mode).
Local Abbreviation M := (@M D execution_mode model Layer weights metric).

(** ** Reasoning about computations *)

Lemma bind_run {A B : Type} (x : M A) (f : A -> M B) (m : model) :
  (x ≫= f) m =
  match x m with
  | (Returns a, m1, t1) =>
      ((f a m1).1.1, (f a m1).1.2, t1 ++ (f a m1).2)
  | (Throws e, m1, t1) => (Throws e, m1, t1)
  end.
Proof.
  unfold mbind, M_bind, bind.
  destruct (x m) as [[[a | e] m1] t1]; [| reflexivity].
  destruct (f a m1) as [[o m2] t2]. reflexivity.
Qed.

Lemma bind_trace_prefix {A B : Type} (x : M A) (f : A -> M B) (m : model) :
  exists t, trace ((x ≫= f) m) = trace (x m) ++ t.
Proof.
  rewrite bind_run. unfold trace.
  destruct (x m) as [[[a | e] m1] t1]; cbn [snd].
  - eexists. reflexivity.
  - exists []. symmetry. apply app_nil_r.
Qed.

Lemma bind_returns_run {A B : Type} (x : M A) (f : A -> M B) (m : model)
    (a : A) (m1 : model) (t1 : list event) :
  x m = (Returns a, m1, t1) ->
  (x ≫= f) m = ((f a m1).1.1, (f a m1).1.2, t1 ++ (f a m1).2).
Proof. intros Hx. rewrite bind_run, Hx. reflexivity. Qed.

Lemma bind_throws_run {A B : Type} (x : M A) (f : A -> M B) (m : model)
    (e : string) (m1 : model) (t1 : list event) :
  x m = (Throws e, m1, t1) -> (x ≫= f) m = (Throws e, m1, t1).
Proof. intros Hx. rewrite bind_run, Hx. reflexivity. Qed.

Lemma returns_ret {A : Type} (a : A) : returns (ret a : M A).
Proof. intros m. exists a. reflexivity. Qed.

Lemma returns_gets {A : Type} (f : model -> A) : returns (gets f : M A).
Proof. intros m. exists (f m). reflexivity. Qed.

Lemma returns_call (f : model -> model) (e : event) : returns (call f e).
Proof. intros m. exists tt. reflexivity. Qed.

Lemma returns_print (line : output D) : returns (print line : M unit).
Proof. intros m. exists tt. reflexivity. Qed.

Lemma returns_bind {A B : Type} (x : M A) (f : A -> M B) :
  returns x -> (forall a, returns (f a)) -> returns (x ≫= f).
Proof.
  intros Hx Hf m. destruct (Hx m) as [a Ha].
  destruct (x m) as [[o m1] t1] eqn:Ex. cbn in Ha. subst o.
  rewrite (bind_returns_run _ _ _ _ _ _ Ex).
  destruct (Hf a m1) as [b Hb]. exists b. exact Hb.
Qed.

Lemma returns_when (b : bool) (c : M unit) : returns c -> returns (when b c).
Proof. destruct b; [trivial | intros _; apply returns_ret]. Qed.

Lemma returns_for_each {A : Type} (xs : list A) (body : A -> M unit) :
  (forall x, returns (body x)) -> returns (for_each xs body).
Proof.
  intros Hbody. induction xs as [| x xs IH]; cbn [for_each].
  - apply returns_ret.
  - apply returns_bind; [apply Hbody | intros _; exact IH].
Qed.

Section Tame.

(** [R] is a preorder, and [Q] holds of the empty trace and of the
    concatenation of two traces it holds of. *)
Variable R : relation model.
Context {R_preorder : PreOrder R}.
Variable Q : list event -> Prop.
Hypothesis Q_nil : Q [].
Hypothesis Q_app : forall t1 t2, Q t1 -> Q t2 -> Q (t1 ++ t2).

Lemma tame_ret {A : Type} (a : A) : tame R Q (ret a : M A).
Proof. intros m. split; [reflexivity | exact Q_nil]. Qed.

Lemma tame_gets {A : Type} (f : model -> A) : tame R Q (gets f : M A).
Proof. intros m. split; [reflexivity | exact Q_nil]. Qed.

Lemma tame_throw {A : Type} (e : string) : tame R Q (throw e : M A).
Proof. intros m. split; [reflexivity | exact Q_nil]. Qed.

Lemma tame_call (f : model -> model) (e : event) :
  (forall m, R m (f m)) -> Q [e] -> tame R Q (call f e).
Proof. intros Hf He m. split; [apply Hf | exact He]. Qed.

Lemma tame_print (line : output D) :
  Q [EvPrint line] -> tame R Q (print line : M unit).
Proof. intros He m. split; [reflexivity | exact He]. Qed.

Lemma tame_bind {A B : Type} (x : M A) (f : A -> M B) :
  tame R Q x -> (forall a, tame R Q (f a)) -> tame R Q (x ≫= f).
Proof.
  intros Hx Hf m. destruct (Hx m) as [HR HQ].
  rewrite bind_run.
  destruct (x m) as [[[a | e] m1] t1]; cbn in HR, HQ; [| split; assumption].
  destruct (Hf a m1) as [HR' HQ']. split.
  - cbn. etransitivity; eassumption.
  - cbn. apply Q_app; assumption.
Qed.

Lemma tame_when (b : bool) (c : M unit) : tame R Q c -> tame R Q (when b c).
Proof. destruct b; [trivial | intros _; apply tame_ret]. Qed.

Lemma tame_for_each {A : Type} (xs : list A) (body : A -> M unit) :
  (forall x, tame R Q (body x)) -> tame R Q (for_each xs body).
Proof.
  intros Hbody. induction xs as [| x xs IH]; cbn [for_each].
  - apply tame_ret.
  - apply tame_bind; [apply Hbody | intros _; exact IH].
Qed.

End Tame.

Lemma omap_none {A B : Type} (f : A -> option B) (l : list A) :
  Forall (fun a => f a = None) l -> omap f l = [].
Proof.
  induction 1 as [| a l Ha _ IH]; [reflexivity |].
  cbn. rewrite Ha. exact IH.
Qed.

(** ** The evaluation of the objective function *)

Lemma returns_call_finish_evaluation (mode : execution_mode) (mbs : Z) :
  returns (call_finish_evaluation mode mbs).
Proof. intros m. eexists. reflexivity. Qed.

Lemma compute_objective_function_returns : returns compute_objective_function.
Proof.
  unfold compute_objective_function.
  apply returns_bind; [apply returns_gets | intros layers].
  apply returns_bind.
  { apply returns_for_each. intros l. apply returns_when, returns_call. }
  intros _. apply returns_bind; [apply returns_gets | intros mode].
  apply returns_bind; [apply returns_gets | intros mbs].
  apply returns_bind; [apply returns_call | intros _].
  apply returns_call_finish_evaluation.
Qed.

Lemma compute_objective_function_run (m : model) :
  compute_objective_function m
  = (Returns (objective_value m), after_objective m, objective_trace m).
Proof.
  unfold objective_value, after_objective, objective_trace,
    final_state, trace.
  destruct (compute_objective_function_returns m) as [v Hv].
  rewrite Hv. unfold result in Hv.
  destruct (compute_objective_function m) as [[o m'] t].
  cbn in *. subst o. reflexivity.
Qed.

(** Its calls are forward props on layers that are not input layers,
    then the start and the end of one evaluation, whose value it
    returns. *)
Lemma objective_trace_shape (m : model) :
  exists (ls : list Layer) (mode : execution_mode) (mbs : Z),
    Forall (fun l => is_input_layer l = false) ls
    /\ objective_trace m
       = map EvForwardProp ls
         ++ [EvStartEvaluation mode mbs;
             EvFinishEvaluation mode mbs (objective_value m)].
Proof.
  assert (Hloop : forall (layers : list Layer) (m0 : model),
    exists ls m1,
      Forall (fun l => is_input_layer l = false) ls
      /\ (for_each layers (fun l =>
            when (negb (is_input_layer l))
                 (call (forward_prop l) (EvForwardProp l))) : M unit) m0
         = (Returns tt, m1, map EvForwardProp ls)).
  { induction layers as [| l layers IH]; intros m0.
    - exists [], m0. split; [constructor | reflexivity].
    - cbn [for_each]. rewrite bind_run.
      destruct (is_input_layer l) eqn:El; cbn [negb when].
      + cbn [ret]. destruct (IH m0) as (ls & m1 & Hls & Hrun).
        exists ls, m1. split; [exact Hls |]. rewrite Hrun. reflexivity.
      + cbn [call]. destruct (IH (forward_prop l m0)) as (ls & m1 & Hls & Hrun).
        exists (l :: ls), m1. split; [constructor; assumption |].
        rewrite Hrun. reflexivity. }
  unfold objective_trace, objective_value, result, trace.
  unfold compute_objective_function.
  rewrite bind_run. cbn [gets].
  destruct (Hloop (get_layers m) m) as (ls & m1 & Hls & Hrun).
  rewrite bind_run, Hrun.
  exists ls, (get_execution_mode m1), (get_current_mini_batch_size m1).
  split; [exact Hls |].
  unfold mbind, M_bind, bind, gets, call, call_finish_evaluation. cbn.
  reflexivity.
Qed.

Lemma objective_perturbation (m : model) :
  omap perturbation (objective_trace m) = [Evaluate (objective_value m)].
Proof.
  destruct (objective_trace_shape m) as (ls & mode & mbs & _ & ->).
  rewrite omap_app. rewrite (omap_none _ (map EvForwardProp ls)).
  - reflexivity.
  - apply Forall_map. apply Forall_true. reflexivity.
Qed.

Lemma objective_written_entry (m : model) :
  omap written_entry (objective_trace m) = [].
Proof.
  destruct (objective_trace_shape m) as (ls & mode & mbs & _ & ->).
  apply omap_none. apply Forall_app. split.
  - apply Forall_map. apply Forall_true. reflexivity.
  - repeat constructor.
Qed.

(** ** One entry *)

Section EntryFacts.

Variable cfg : config.
Variables h expected : D.
Variable w : weights.
Variables col row : Z.

Local Abbreviation perturbed := (CheckGradientsViews.perturbed w col row).
Local Abbreviation evaluated_at := (CheckGradientsViews.evaluated_at w col row).
Local Abbreviation before_h := (CheckGradientsViews.before_h h w col row).
Local Abbreviation before_nh := (CheckGradientsViews.before_nh h w col row).
Local Abbreviation before_n2h := (CheckGradientsViews.before_n2h h w col row).
Local Abbreviation f_2h := (CheckGradientsViews.f_2h h w col row).
Local Abbreviation f_h := (CheckGradientsViews.f_h h w col row).
Local Abbreviation f_nh := (CheckGradientsViews.f_nh h w col row).
Local Abbreviation f_n2h := (CheckGradientsViews.f_n2h h w col row).
Local Abbreviation entry_restored := (CheckGradientsViews.entry_restored h w col row).
Local Abbreviation entry_trace := (CheckGradientsViews.entry_trace h w col row).
Local Abbreviation entry_values := (CheckGradientsViews.entry_values h w col row).
Local Abbreviation analytical_of := (CheckGradientsViews.analytical_of h w col row).
Local Abbreviation numerical_of := (CheckGradientsViews.numerical_of h w col row).
Local Abbreviation entry_failed := (CheckGradientsViews.entry_failed h expected w col row).
Local Abbreviation entry_report_of := (CheckGradientsViews.entry_report_of h w col row).
Local Abbreviation entry_output := (CheckGradientsViews.entry_output cfg h expected w col row).
Local Abbreviation entry_result := (CheckGradientsViews.entry_result cfg h expected w col row).

Lemma perturb_entry_run (m : model) :
  perturb_entry h w col row m
  = (Returns (entry_values m), entry_restored m, entry_trace m).
Proof.
  unfold entry_values, entry_restored, entry_trace, f_2h, f_h, f_nh, f_n2h,
    before_n2h, before_nh, before_h, before_2h.
  unfold perturbed, evaluated_at, perturb_entry, set_entry.
  unfold mbind, M_bind, bind, gets, call, ret.
  repeat (rewrite compute_objective_function_run; cbn iota beta).
  cbn [app]. reflexivity.
Qed.

Lemma entry_trace_omap {B : Type} (f : event -> option B) (m : model) :
  (forall m', omap f (objective_trace m') = []) ->
  (forall v, f (EvSetValue w v row col) = None) ->
  omap f (entry_trace m) = [].
Proof.
  intros Hobj Hset. unfold entry_trace. cbv zeta.
  rewrite !omap_app, !Hobj. cbn. rewrite !Hset. reflexivity.
Qed.

(** The comparison reads the gradient and prints; it leaves the state
    as it is. *)
Lemma compare_entry_run (m : model) :
  compare_entry cfg h expected w col row (entry_values m) (entry_restored m)
  = if is_owner w col row then
      if entry_failed m then
        (if m_error_on_failure cfg
         then Throws ("gradient checking found large difference between "
                      ++ "analytical and numerical gradients")
         else Returns tt,
         entry_restored m, [EvPrint (OutGradientError (entry_report_of m))])
      else (Returns tt, entry_restored m,
            if m_verbose cfg then [EvPrint (OutEntry (entry_report_of m))]
            else [])
    else (Returns tt, entry_restored m, []).
Proof.
  unfold entry_failed, entry_report_of, numerical_of, analytical_of,
    entry_values, compare_entry.
  destruct (is_owner w col row); [| reflexivity].
  unfold mbind, M_bind, bind, gets. cbn iota beta.
  destruct (gradient_check_failed _ expected).
  - unfold print, throw, ret.
    destruct (m_error_on_failure cfg); reflexivity.
  - destruct (m_verbose cfg); reflexivity.
Qed.

Lemma check_entry_run (m : model) :
  check_entry cfg h expected w col row m
  = (entry_result m, entry_restored m, entry_trace m ++ entry_output m).
Proof.
  unfold check_entry. rewrite bind_run, perturb_entry_run, compare_entry_run.
  unfold entry_result, entry_output.
  destruct (is_owner w col row); cbn [andb fst snd]; [| reflexivity].
  destruct (entry_failed m); cbn [andb fst snd]; [| reflexivity].
  destruct (m_error_on_failure cfg); reflexivity.
Qed.

Lemma entry_output_prints (m : model) : Forall is_print (entry_output m).
Proof.
  unfold entry_output.
  repeat match goal with |- context [if ?b then _ else _] => destruct b end;
    repeat constructor.
Qed.

Lemma objective_printed_report (m : model) :
  omap printed_report (objective_trace m) = [].
Proof.
  destruct (objective_trace_shape m) as (ls & mode & mbs & _ & ->).
  apply omap_none. apply Forall_app. split.
  - apply Forall_map. apply Forall_true. reflexivity.
  - repeat constructor.
Qed.

Lemma check_entry_perturbation (m : model) :
  let w0 := initial_weight w col row m in
  omap perturbation (trace (check_entry cfg h expected w col row m))
  = [Write w row col (w0 + s_int 2 * h)%S; Evaluate (f_2h m);
     Write w row col (w0 + h)%S; Evaluate (f_h m);
     Write w row col (w0 - h)%S; Evaluate (f_nh m);
     Write w row col (w0 - s_int 2 * h)%S; Evaluate (f_n2h m);
     Write w row col w0].
Proof.
  cbv zeta. rewrite check_entry_run. unfold trace. cbn [snd].
  rewrite omap_app, (omap_none perturbation (entry_output m)).
  2:{ eapply Forall_impl; [apply entry_output_prints |].
      intros [] Hprint; try contradiction. reflexivity. }
  unfold entry_trace. cbv zeta.
  rewrite !omap_app, !objective_perturbation. reflexivity.
Qed.

Lemma check_entry_written (m : model) :
  omap written_entry (trace (check_entry cfg h expected w col row m))
  = replicate 5 (w, row, col).
Proof.
  rewrite check_entry_run. unfold trace. cbn [snd].
  rewrite omap_app, (omap_none written_entry (entry_output m)).
  2:{ eapply Forall_impl; [apply entry_output_prints |].
      intros [] Hprint; try contradiction. reflexivity. }
  unfold entry_trace. cbv zeta.
  rewrite !omap_app, !objective_written_entry. reflexivity.
Qed.

Lemma check_entry_reports (m : model) :
  omap printed_report (trace (check_entry cfg h expected w col row m))
  = if is_owner w col row && (entry_failed m || m_verbose cfg)
    then [entry_report_of m] else [].
Proof.
  rewrite check_entry_run. unfold trace. cbn [snd].
  rewrite omap_app, entry_trace_omap
    by (apply objective_printed_report || reflexivity).
  unfold entry_output.
  destruct (is_owner w col row); cbn [andb]; [| reflexivity].
  destruct (entry_failed m); cbn [orb]; [reflexivity |].
  destruct (m_verbose cfg); reflexivity.
Qed.

Lemma check_entry_reports_arithmetic (m : model) :
  Forall (fun rep =>
            r_error rep
            = gradient_error (r_analytical_gradient rep)
                             (r_numerical_gradient rep)
            /\ r_relative_error rep
               = relative_error (r_analytical_gradient rep)
                                (r_numerical_gradient rep))
         (omap printed_report
               (trace (check_entry cfg h expected w col row m))).
Proof.
  rewrite check_entry_reports.
  destruct (is_owner w col row && _); repeat constructor.
Qed.

End EntryFacts.

(** ** The loops *)

Lemma outcome_unit (o : outcome unit) :
  (exists e, o = Throws e) \/ o = Returns tt.
Proof. destruct o as [[] | e]; [right | left; exists e]; reflexivity. Qed.

Lemma for_each_cons_run {A : Type} (x : A) (xs : list A) (body : A -> M unit)
    (m : model) :
  for_each (x :: xs) body m
  = match result (body x m) with
    | Returns _ =>
        (result (for_each xs body (final_state (body x m))),
         final_state (for_each xs body (final_state (body x m))),
         trace (body x m) ++ trace (for_each xs body (final_state (body x m))))
    | Throws e => (Throws e, final_state (body x m), trace (body x m))
    end.
Proof.
  cbn [for_each]. rewrite bind_run. unfold result, final_state, trace.
  destruct (body x m) as [[[a | e] m1] t1]; reflexivity.
Qed.

Lemma for_each_omap {A B : Type} (f : event -> option B) (g : A -> list B)
    (xs : list A) (body : A -> M unit) :
  (forall x m, result (body x m) = Returns tt ->
               omap f (trace (body x m)) = g x) ->
  forall m, result (for_each xs body m) = Returns tt ->
            omap f (trace (for_each xs body m)) = flat_map g xs.
Proof.
  intros Hbody. induction xs as [| x xs IH]; intros m Hres; [reflexivity |].
  rewrite for_each_cons_run in Hres |- *.
  destruct (outcome_unit (result (body x m))) as [[e He] | Hx].
  - rewrite He in Hres. discriminate Hres.
  - rewrite Hx in Hres |- *. unfold result, trace in Hres |- *.
    cbn [fst snd] in Hres |- *.
    rewrite omap_app. cbn [flat_map]. f_equal.
    + apply Hbody. exact Hx.
    + apply IH. exact Hres.
Qed.

Lemma check_weights_written (cfg : config) (h expected : D) (w : weights)
    (m : model) :
  result (check_weights cfg h expected w m) = Returns tt ->
  omap written_entry (trace (check_weights cfg h expected w m))
  = entries_written w.
Proof.
  unfold check_weights, entries_written.
  destruct (has_optimizer w); cbn [negb]; [| reflexivity].
  rewrite bind_run. cbn [gets]. rewrite bind_run.
  assert (Hwhen : exists t,
            when (am_world_master m) (print (OutChecking (get_name w)) : M unit) m
            = (Returns tt, m, t) /\ omap written_entry t = []).
  { destruct (am_world_master m); eexists; split; reflexivity. }
  destruct Hwhen as (t & -> & Ht).
  unfold result, trace. cbn [fst snd app]. intros Hres.
  rewrite omap_app, Ht. cbn [app].
  apply (for_each_omap written_entry
           (fun col => flat_map (fun row => replicate 5 (w, row, col))
                                (seqZ 0 (Height w)))); [| exact Hres].
  intros col m1 Hcol.
  apply (for_each_omap written_entry (fun row => replicate 5 (w, row, col)));
    [| exact Hcol].
  intros row m2 _. apply check_entry_written.
Qed.

(** ** The stages around the loop over the weights *)

Section Stages.

Variable R : relation model.
Context {R_preorder : PreOrder R} {R_respected : Respects R}.
Variable Q : list event -> Prop.
Hypothesis Q_nil : Q [].
Hypothesis Q_app : forall t1 t2, Q t1 -> Q t2 -> Q (t1 ++ t2).
Hypothesis Q_plain : forall e, plain_call e -> Q [e].

Lemma tame_reset_statistics_and_gradients (mode : execution_mode) :
  tame R Q (reset_statistics_and_gradients mode).
Proof.
  unfold reset_statistics_and_gradients.
  apply tame_bind; trivial.
  { apply tame_call; [apply respects_obj_reset_statistics | now apply Q_plain]. }
  intros _. apply tame_bind; trivial; [now apply tame_gets | intros metrics].
  apply tame_bind; trivial.
  { apply tame_for_each; trivial. intros met.
    apply tame_call; [apply respects_met_reset_statistics | now apply Q_plain]. }
  intros _. apply tame_bind; trivial; [now apply tame_gets | intros ws].
  apply tame_for_each; trivial. intros w. apply tame_when; trivial.
  apply tame_call; [apply respects_clear_gradient | now apply Q_plain].
Qed.

Lemma tame_load_data_in_input_layers : tame R Q load_data_in_input_layers.
Proof.
  unfold load_data_in_input_layers.
  apply tame_bind; trivial; [now apply tame_gets | intros layers].
  apply tame_for_each; trivial. intros l. apply tame_when; trivial.
  apply tame_call; [apply respects_forward_prop | now apply Q_plain].
Qed.

Lemma tame_compute_gradients : tame R Q compute_gradients.
Proof.
  unfold compute_gradients.
  apply tame_bind; trivial.
  { apply tame_call; [apply respects_differentiate | now apply Q_plain]. }
  intros _. apply tame_bind; trivial.
  { apply tame_call;
      [apply respects_compute_weight_regularization | now apply Q_plain]. }
  intros _. apply tame_bind; trivial; [now apply tame_gets | intros layers].
  apply tame_for_each; trivial. intros l.
  apply tame_call; [apply respects_back_prop | now apply Q_plain].
Qed.

Lemma tame_clean_up (mode : execution_mode) : tame R Q (clean_up mode).
Proof.
  unfold clean_up.
  apply tame_bind; trivial; [now apply tame_gets | intros layers].
  apply tame_bind; trivial.
  { apply tame_for_each; trivial. intros l. apply tame_when; trivial.
    apply tame_call;
      [apply respects_set_initial_position | now apply Q_plain]. }
  intros _. apply tame_bind; trivial.
  { apply tame_call; [apply respects_obj_reset_statistics | now apply Q_plain]. }
  intros _. apply tame_bind; trivial; [now apply tame_gets | intros metrics].
  apply tame_for_each; trivial. intros met.
  apply tame_call; [apply respects_met_reset_statistics | now apply Q_plain].
Qed.

Lemma tame_compute_objective_function :
  (forall mode mbs v, Q [EvFinishEvaluation mode mbs v]) ->
  tame R Q compute_objective_function.
Proof.
  intros Q_finish. unfold compute_objective_function.
  apply tame_bind; trivial; [now apply tame_gets | intros layers].
  apply tame_bind; trivial.
  { apply tame_for_each; trivial. intros l. apply tame_when; trivial.
    apply tame_call; [apply respects_forward_prop | now apply Q_plain]. }
  intros _. apply tame_bind; trivial; [now apply tame_gets | intros mode].
  apply tame_bind; trivial; [now apply tame_gets | intros mbs].
  apply tame_bind; trivial.
  { apply tame_call; [apply respects_start_evaluation | now apply Q_plain]. }
  intros _ m. split; [apply respects_finish_evaluation | apply Q_finish].
Qed.

(** With the entries tame, so is the check of all weights, framed by
    the header and the rule. *)
Lemma tame_check_weights (cfg : config) (h expected : D) (w : weights) :
  (forall name, Q [EvPrint (OutChecking name)]) ->
  (forall col row, tame R Q (check_entry cfg h expected w col row)) ->
  tame R Q (check_weights cfg h expected w).
Proof.
  intros Q_print Hentry. unfold check_weights.
  destruct (has_optimizer w); cbn [negb]; [| now apply tame_ret].
  apply tame_bind; trivial; [now apply tame_gets | intros master].
  apply tame_bind; trivial.
  { apply tame_when; trivial. apply tame_print; trivial. }
  intros _. apply tame_for_each; trivial. intros col.
  apply tame_for_each; trivial.
Qed.

End Stages.

Lemma returns_reset_statistics_and_gradients (mode : execution_mode) :
  returns (reset_statistics_and_gradients mode).
Proof.
  unfold reset_statistics_and_gradients.
  apply returns_bind; [apply returns_call | intros _].
  apply returns_bind; [apply returns_gets | intros metrics].
  apply returns_bind; [| intros _].
  { apply returns_for_each. intros met. apply returns_call. }
  apply returns_bind; [apply returns_gets | intros ws].
  apply returns_for_each. intros w. apply returns_when, returns_call.
Qed.

Lemma reset_statistics_and_gradients_first (mode : execution_mode)
    (m : model) :
  exists t, trace (reset_statistics_and_gradients mode m)
            = EvObjResetStatistics mode :: t.
Proof.
  unfold reset_statistics_and_gradients. rewrite bind_run. cbn [call].
  unfold trace. cbn [snd app]. eexists. reflexivity.
Qed.

Lemma returns_load_data_in_input_layers : returns load_data_in_input_layers.
Proof.
  unfold load_data_in_input_layers.
  apply returns_bind; [apply returns_gets | intros layers].
  apply returns_for_each. intros l. apply returns_when, returns_call.
Qed.

Lemma returns_compute_gradients : returns compute_gradients.
Proof.
  unfold compute_gradients.
  apply returns_bind; [apply returns_call | intros _].
  apply returns_bind; [apply returns_call | intros _].
  apply returns_bind; [apply returns_gets | intros layers].
  apply returns_for_each. intros l. apply returns_call.
Qed.

Lemma returns_clean_up (mode : execution_mode) : returns (clean_up mode).
Proof.
  unfold clean_up.
  apply returns_bind; [apply returns_gets | intros layers].
  apply returns_bind; [| intros _].
  { apply returns_for_each. intros l. apply returns_when, returns_call. }
  apply returns_bind; [apply returns_call | intros _].
  apply returns_bind; [apply returns_gets | intros metrics].
  apply returns_for_each. intros met. apply returns_call.
Qed.

(** ** The values of the weights are restored *)

#[global] Instance same_values_preorder : PreOrder same_values.
Proof.
  split.
  - intros m w i j. reflexivity.
  - intros m1 m2 m3 H12 H23 w i j. rewrite H23. apply H12.
Qed.

Section Restored.

Context {laws : WeightValueLaws}.

Lemma after_objective_same_values (m : model) :
  same_values m (after_objective m).
Proof.
  apply (tame_compute_objective_function same_values (fun _ => True));
    trivial.
Qed.

Lemma entry_restored_same_values (h : D) (w : weights) (col row : Z)
    (m : model) :
  same_values m (entry_restored h w col row m).
Proof.
  intros w' i j.
  assert (Hstep : forall v m',
            values_GetLocal (perturbed w col row v m') w' i j
            = values_GetLocal m' w' i j
            \/ (IsLocal w row col = true /\ w' = w
                /\ i = LocalRow w row /\ j = LocalCol w col)).
  { intros v m'. unfold perturbed.
    rewrite (after_objective_same_values (set_value w v row col m')).
    apply set_value_elsewhere. }
  assert (Hcases :
            (IsLocal w row col = true /\ w' = w
             /\ i = LocalRow w row /\ j = LocalCol w col)
            \/ values_GetLocal (entry_restored h w col row m) w' i j
               = values_GetLocal m w' i j).
  { unfold entry_restored.
    destruct (set_value_elsewhere w (initial_weight w col row m) row col
                (perturbed w col row
                   (initial_weight w col row m - s_int 2 * h)%S
                   (before_n2h h w col row m)) w' i j)
      as [-> | Hhit]; [| left; exact Hhit].
    unfold before_n2h, before_nh, before_h, before_2h.
    repeat match goal with
      | |- _ \/ values_GetLocal (perturbed w col row ?v ?m') w' i j = _ =>
          destruct (Hstep v m') as [-> | Hhit]; [| left; exact Hhit]
      end.
    right. reflexivity. }
  destruct Hcases as [(Hlocal & -> & -> & ->) | Hkeep]; [| exact Hkeep].
  unfold entry_restored. rewrite set_value_local by exact Hlocal.
  unfold initial_weight, local_row, local_col, weight_is_local.
  rewrite Hlocal. reflexivity.
Qed.

End Restored.

Lemma tame_check_entry_values {laws : WeightValueLaws}
    (cfg : config) (h expected : D) (w : weights) (col row : Z) :
  tame same_values (fun _ => True) (check_entry cfg h expected w col row).
Proof.
  intros m. rewrite check_entry_run. split; [| exact I].
  apply entry_restored_same_values.
Qed.

(** ** What the trace of the check shows *)

#[global] Instance any_state_preorder : PreOrder (@any_state model).
Proof. split; intros ?; intros; exact I. Qed.

#[global] Instance any_state_respected : Respects (@any_state model).
Proof. split; intros; exact I. Qed.

Lemma stencil_blocks_nil (h : D) : stencil_blocks h ([] : list event).
Proof. exists []. split; [constructor | reflexivity]. Qed.

Lemma stencil_blocks_app (h : D) (t1 t2 : list event) :
  stencil_blocks h t1 -> stencil_blocks h t2 -> stencil_blocks h (t1 ++ t2).
Proof.
  intros (b1 & Hb1 & E1) (b2 & Hb2 & E2). exists (b1 ++ b2). split.
  - apply Forall_app. split; assumption.
  - rewrite omap_app, concat_app, E1, E2. reflexivity.
Qed.

Lemma stencil_blocks_silent (h : D) (e : event) :
  perturbation e = None -> stencil_blocks h [e].
Proof.
  intros He. exists []. split; [constructor |]. cbn. rewrite He. reflexivity.
Qed.

Lemma tame_check_entry_blocks (cfg : config) (h expected : D) (w : weights)
    (col row : Z) :
  tame any_state (stencil_blocks h) (check_entry cfg h expected w col row).
Proof.
  intros m. split; [exact I |].
  eexists [_]. split.
  - constructor; [| constructor].
    exists w, row, col, (initial_weight w col row m),
      (f_2h h w col row m), (f_h h w col row m),
      (f_nh h w col row m), (f_n2h h w col row m).
    reflexivity.
  - cbn [concat]. rewrite app_nil_r. apply check_entry_perturbation.
Qed.

Lemma objective_trace_no_output (P : event -> Prop) (m : model) :
  (forall e, plain_call e -> P e) ->
  (forall mode mbs v, P (EvFinishEvaluation mode mbs v)) ->
  Forall P (objective_trace m).
Proof.
  intros Hplain Hfinish.
  destruct (objective_trace_shape m) as (ls & mode & mbs & _ & ->).
  apply Forall_app. split.
  - apply Forall_map. apply Forall_true. intros l. now apply Hplain.
  - repeat constructor; [now apply Hplain | apply Hfinish].
Qed.

Lemma tame_check_entry_output (cfg : config) (f0 h expected : D)
    (w : weights) (col row : Z) :
  tame any_state (Forall (output_agrees f0 h expected))
       (check_entry cfg h expected w col row).
Proof.
  intros m. split; [exact I |]. rewrite check_entry_run.
  unfold trace. cbn [snd]. apply Forall_app. split.
  - unfold entry_trace. cbv zeta.
    repeat (apply Forall_app; split);
      try (repeat constructor; fail);
      apply objective_trace_no_output; intros; try exact I;
      match goal with e : event |- _ => destruct e; try contradiction; exact I end.
  - unfold entry_output.
    destruct (is_owner w col row); [| constructor].
    destruct (entry_failed h expected w col row m) eqn:Hfailed.
    + repeat constructor. exact Hfailed.
    + destruct (m_verbose cfg); repeat constructor. exact Hfailed.
Qed.

(** ** Throwing *)

Lemma abrupt_returns (P : event -> Prop) {A : Type} (c : M A) :
  returns c -> abrupt P c.
Proof.
  intros Hc m e He. destruct (Hc m) as [a Ha]. congruence.
Qed.

Lemma abrupt_bind (P : event -> Prop) {A B : Type} (x : M A) (f : A -> M B) :
  abrupt P x -> (forall a, abrupt P (f a)) -> abrupt P (x ≫= f).
Proof.
  intros Hx Hf m e. specialize (Hx m). rewrite bind_run.
  unfold result, trace in *.
  destruct (x m) as [[[a | e1] m1] t1]; cbn [fst snd] in *.
  - intros He. destruct (Hf a m1 e He) as (t & ev & Ht & Hev).
    unfold trace in Ht. rewrite Ht.
    exists (t1 ++ t), ev. split; [apply app_assoc | exact Hev].
  - intros He. exact (Hx e1 eq_refl).
Qed.

Lemma abrupt_for_each (P : event -> Prop) {A : Type} (xs : list A)
    (body : A -> M unit) :
  (forall x, abrupt P (body x)) -> abrupt P (for_each xs body).
Proof.
  intros Hbody. induction xs as [| x xs IH]; cbn [for_each].
  - apply abrupt_returns, returns_ret.
  - apply abrupt_bind; [apply Hbody | intros _; exact IH].
Qed.

Lemma abrupt_check_entry (cfg : config) (h expected : D) (w : weights)
    (col row : Z) :
  abrupt (failure_report expected) (check_entry cfg h expected w col row).
Proof.
  intros m e. rewrite check_entry_run. unfold result, trace. cbn [fst snd].
  unfold entry_result, entry_output.
  destruct (is_owner w col row); cbn [andb]; [| discriminate].
  destruct (entry_failed h expected w col row m) eqn:Hfailed;
    cbn [andb]; [| discriminate].
  intros _.
  exists (entry_trace h w col row m),
    (EvPrint (OutGradientError (entry_report_of h w col row m))).
  split; [reflexivity |]. eexists. split; [reflexivity | exact Hfailed].
Qed.

Lemma abrupt_check_weights (cfg : config) (h expected : D) (w : weights) :
  abrupt (failure_report expected) (check_weights cfg h expected w).
Proof.
  unfold check_weights. destruct (has_optimizer w); cbn [negb].
  - apply abrupt_bind; [apply abrupt_returns, returns_gets | intros master].
    apply abrupt_bind.
    { apply abrupt_returns, returns_when, returns_print. }
    intros _. apply abrupt_for_each. intros col.
    apply abrupt_for_each. intros row. apply abrupt_check_entry.
  - apply abrupt_returns, returns_ret.
Qed.

Lemma check_entry_throws (cfg : config) (h expected : D) (w : weights)
    (col row : Z) (m : model) (e : string) :
  result (check_entry cfg h expected w col row m) = Throws e ->
  m_error_on_failure cfg = true.
Proof.
  rewrite check_entry_run. unfold result. cbn [fst]. unfold entry_result.
  destruct (m_error_on_failure cfg); [reflexivity |].
  rewrite andb_false_r. discriminate.
Qed.

Lemma returns_check_entry (cfg : config) (h expected : D) (w : weights)
    (col row : Z) :
  m_error_on_failure cfg = false ->
  returns (check_entry cfg h expected w col row).
Proof.
  intros Hoff m. exists tt.
  destruct (outcome_unit (result (check_entry cfg h expected w col row m)))
    as [[e He] | Hret]; [| exact Hret].
  apply check_entry_throws in He. congruence.
Qed.

Lemma returns_check_weights (cfg : config) (h expected : D) (w : weights) :
  m_error_on_failure cfg = false ->
  returns (check_weights cfg h expected w).
Proof.
  intros Hoff. unfold check_weights. destruct (has_optimizer w); cbn [negb].
  - apply returns_bind; [apply returns_gets | intros master].
    apply returns_bind; [apply returns_when, returns_print | intros _].
    apply returns_for_each. intros col. apply returns_for_each. intros row.
    apply returns_check_entry. exact Hoff.
  - apply returns_ret.
Qed.

End Facts.

(** ** The whole callback *)

Section RunFacts.

Context {D : Type} {DS : Scalar D} {DM : ScalarMath D}.
Context {execution_mode : Type} `{Countable execution_mode}.
Context {model Layer weights metric : Type}.
Context {C : Collaborators D execution_mode model Layer weights metric}.

Local Abbreviation event := (event D execution_mode Layer weights metric).
Local Abbreviation config := (check_gradients D execution_mode).
Local Abbreviation M := (@M D execution_mode model Layer weights metric).

Lemma do_check_gradients_run (cfg : config) (m : model) :
  do_check_gradients cfg m
  = if check_not_needed cfg (get_execution_mode m)
    then (Returns tt, m, [])
    else run_gradient_check cfg (get_execution_mode m) m.
Proof.
  unfold do_check_gradients. rewrite bind_run. cbn [gets].
  destruct (check_not_needed cfg (get_execution_mode m)); [reflexivity |].
  destruct (run_gradient_check cfg (get_execution_mode m) m) as [[o m'] t].
  reflexivity.
Qed.

Lemma tame_check_with_objective (R : relation model) (Q : list event -> Prop)
    {R_preorder : PreOrder R} {R_respected : Respects R}
    (cfg : config) (mode : execution_mode) (f0 : D) :
  let h := finite_difference_step cfg f0 in
  let expected := expected_gradient_error f0 h in
  Q [] ->
  (forall t1 t2, Q t1 -> Q t2 -> Q (t1 ++ t2)) ->
  (forall e, plain_call e -> Q [e]) ->
  Q [EvPrint (OutHeader f0 h expected)] ->
  Q [EvPrint OutRule] ->
  (forall name, Q [EvPrint (OutChecking name)]) ->
  (forall w col row, tame R Q (check_entry cfg h expected w col row)) ->
  tame R Q (check_with_objective cfg mode f0).
Proof.
  cbv zeta. intros Q_nil Q_app Q_plain Q_header Q_rule Q_checking Hentry.
  unfold check_with_objective. cbv zeta.
  apply tame_bind; trivial; [now apply tame_compute_gradients | intros _].
  apply tame_bind; trivial; [now apply tame_gets | intros master].
  apply tame_bind; trivial.
  { apply tame_when; trivial. now apply tame_print. }
  intros _. apply tame_bind; trivial; [now apply tame_gets | intros ws].
  apply tame_bind; trivial.
  { apply tame_for_each; trivial. intros w.
    apply tame_check_weights; trivial. }
  intros _. apply tame_bind; trivial; [now apply tame_gets | intros master'].
  apply tame_bind; trivial.
  { apply tame_when; trivial. now apply tame_print. }
  intros _. now apply tame_clean_up.
Qed.

(** The trace of the gradient check: calls that neither write nor
    evaluate nor print, the evaluation of the objective function, and
    the trace of the check with the value this evaluation returned. *)
Lemma run_gradient_check_trace (cfg : config) (mode : execution_mode)
    (m : model) :
  exists (t_pre : list event) (m1 : model),
    Forall plain_call t_pre
    /\ run_gradient_check cfg mode m
       = (result (check_with_objective cfg mode (objective_value m1)
                                       (after_objective m1)),
          final_state (check_with_objective cfg mode (objective_value m1)
                                            (after_objective m1)),
          t_pre ++ objective_trace m1
          ++ trace (check_with_objective cfg mode (objective_value m1)
                                         (after_objective m1))).
Proof.
  assert (Hplain : forall e : event, plain_call e -> Forall plain_call [e])
    by (intros e He; repeat constructor; exact He).
  assert (Happ : forall t1 t2 : list event,
            Forall plain_call t1 -> Forall plain_call t2 ->
            Forall plain_call (t1 ++ t2))
    by (intros t1 t2 H1 H2; apply Forall_app; split; assumption).
  destruct (returns_reset_statistics_and_gradients mode m) as [[] Ha].
  destruct (tame_reset_statistics_and_gradients any_state (Forall plain_call)
              (List.Forall_nil _) Happ Hplain mode m) as [_ Hta].
  destruct (reset_statistics_and_gradients mode m) as [[oa ma] ta] eqn:Ea.
  unfold result, trace in Ha, Hta. cbn [fst snd] in Ha, Hta. subst oa.
  destruct (returns_load_data_in_input_layers ma) as [[] Hb].
  destruct (tame_load_data_in_input_layers any_state (Forall plain_call)
              (List.Forall_nil _) Happ Hplain ma) as [_ Htb].
  destruct (load_data_in_input_layers ma) as [[ob mb] tb] eqn:Eb.
  unfold result, trace in Hb, Htb. cbn [fst snd] in Hb, Htb. subst ob.
  exists (ta ++ tb), mb. split; [apply Happ; assumption |].
  unfold run_gradient_check.
  rewrite (bind_returns_run _ _ _ _ _ _ Ea).
  rewrite (bind_returns_run _ _ _ _ _ _ Eb).
  rewrite bind_run, compute_objective_function_run.
  unfold result, final_state, trace. cbn [fst snd].
  rewrite <- !app_assoc. reflexivity.
Qed.

Lemma returns_check_with_objective (cfg : config) (mode : execution_mode)
    (f0 : D) :
  m_error_on_failure cfg = false ->
  returns (check_with_objective cfg mode f0).
Proof.
  intros Hoff. unfold check_with_objective. cbv zeta.
  apply returns_bind; [apply returns_compute_gradients | intros _].
  apply returns_bind; [apply returns_gets | intros master].
  apply returns_bind; [apply returns_when, returns_print | intros _].
  apply returns_bind; [apply returns_gets | intros ws].
  apply returns_bind.
  { apply returns_for_each. intros w. apply returns_check_weights, Hoff. }
  intros _. apply returns_bind; [apply returns_gets | intros master'].
  apply returns_bind; [apply returns_when, returns_print | intros _].
  apply returns_clean_up.
Qed.

Lemma abrupt_check_with_objective (cfg : config) (mode : execution_mode)
    (f0 : D) :
  abrupt (failure_report
            (expected_gradient_error f0 (finite_difference_step cfg f0)))
         (check_with_objective cfg mode f0).
Proof.
  unfold check_with_objective. cbv zeta.
  apply abrupt_bind;
    [apply abrupt_returns, returns_compute_gradients | intros _].
  apply abrupt_bind; [apply abrupt_returns, returns_gets | intros master].
  apply abrupt_bind;
    [apply abrupt_returns, returns_when, returns_print | intros _].
  apply abrupt_bind; [apply abrupt_returns, returns_gets | intros ws].
  apply abrupt_bind.
  { apply abrupt_for_each. intros w. apply abrupt_check_weights. }
  intros _. apply abrupt_bind;
    [apply abrupt_returns, returns_gets | intros master'].
  apply abrupt_bind;
    [apply abrupt_returns, returns_when, returns_print | intros _].
  apply abrupt_returns, returns_clean_up.
Qed.

(** C10.  The check runs exactly when the set of execution modes is
    empty or holds the current mode of the model: then the callback is
    the gradient check, whose first call resets the statistics of the
    objective function; otherwise it returns at once, the state of the
    model is the one it was called in and no call was made and nothing
    printed. *)
Theorem mode_gate (cfg : config) (m : model) :
  let mode := get_execution_mode m in
  let r := do_check_gradients cfg m in
  ((m_modes cfg = ∅ \/ mode ∈ m_modes cfg) ->
     r = run_gradient_check cfg mode m
     /\ exists t, trace r = EvObjResetStatistics mode :: t)
  /\ (~ (m_modes cfg = ∅ \/ mode ∈ m_modes cfg) ->
       r = (Returns tt, m, [])).
Proof.
  cbv zeta. rewrite do_check_gradients_run. unfold check_not_needed.
  split.
  - intros Hneeded.
    assert (Hgate : negb (bool_decide (m_modes cfg = ∅))
                    && bool_decide (get_execution_mode m ∉ m_modes cfg)
                    = false).
    { destruct Hneeded as [Hempty | Hin].
      - rewrite (bool_decide_eq_true_2 _ Hempty). reflexivity.
      - rewrite (bool_decide_eq_false_2 (get_execution_mode m ∉ m_modes cfg))
          by (intros Hnot; exact (Hnot Hin)).
        apply andb_false_r. }
    rewrite Hgate.
    split; [reflexivity |].
    unfold run_gradient_check.
    destruct (bind_trace_prefix
                (reset_statistics_and_gradients (get_execution_mode m))
                (fun _ => load_data_in_input_layers ;;
                          objective ← compute_objective_function;
                          check_with_objective cfg (get_execution_mode m)
                                               objective) m)
      as [t ->].
    destruct (reset_statistics_and_gradients_first (get_execution_mode m) m)
      as [t' ->].
    eexists. reflexivity.
  - intros Hexcluded.
    rewrite (bool_decide_eq_false_2 (m_modes cfg = ∅))
      by (intros Hempty; apply Hexcluded; left; exact Hempty).
    rewrite (bool_decide_eq_true_2 (get_execution_mode m ∉ m_modes cfg))
      by (intros Hin; apply Hexcluded; right; exact Hin).
    reflexivity.
Qed.

Lemma plain_call_agrees (f0 h expected : D) (e : event) :
  plain_call e -> output_agrees f0 h expected e.
Proof. destruct e; try contradiction; intros _; exact I. Qed.

Lemma plain_call_silent (t : list event) :
  Forall plain_call t -> omap perturbation t = [].
Proof.
  intros Ht. apply omap_none. eapply Forall_impl; [exact Ht |].
  intros e He. destruct e; try contradiction; reflexivity.
Qed.

(** What a gradient check that runs shows: the objective function is
    evaluated once, to [f0]; after it the writes and evaluations are
    stencil blocks with the step chosen for [f0]; and everything
    printed agrees with [f0], this step and the expected error computed
    from them. *)
Lemma gradient_check_shows (cfg : config) (mode : execution_mode) (m : model) :
  exists (f0 : D) (blocks : list (list (perturbation_step D weights))),
    let h := finite_difference_step cfg f0 in
    let expected := expected_gradient_error f0 h in
    omap perturbation (trace (run_gradient_check cfg mode m))
    = Evaluate f0 :: concat blocks
    /\ Forall (stencil_block h) blocks
    /\ Forall (output_agrees f0 h expected)
              (trace (run_gradient_check cfg mode m)).
Proof.
  destruct (run_gradient_check_trace cfg mode m) as (t_pre & m1 & Hpre & ->).
  set (f0 := objective_value m1).
  set (h := finite_difference_step cfg f0).
  set (expected := expected_gradient_error f0 h).
  destruct (tame_check_with_objective any_state (stencil_blocks h) cfg mode f0
              (stencil_blocks_nil h) (stencil_blocks_app h)) with
    (m := after_objective m1) as [_ (blocks & Hblocks & Hview)].
  { intros e He. apply stencil_blocks_silent.
    destruct e; try contradiction; reflexivity. }
  { now apply stencil_blocks_silent. }
  { now apply stencil_blocks_silent. }
  { intros name. now apply stencil_blocks_silent. }
  { intros w col row. apply tame_check_entry_blocks. }
  destruct (tame_check_with_objective any_state
              (Forall (output_agrees f0 h expected)) cfg mode f0) with
    (m := after_objective m1) as [_ Hagrees].
  { constructor. }
  { intros t1 t2 H1 H2. apply Forall_app. split; assumption. }
  { intros e He. repeat constructor. now apply plain_call_agrees. }
  { repeat constructor. }
  { repeat constructor. }
  { intros name. repeat constructor. }
  { intros w col row. apply tame_check_entry_output. }
  exists f0, blocks. cbv zeta. fold h expected. unfold trace at 1 3.
  cbn [snd].
  split; [| split; [exact Hblocks |]].
  - rewrite !omap_app, plain_call_silent by exact Hpre.
    rewrite objective_perturbation, Hview. reflexivity.
  - apply Forall_app. split.
    + eapply Forall_impl; [exact Hpre |]. intros e. apply plain_call_agrees.
    + apply Forall_app. split; [| exact Hagrees].
      apply objective_trace_no_output.
      * intros e. apply plain_call_agrees.
      * intros; exact I.
Qed.

Lemma printed_header_agrees (f0 h expected : D) (t : list event) :
  Forall (output_agrees f0 h expected) t ->
  Forall (fun hd => hd = (f0, h, expected)) (omap printed_header t).
Proof.
  induction 1 as [| e t He _ IH]; [constructor |].
  destruct e as [| | | | | | | | | | | line]; try exact IH.
  destruct line as [f s x | | | |]; try exact IH.
  cbn. destruct He as (-> & -> & ->). constructor; [reflexivity | exact IH].
Qed.

(** C4.  A gradient check that runs evaluates the objective function
    once, to [f0], before it writes to any weight; every entry is then
    perturbed with one step [h], which is the configured step size if
    that is greater than zero and [|f0| * sqrt(eps^0.9)] otherwise,
    [eps] being the machine epsilon; and a header that is printed shows
    [f0] as the objective and [h] as the step. *)
Theorem finite_difference_step_choice (cfg : config) (m : model) :
  let r := do_check_gradients cfg m in
  exists (f0 : D) (blocks : list (list (perturbation_step D weights))),
    let h := if (m_step_size cfg >? s_int 0)%S
             then m_step_size cfg
             else (s_fabs f0 * s_sqrt (s_pow s_epsilon (s_lit (9 # 10))))%S in
    omap perturbation (trace r)
    = (if check_not_needed cfg (get_execution_mode m) then []
       else Evaluate f0 :: concat blocks)
    /\ Forall (stencil_block h) blocks
    /\ Forall (fun hd => hd.1.1 = f0 /\ hd.1.2 = h)
              (omap printed_header (trace r)).
Proof.
  cbv zeta. rewrite do_check_gradients_run.
  destruct (check_not_needed cfg (get_execution_mode m)).
  - exists (s_int 0), []. repeat split; constructor.
  - destruct (gradient_check_shows cfg (get_execution_mode m) m)
      as (f0 & blocks & Hview & Hblocks & Hagrees).
    exists f0, blocks. split; [exact Hview |]. split; [exact Hblocks |].
    eapply Forall_impl; [apply (printed_header_agrees _ _ _ _ Hagrees) |].
    intros hd ->. split; reflexivity.
Qed.

(** C3, as the code has it.  A gradient check that runs evaluates the
    objective function to [f0] and chooses the step [h]; the expected
    error is [((eps^0.9 * f0 / h) + h^4 / 18)^0.9], with the machine
    epsilon [eps] raised to the power 0.9: a header that is printed
    shows this value, an entry is reported as a gradient error only if
    its error fails the test against it, and reported otherwise only if
    its error passes. *)
Theorem expected_error_bound (cfg : config) (m : model) :
  let r := do_check_gradients cfg m in
  exists f0 h : D,
    let expected :=
      s_pow (s_pow s_epsilon (s_lit (9 # 10)) * f0 / h
             + s_pow h (s_int 4) / s_int 18)%S
            (s_lit (9 # 10)) in
    head (omap perturbation (trace r))
    = (if check_not_needed cfg (get_execution_mode m) then None
       else Some (Evaluate f0))
    /\ h = finite_difference_step cfg f0
    /\ Forall (output_agrees f0 h expected) (trace r).
Proof.
  cbv zeta. rewrite do_check_gradients_run.
  destruct (check_not_needed cfg (get_execution_mode m)).
  - exists (s_int 0), (finite_difference_step cfg (s_int 0)).
    repeat split; constructor.
  - destruct (gradient_check_shows cfg (get_execution_mode m) m)
      as (f0 & blocks & Hview & Hblocks & Hagrees).
    exists f0, (finite_difference_step cfg f0).
    rewrite Hview. split; [reflexivity |]. split; [reflexivity |].
    exact Hagrees.
Qed.

(** When no collaborator throws: if the collaborators treat the weight
    values as the specification says, the callback leaves the weight
    values as it found them, whether it returns or throws. *)
Lemma do_check_gradients_same_values {laws : WeightValueLaws} (cfg : config)
    (m : model) :
  same_values m (final_state (do_check_gradients cfg m)).
Proof.
  rewrite do_check_gradients_run.
  destruct (check_not_needed cfg (get_execution_mode m));
    [reflexivity |].
  assert (Hany : forall t1 t2 : list event, True -> True -> True)
    by (intros; exact I).
  unfold run_gradient_check.
  apply (tame_bind same_values (fun _ => True) Hany).
  { apply tame_reset_statistics_and_gradients;
      try (intros; exact I); typeclasses eauto. }
  intros _. apply (tame_bind same_values (fun _ => True) Hany).
  { apply tame_load_data_in_input_layers;
      try (intros; exact I); typeclasses eauto. }
  intros _. apply (tame_bind same_values (fun _ => True) Hany).
  { apply tame_compute_objective_function;
      try (intros; exact I); typeclasses eauto. }
  intros f0. apply tame_check_with_objective;
    try (intros; exact I); try typeclasses eauto.
  intros w col row. apply tame_check_entry_values.
Qed.

End RunFacts.

End CheckGradientsFacts.

(** * The example model obeys the laws, and runs *)

Module QuadraticFacts.
Import Scalar CheckGradients CheckGradientsViews CheckGradientsFacts Quadratic.

Section Laws.

Context {D : Type} {DS : Scalar D}.

#[global] Instance quadratic_respects_values :
  Respects (C := quadratic (D := D)) same_values.
Proof.
  split; intros; intros w' i j;
    repeat match goal with x : layer |- _ => destruct x end;
    reflexivity.
Qed.

#[global] Instance quadratic_laws : WeightValueLaws (C := quadratic (D := D)).
Proof.
  split.
  - exact quadratic_respects_values.
  - intros w v row col m Hlocal. cbn in Hlocal |- *. rewrite Hlocal. cbn.
    unfold update_entry. rewrite bool_decide_eq_true_2 by reflexivity.
    rewrite !Z.eqb_refl. reflexivity.
  - intros w v row col m w' i j. cbn.
    destruct (in_matrix w row col) eqn:Hin; [| left; reflexivity].
    cbn. unfold update_entry.
    destruct (bool_decide (w' = w)) eqn:Hw; cbn [andb]; [| left; reflexivity].
    destruct (Z.eqb_spec i row) as [-> | Hi]; cbn [andb]; [| left; reflexivity].
    destruct (Z.eqb_spec j col) as [-> | Hj]; [| left; reflexivity].
    right. apply bool_decide_eq_true_1 in Hw. repeat split; assumption.
Qed.

End Laws.

(** ** Runs in IEEE binary64 *)

(** With the analytical gradient [2 w], a step of [0.001] and an
    expected error of [1e-6] both entries pass: two reports, neither a
    gradient error, five writes to each entry of the weights with an
    optimizer and none to the other weights, and the values are back. *)
Lemma quadratic_check_passes :
  let r := check_all true checked_model in
  result r = Returns tt
  /\ map r_row (omap printed_report (trace r)) = [0; 1]%Z
  /\ omap printed_gradient_error (trace r) = []
  /\ omap written_entry (trace r)
     = replicate 5 (trained, 0, 0)%Z ++ replicate 5 (trained, 1, 0)%Z
  /\ map (fun rep => PrimFloat.ltb (r_error rep) (s_lit (1 # 1000000)))
         (omap printed_report (trace r)) = [true; true]
  /\ (t_values (final_state r) trained 0 0,
      t_values (final_state r) trained 1 0,
      t_values (final_state r) frozen 0 0) = (1, 2, 3)%float.
Proof. vm_compute. repeat split; reflexivity. Qed.

(** With the gradient flipped and [m_error_on_failure] set the first
    entry throws: only this entry was written to, it was restored, and
    the second entry was not checked. *)
Lemma corrupted_check_throws :
  let r := check_all true corrupted_model in
  result r = Throws ("gradient checking found large difference between "
                     ++ "analytical and numerical gradients")
  /\ map r_row (omap printed_gradient_error (trace r)) = [0]%Z
  /\ omap written_entry (trace r) = replicate 5 (trained, 0, 0)%Z
  /\ t_values (final_state r) trained 0 0 = 1%float.
Proof. vm_compute. repeat split; reflexivity. Qed.

(** Without [m_error_on_failure] both entries are checked and
    reported. *)
Lemma corrupted_check_continues :
  let r := check_all false corrupted_model in
  result r = Returns tt
  /\ map r_row (omap printed_gradient_error (trace r)) = [0; 1]%Z
  /\ omap written_entry (trace r)
     = replicate 5 (trained, 0, 0)%Z ++ replicate 5 (trained, 1, 0)%Z.
Proof. vm_compute. repeat split; reflexivity. Qed.

(** An infinite weight without optimizer makes the objective infinite
    and the numerical gradient NaN; for a weight of zero the analytical
    gradient is zero: the entry is reported with a relative error that
    is the quotient of NaN by zero. *)
Lemma nan_gradient_reported :
  let m := final_state
             (compute_gradients
                (forward_prop sum_of_squares
                   (initial_model training 0 0 PrimFloat.infinity)%float)) in
  let r := check_entry (verbose false) (s_lit (1 # 1000)) (s_lit (1 # 1000000))
                       trained 0 0 m in
  map (fun rep =>
         (PrimFloat.eqb (r_analytical_gradient rep) 0,
          PrimFloat.is_nan (r_numerical_gradient rep),
          PrimFloat.eqb (std_max (PrimFloat.abs (r_analytical_gradient rep))
                                 (PrimFloat.abs (r_numerical_gradient rep))) 0,
          PrimFloat.is_nan (r_relative_error rep)))
      (omap printed_gradient_error (trace r))
  = [(true, true, true, true)].
Proof. vm_compute. reflexivity. Qed.

End QuadraticFacts.

(** * The arithmetic of the comparison in IEEE binary64 and in the reals *)

Module ArithmeticFacts.
Import Scalar CheckGradients CheckGradientsViews CheckGradientsFacts.

(** ** The relative error *)

Lemma float_zero_spec : Prim2SF 0%float = S754_zero false.
Proof. reflexivity. Qed.

(** A nonzero error has a zero denominator exactly when the analytical
    gradient is zero and the numerical gradient is NaN. *)
Lemma float_zero_denominator (a n : float) :
  PrimFloat.eqb (PrimFloat.abs (a - n)) 0 = false ->
  (PrimFloat.eqb (std_max (PrimFloat.abs a) (PrimFloat.abs n)) 0 = true
   <-> PrimFloat.eqb a 0 = true /\ PrimFloat.is_nan n = true).
Proof.
  unfold PrimFloat.is_nan, std_max. cbn [s_ltb float_scalar].
  intros Herr.
  rewrite FloatAxioms.eqb_spec, abs_spec, sub_spec, float_zero_spec in Herr.
  rewrite ltb_spec, !abs_spec.
  rewrite (FloatAxioms.eqb_spec a), (FloatAxioms.eqb_spec n), float_zero_spec.
  destruct (SFltb (SFabs (Prim2SF a)) (SFabs (Prim2SF n))) eqn:Hlt;
    rewrite FloatAxioms.eqb_spec, abs_spec, float_zero_spec;
    destruct (Prim2SF a) as [sa | sa | | sa ma ea];
    destruct (Prim2SF n) as [sn | sn | | sn mn en];
    try (destruct sa); try (destruct sn);
    cbn in *; try discriminate;
    try (split; [discriminate | intros [? ?]; discriminate]);
    try (split; [intros _; split; reflexivity | reflexivity]).
  all: rewrite Z.compare_refl, Pos.compare_cont_refl; cbn;
    split; [discriminate | intros [? ?]; discriminate].
Qed.

(** C8, as stated, fails: with an analytical gradient of zero and a
    numerical gradient that is NaN the error is NaN, which differs from
    zero, so the quotient is computed, and [std::max(0, NaN)] is 0: the
    denominator is zero. *)
Lemma relative_error_zero_denominator :
  let a := 0%float in
  let n := PrimFloat.nan in
  (gradient_error a n !=? s_int 0)%S = true
  /\ (std_max (s_fabs a) (s_fabs n) =? s_int 0)%S = true
  /\ PrimFloat.is_nan (relative_error a n) = true.
Proof. vm_compute. repeat split; reflexivity. Qed.

(** ** The expected error *)

Local Open Scope R_scope.

Lemma R_pow_pos (x y : R) : 0 < x -> R_pow x y = Rpower x y.
Proof.
  intros Hx. unfold R_pow. destruct (Req_dec_T x 0); [lra | reflexivity].
Qed.

Lemma R_pow_one (y : R) : R_pow 1 y = 1.
Proof.
  rewrite R_pow_pos by lra. unfold Rpower.
  rewrite ln_1, Rmult_0_r. apply exp_0.
Qed.

Lemma Rpower_base_inj (x y e : R) :
  0 < x -> 0 < y -> e <> 0 -> Rpower x e = Rpower y e -> x = y.
Proof.
  intros Hx Hy He Heq. unfold Rpower in Heq. apply exp_inv in Heq.
  apply Rmult_eq_reg_l in Heq; [| exact He].
  apply ln_inv; assumption.
Qed.

Lemma Rpower_moves (x e : R) : 0 < x -> x <> 1 -> e <> 1 -> Rpower x e <> x.
Proof.
  intros Hx Hx1 He Heq.
  assert (Hln : e * ln x = ln x).
  { apply exp_inv. fold (Rpower x e). rewrite Heq. symmetry.
    apply exp_ln. exact Hx. }
  assert (Hzero : ln x = 0) by nra.
  apply Hx1. apply ln_inv; [exact Hx | lra |]. rewrite ln_1. exact Hzero.
Qed.

Lemma float_epsilon_small : 0 < / 2 ^ 23 < 1.
Proof.
  assert (H1 : 1 < 2 ^ 23) by (apply Rlt_pow_R1; [lra | lia]).
  split.
  - apply Rinv_0_lt_compat. lra.
  - rewrite <- Rinv_1. apply Rinv_lt_contravar; lra.
Qed.

(** C3, as stated, fails: for an objective of 1 and a step of 1, in
    exact arithmetic, the expected error the code computes,
    [(eps^0.9 + 1/18)^0.9], is not [(eps + 1/18)^0.9]. *)
Lemma expected_error_uses_epsilon_power :
  expected_gradient_error (D := R) 1 1 <> claimed_expected_error (D := R) 1 1.
Proof.
  unfold expected_gradient_error, claimed_expected_error, epsilon, s_int.
  cbn [s_pow s_epsilon s_lit s_mul s_div s_add R_scalar R_scalar_math].
  rewrite R_pow_one.
  pose proof float_epsilon_small as [Heps0 Heps1].
  assert (He : Q2R (9 # 10) = 9 / 10) by (unfold Q2R; cbn; lra).
  assert (H18 : Q2R (inject_Z 18) = 18) by (unfold Q2R; cbn; lra).
  rewrite He, H18.
  rewrite (R_pow_pos (/ 2 ^ 23)) by exact Heps0.
  assert (Hpow : 0 < Rpower (/ 2 ^ 23) (9 / 10)) by apply exp_pos.
  rewrite !R_pow_pos by lra.
  intros Heq. apply Rpower_base_inj in Heq; [| lra | lra | lra].
  apply (Rpower_moves (/ 2 ^ 23) (9 / 10)); lra.
Qed.

End ArithmeticFacts.

(** * Further properties of the data reader *)

Module DataReaderExtra.
Import DataReader DataReaderDefaults DataReaderFacts.

Lemma to_int_range (z : Z) : - 2 ^ 31 <= to_int z <= int_max.
Proof.
  unfold to_int, int_max.
  pose proof (Z.mod_pos_bound (z + 2 ^ 31) (2 ^ 32) ltac:(lia)). lia.
Qed.

Lemma position_valid_iff (r : generic_data_reader) :
  position_valid r = true
  <-> m_current_pos r < to_int (Z.of_nat (length (m_shuffled_indices r))).
Proof. apply Z.ltb_lt. Qed.

(** X1.  [position_valid] is the comparison of the position with what
    [getNumData] returns, in every state; [getNumData] is a 32-bit
    value, and it is the size of the working set exactly when the size
    is at most [2^31 - 1]. *)
Theorem position_valid_getNumData (r : generic_data_reader) :
  (position_valid r = true <-> getPosition r < getNumData r)
  /\ - 2 ^ 31 <= getNumData r <= int_max
  /\ (getNumData r = Z.of_nat (length (m_shuffled_indices r))
      <-> Z.of_nat (length (m_shuffled_indices r)) <= int_max).
Proof.
  unfold position_valid, getPosition, getNumData.
  split; [apply Z.ltb_lt |]. split; [apply to_int_range |].
  split.
  - intros Heq. pose proof (to_int_range
      (Z.of_nat (length (m_shuffled_indices r)))) as Hr. lia.
  - intros Hle. apply to_int_small. unfold int_max in *. lia.
Qed.

(** X2.  A valid position that is not negative is the position of an
    index: the access [getIndices()[current_pos]] is within the
    working set (of at most [2^31 - 1] indices). *)
Theorem position_valid_in_bounds (r : generic_data_reader) :
  Z.of_nat (length (m_shuffled_indices r)) <= int_max ->
  0 <= m_current_pos r ->
  position_valid r = true ->
  exists i, index_at r (m_current_pos r) = Some i.
Proof.
  intros Hsize Hpos Hvalid.
  apply position_valid_iff in Hvalid.
  rewrite to_int_small in Hvalid by (unfold int_max in *; lia).
  unfold index_at.
  destruct (Z.ltb_spec (m_current_pos r) 0) as [Hneg | _]; [lia |].
  apply lookup_lt_is_Some_2. lia.
Qed.

Lemma position_valid_in_bounds_witness :
  exists i, index_at (updates 3 example_reader).2
                     (m_current_pos (updates 3 example_reader).2) = Some i.
Proof.
  apply (position_valid_in_bounds (updates 3 example_reader).2);
    vm_compute; congruence.
Defined.

(** X3.  In a reader whose working set holds at most [2^31 - 1]
    indices (what the cast to [int] represents), [position_valid] has
    no lower bound: every negative position is valid, also in a reader
    without data, although no index is at a negative position. *)
Theorem negative_position_valid (r : generic_data_reader) :
  Z.of_nat (length (m_shuffled_indices r)) <= int_max ->
  m_current_pos r < 0 ->
  position_valid r = true /\ index_at r (m_current_pos r) = None.
Proof.
  intros Hsize Hneg. split.
  - apply position_valid_iff.
    rewrite to_int_small by (unfold int_max in *; lia). lia.
  - unfold index_at.
    destruct (Z.ltb_spec (m_current_pos r) 0); [reflexivity | lia].
Qed.

Lemma negative_position_valid_witness :
  position_valid (move_to (-1) 0 [] (reader_of_size 0)) = true
  /\ index_at (move_to (-1) 0 [] (reader_of_size 0))
              (m_current_pos (move_to (-1) 0 [] (reader_of_size 0))) = None.
Proof.
  apply (negative_position_valid (move_to (-1) 0 [] (reader_of_size 0)));
    vm_compute; congruence.
Defined.

(** X4.  A reader as the constructor leaves it holds no data, and its
    position, 0, is not valid; its batch stride is [batchSize] and
    [m_first_n] is unset, whatever [shuffle] was passed, which the
    constructor does not use.  It does not initialise
    [m_current_mini_batch_idx] either: what [at_new_epoch] returns for
    a new reader depends on the indeterminate value of this member. *)
Theorem new_reader_state (batchSize : Z) (shuffle : bool) :
  (forall u,
     let r := new_generic_data_reader batchSize shuffle u in
     position_valid r = false
     /\ getNumData r = 0
     /\ get_num_unused_data r = 0
     /\ getPosition r = 0
     /\ get_batch_stride r = batchSize
     /\ m_first_n r = false
     /\ r = new_generic_data_reader batchSize (negb shuffle) u)
  /\ (exists u u',
        at_new_epoch (new_generic_data_reader batchSize shuffle u) = true
        /\ at_new_epoch (new_generic_data_reader batchSize shuffle u') = false).
Proof.
  split.
  - intros u. cbv zeta. repeat split; reflexivity.
  - exists {| i_current_mini_batch_idx := 0;
              i_num_mini_batches_per_reader := 0;
              i_num_iterations_per_epoch := 0; i_rank := 0 |},
           {| i_current_mini_batch_idx := 1;
              i_num_mini_batches_per_reader := 0;
              i_num_iterations_per_epoch := 0; i_rank := 0 |}.
    split; reflexivity.
Qed.

(** X5.  The fetch functions and [save_image] of the base class never
    return: each throws, with a message that names the method, so the
    four messages differ; the [return 0] after the macro is never
    reached. *)
Theorem base_class_capabilities_throw {Mat : Type}
    (r : generic_data_reader) (X : Mat) (filename : string) (do_scale : bool) :
  fetch_data r X = inl "the method fetch_data has not been implemented"%string
  /\ fetch_label r X
     = inl "the method fetch_label has not been implemented"%string
  /\ fetch_response r X
     = inl "the method fetch_response has not been implemented"%string
  /\ save_image r X filename do_scale
     = inl "the method save_image has not been implemented"%string.
Proof. repeat split; reflexivity. Qed.

End DataReaderExtra.

(** * The order and the number of the calls of a gradient check *)

Module CheckGradientsExtra.
Import Scalar CheckGradients CheckGradientsViews CheckGradientsStructure.
Import CheckGradientsFacts.

Section Loops.

Context {D : Type} {DS : Scalar D}.
Context {execution_mode : Type} `{Countable execution_mode}.
Context {model Layer weights metric : Type}.
Context {C : Collaborators D execution_mode model Layer weights metric}.

Local Abbreviation event := (event D execution_mode Layer weights metric).
Local Abbreviation config := (check_gradients D execution_mode).
Local Abbreviation M := (@M D execution_mode model Layer weights metric).

(** A loop of guarded calls makes the calls the guard lets through, in
    the order of the vector, and returns. *)
Lemma for_each_when_call_run (R : relation model) {R_preorder : PreOrder R}
    {A : Type} (p : A -> bool) (f : A -> model -> model) (ev : A -> event)
    (xs : list A) :
  (forall x m, R m (f x m)) ->
  forall m, exists m1,
    R m m1
    /\ (for_each xs (fun x => when (p x) (call (f x) (ev x))) : M unit) m
       = (Returns tt, m1, map ev (List.filter p xs)).
Proof.
  intros Hf. induction xs as [| x xs IH]; intros m.
  - exists m. split; reflexivity.
  - cbn [for_each List.filter]. rewrite bind_run.
    destruct (p x); cbn [when call ret].
    + destruct (IH (f x m)) as (m1 & HR & Hrun). exists m1. split.
      * etransitivity; [apply Hf | exact HR].
      * rewrite Hrun. reflexivity.
    + destruct (IH m) as (m1 & HR & Hrun). exists m1. split; [exact HR |].
      rewrite Hrun. reflexivity.
Qed.

Lemma for_each_call_run (R : relation model) {R_preorder : PreOrder R}
    {A : Type} (f : A -> model -> model) (ev : A -> event) (xs : list A) :
  (forall x m, R m (f x m)) ->
  forall m, exists m1,
    R m m1
    /\ (for_each xs (fun x => call (f x) (ev x)) : M unit) m
       = (Returns tt, m1, map ev xs).
Proof.
  intros Hf. induction xs as [| x xs IH]; intros m.
  - exists m. split; reflexivity.
  - cbn [for_each]. rewrite bind_run. cbn [call].
    destruct (IH (f x m)) as (m1 & HR & Hrun). exists m1. split.
    + etransitivity; [apply Hf | exact HR].
    + rewrite Hrun. reflexivity.
Qed.

Lemma for_each_when_call_fold {A : Type} (p : A -> bool)
    (f : A -> model -> model) (ev : A -> event) (xs : list A) (m : model) :
  (for_each xs (fun x => when (p x) (call (f x) (ev x))) : M unit) m
  = (Returns tt, fold_left (fun m' x => f x m') (List.filter p xs) m,
     map ev (List.filter p xs)).
Proof.
  revert m. induction xs as [| x xs IH]; intros m; [reflexivity |].
  cbn [for_each List.filter]. rewrite bind_run.
  destruct (p x); cbn [when call ret]; rewrite IH; reflexivity.
Qed.

(** X6.  [compute_objective_function] runs forward prop on the layers
    that are not input layers, each once and in the order of the
    model, and on no input layer; the execution mode and the
    mini-batch size are read after this forward pass; the objective
    function is then evaluated once, and the value
    [finish_evaluation] gives is the value returned. *)
Theorem objective_function_forward_pass (m : model) :
  let ls := List.filter (fun l => negb (is_input_layer l)) (get_layers m) in
  let m1 := fold_left (fun m' l => forward_prop l m') ls m in
  let mode := get_execution_mode m1 in
  let mbs := get_current_mini_batch_size m1 in
  let vm := finish_evaluation mode mbs (start_evaluation mode mbs m1) in
  compute_objective_function m
  = (Returns vm.1, vm.2,
     map EvForwardProp ls
     ++ [EvStartEvaluation mode mbs; EvFinishEvaluation mode mbs vm.1]).
Proof.
  cbv zeta. unfold compute_objective_function.
  rewrite bind_run. cbn [gets].
  rewrite bind_run, for_each_when_call_fold.
  unfold mbind, M_bind, bind, gets, call, call_finish_evaluation.
  cbn. reflexivity.
Qed.

#[global] Instance same_structure_preorder :
  PreOrder (same_structure (C := C)).
Proof.
  split.
  - intros m. repeat split.
  - intros m1 m2 m3 (A1 & A2 & A3 & A4 & A5) (B1 & B2 & B3 & B4 & B5).
    repeat split; congruence.
Qed.

Lemma structure_layers (m m' : model) :
  same_structure m m' -> get_layers m' = get_layers m.
Proof. intros (E & _). exact E. Qed.

Lemma structure_weights (m m' : model) :
  same_structure m m' -> get_weights m' = get_weights m.
Proof. intros (_ & E & _). exact E. Qed.

Lemma structure_metrics (m m' : model) :
  same_structure m m' -> get_metrics m' = get_metrics m.
Proof. intros (_ & _ & E & _). exact E. Qed.

Lemma structure_mode (m m' : model) :
  same_structure m m' -> get_execution_mode m' = get_execution_mode m.
Proof. intros (_ & _ & _ & E & _). exact E. Qed.

Lemma structure_master (m m' : model) :
  same_structure m m' -> am_world_master m' = am_world_master m.
Proof. intros (_ & _ & _ & _ & E). exact E. Qed.

Section StableRuns.

Context {laws : StableStructure}.

Lemma reset_statistics_and_gradients_run (mode : execution_mode) (m : model) :
  exists m1,
    same_structure m m1
    /\ reset_statistics_and_gradients mode m
       = (Returns tt, m1,
          EvObjResetStatistics mode
          :: map (fun met => EvMetResetStatistics met mode) (get_metrics m)
          ++ map EvClearGradient (List.filter has_optimizer (get_weights m))).
Proof.
  pose proof (respects_obj_reset_statistics (R := same_structure) mode m) as H0.
  destruct (for_each_call_run same_structure
              (fun met => met_reset_statistics met mode)
              (fun met => EvMetResetStatistics met mode)
              (get_metrics (obj_reset_statistics mode m))
              (fun met m' =>
                 respects_met_reset_statistics (R := same_structure) met mode m')
              (obj_reset_statistics mode m)) as (m1 & H1 & E1).
  destruct (for_each_when_call_run same_structure has_optimizer clear_gradient
              EvClearGradient (get_weights m1)
              (respects_clear_gradient (R := same_structure)) m1)
    as (m2 & H2 & E2).
  exists m2. split; [etransitivity; [exact H0 | etransitivity; eassumption] |].
  unfold reset_statistics_and_gradients.
  rewrite bind_run. cbn [call]. rewrite bind_run. cbn [gets].
  rewrite bind_run, E1. rewrite bind_run. cbn [gets]. rewrite E2.
  cbn [fst snd app].
  rewrite (structure_metrics _ _ H0).
  rewrite (structure_weights _ _ H1), (structure_weights _ _ H0).
  reflexivity.
Qed.

Lemma load_data_in_input_layers_run (m : model) :
  exists m1,
    same_structure m m1
    /\ load_data_in_input_layers m
       = (Returns tt, m1,
          map EvForwardProp (List.filter is_input_layer (get_layers m))).
Proof.
  destruct (for_each_when_call_run same_structure is_input_layer forward_prop
              EvForwardProp (get_layers m)
              (respects_forward_prop (R := same_structure)) m)
    as (m1 & H1 & E1).
  exists m1. split; [exact H1 |].
  unfold load_data_in_input_layers. rewrite bind_run. cbn [gets].
  rewrite E1. reflexivity.
Qed.

Lemma objective_trace_stable (m : model) :
  exists mbs,
    same_structure m (after_objective m)
    /\ objective_trace m
       = map EvForwardProp
             (List.filter (fun l => negb (is_input_layer l)) (get_layers m))
         ++ [EvStartEvaluation (get_execution_mode m) mbs;
             EvFinishEvaluation (get_execution_mode m) mbs (objective_value m)].
Proof.
  destruct (for_each_when_call_run same_structure
              (fun l => negb (is_input_layer l)) forward_prop
              EvForwardProp (get_layers m)
              (respects_forward_prop (R := same_structure)) m)
    as (m1 & H1 & E1).
  exists (get_current_mini_batch_size m1).
  unfold after_objective, objective_trace, objective_value.
  unfold compute_objective_function.
  rewrite bind_run. cbn [gets]. rewrite bind_run, E1.
  unfold mbind, M_bind, bind, gets, call, call_finish_evaluation.
  cbn. rewrite (structure_mode _ _ H1). split; [| reflexivity].
  etransitivity; [exact H1 |]. etransitivity.
  - apply (respects_start_evaluation (R := same_structure)).
  - apply (respects_finish_evaluation (R := same_structure)).
Qed.

Lemma compute_gradients_run (m : model) :
  exists m1,
    same_structure m m1
    /\ compute_gradients m
       = (Returns tt, m1,
          EvDifferentiate :: EvComputeWeightRegularization
          :: map EvBackProp (rev (get_layers m))).
Proof.
  pose proof (respects_differentiate (R := same_structure) m) as H0.
  pose proof (respects_compute_weight_regularization (R := same_structure)
                (differentiate m)) as H1.
  destruct (for_each_call_run same_structure back_prop EvBackProp
              (rev (get_layers (compute_weight_regularization (differentiate m))))
              (respects_back_prop (R := same_structure))
              (compute_weight_regularization (differentiate m)))
    as (m2 & H2 & E2).
  exists m2. split; [etransitivity; [exact H0 | etransitivity; eassumption] |].
  unfold compute_gradients.
  rewrite bind_run. cbn [call]. rewrite bind_run. cbn [call].
  rewrite bind_run. cbn [gets]. rewrite E2. cbn [fst snd app].
  rewrite (structure_layers _ _ H1), (structure_layers _ _ H0).
  reflexivity.
Qed.

Lemma clean_up_run (mode : execution_mode) (m : model) :
  exists m1,
    same_structure m m1
    /\ clean_up mode m
       = (Returns tt, m1,
          map (fun l => EvSetInitialPosition l mode)
              (List.filter is_input_layer (get_layers m))
          ++ EvObjResetStatistics mode
          :: map (fun met => EvMetResetStatistics met mode) (get_metrics m)).
Proof.
  destruct (for_each_when_call_run same_structure is_input_layer
              (fun l => set_initial_position l mode)
              (fun l => EvSetInitialPosition l mode) (get_layers m)
              (fun l m' =>
                 respects_set_initial_position (R := same_structure) l mode m')
              m)
    as (m1 & H1 & E1).
  pose proof (respects_obj_reset_statistics (R := same_structure) mode m1)
    as H2.
  destruct (for_each_call_run same_structure
              (fun met => met_reset_statistics met mode)
              (fun met => EvMetResetStatistics met mode)
              (get_metrics (obj_reset_statistics mode m1))
              (fun met m' =>
                 respects_met_reset_statistics (R := same_structure) met mode m')
              (obj_reset_statistics mode m1)) as (m3 & H3 & E3).
  exists m3. split.
  { etransitivity; [exact H1 |]. etransitivity; eassumption. }
  unfold clean_up. rewrite bind_run. cbn [gets]. rewrite bind_run, E1.
  rewrite bind_run. cbn [call]. rewrite bind_run. cbn [gets]. rewrite E3.
  cbn [fst snd app].
  rewrite (structure_metrics _ _ H2), (structure_metrics _ _ H1).
  reflexivity.
Qed.

Lemma perturbed_structure (w : weights) (col row : Z) (v : D) (m : model) :
  same_structure m (perturbed w col row v m).
Proof.
  unfold perturbed. etransitivity; [apply set_value_keeps_structure |].
  destruct (objective_trace_stable (set_value w v row col m))
    as (mbs & Hs & _).
  exact Hs.
Qed.

Lemma check_entry_structure (cfg : config) (h expected : D) (w : weights)
    (col row : Z) (m : model) :
  same_structure m (final_state (check_entry cfg h expected w col row m)).
Proof.
  rewrite check_entry_run. unfold final_state. cbn [fst snd].
  unfold entry_restored, before_n2h, before_nh, before_h, before_2h.
  etransitivity; [| apply set_value_keeps_structure].
  do 3 (etransitivity; [| apply perturbed_structure]).
  apply perturbed_structure.
Qed.

End StableRuns.

Lemma result_run {A : Type} (o : outcome A) (m : model) (t : list event) :
  result (o, m, t) = o.
Proof. reflexivity. Qed.

Lemma final_state_run {A : Type} (o : outcome A) (m : model)
    (t : list event) :
  final_state (o, m, t) = m.
Proof. reflexivity. Qed.

Lemma trace_run {A : Type} (o : outcome A) (m : model) (t : list event) :
  trace (o, m, t) = t.
Proof. reflexivity. Qed.

Lemma omap_map_none {A B : Type} (f : event -> option B) (ev : A -> event)
    (xs : list A) :
  (forall x, f (ev x) = None) -> omap f (map ev xs) = [].
Proof.
  intros Hf. apply omap_none, Forall_map, Forall_true. exact Hf.
Qed.

Lemma omap_map_some {A B : Type} (f : event -> option B) (ev : A -> event)
    (g : A -> B) (xs : list A) :
  (forall x, f (ev x) = Some (g x)) -> omap f (map ev xs) = map g xs.
Proof.
  intros Hf. induction xs as [| x xs IH]; [reflexivity |].
  cbn. rewrite Hf. cbn. f_equal. exact IH.
Qed.

Lemma omap_scan {B : Type} (f : event -> option B) (t : list event) :
  Forall (fun e => f e = None) t -> omap f t = [].
Proof. apply omap_none. Qed.

(** A loop that returns, over bodies that keep [I]: what a view shows
    of its trace is what it shows of each body, in order. *)
Lemma for_each_omap_inv {A B : Type} (I : model -> Prop)
    (f : event -> option B) (g : A -> list B) (xs : list A)
    (body : A -> M unit) :
  (forall x m, I m -> I (final_state (body x m))) ->
  (forall x m, I m -> result (body x m) = Returns tt ->
               omap f (trace (body x m)) = g x) ->
  forall m, I m -> result (for_each xs body m) = Returns tt ->
            omap f (trace (for_each xs body m)) = flat_map g xs.
Proof.
  intros Hkeep Hbody. induction xs as [| x xs IH]; intros m Hm Hres;
    [reflexivity |].
  rewrite for_each_cons_run in Hres |- *.
  destruct (outcome_unit (result (body x m))) as [[e He] | Hx].
  - rewrite He in Hres. discriminate Hres.
  - rewrite Hx in Hres |- *. unfold result, trace in Hres |- *.
    cbn [fst snd] in Hres |- *.
    rewrite omap_app. cbn [flat_map]. f_equal.
    + apply Hbody; assumption.
    + apply IH; [apply Hkeep, Hm | exact Hres].
Qed.

(** The check of a weights object, in terms of the loops over its
    entries. *)
Lemma check_weights_run (cfg : config) (h expected : D) (w : weights)
    (m : model) :
  let entries :=
    for_each (seqZ 0 (Width w)) (fun col =>
      for_each (seqZ 0 (Height w)) (fun row =>
        check_entry cfg h expected w col row)) m in
  check_weights cfg h expected w m
  = if has_optimizer w then
      (result entries, final_state entries,
       (if am_world_master m then [EvPrint (OutChecking (get_name w))]
        else []) ++ trace entries)
    else (Returns tt, m, []).
Proof.
  cbv zeta. unfold check_weights.
  destruct (has_optimizer w); cbn [negb]; [| reflexivity].
  rewrite bind_run. cbn [gets]. rewrite bind_run.
  unfold result, final_state, trace.
  destruct (am_world_master m); cbn [when print ret fst snd app];
    reflexivity.
Qed.

Lemma for_each_scan (P : event -> Prop) {A : Type} (xs : list A)
    (body : A -> M unit) :
  (forall x m, Forall P (trace (body x m))) ->
  forall m, Forall P (trace (for_each xs body m)).
Proof.
  intros Hbody. induction xs as [| x xs IH]; intros m; [constructor |].
  rewrite for_each_cons_run.
  destruct (result (body x m)); unfold trace at 1; cbn [snd].
  - apply Forall_app. split; [apply Hbody | apply IH].
  - apply Hbody.
Qed.

(** ** What the loop over the weights never does *)

Section Scan.

Variable P : event -> Prop.
Variable cfg : config.
Variables h expected : D.

Hypothesis P_forward_prop :
  forall l, is_input_layer l = false -> P (EvForwardProp l).
Hypothesis P_start : forall mode mbs, P (EvStartEvaluation mode mbs).
Hypothesis P_finish : forall mode mbs v, P (EvFinishEvaluation mode mbs v).
Hypothesis P_set_value : forall w v row col, P (EvSetValue w v row col).
Hypothesis P_gradient_error : forall rep, P (EvPrint (OutGradientError rep)).
Hypothesis P_entry :
  m_verbose cfg = true -> forall rep, P (EvPrint (OutEntry rep)).
Hypothesis P_checking : forall name, P (EvPrint (OutChecking name)).

Lemma objective_trace_scan (m : model) : Forall P (objective_trace m).
Proof.
  destruct (objective_trace_shape m) as (ls & mode & mbs & Hls & ->).
  apply Forall_app. split.
  - apply Forall_map. eapply Forall_impl; [exact Hls |].
    intros l Hl. apply P_forward_prop, Hl.
  - repeat constructor; [apply P_start | apply P_finish].
Qed.

Lemma check_entry_scan (w : weights) (col row : Z) (m : model) :
  Forall P (trace (check_entry cfg h expected w col row m)).
Proof.
  rewrite check_entry_run. unfold trace. cbn [snd].
  apply Forall_app. split.
  - unfold entry_trace. cbv zeta.
    repeat (apply Forall_app; split);
      try apply objective_trace_scan; repeat constructor; apply P_set_value.
  - unfold entry_output.
    destruct (is_owner w col row); [| constructor].
    destruct (entry_failed h expected w col row m).
    + repeat constructor. apply P_gradient_error.
    + destruct (m_verbose cfg) eqn:Hverbose; repeat constructor.
      apply P_entry. reflexivity.
Qed.

Lemma check_weights_scan (w : weights) (m : model) :
  Forall P (trace (check_weights cfg h expected w m)).
Proof.
  rewrite check_weights_run. cbv zeta.
  destruct (has_optimizer w); [| constructor].
  unfold trace at 1. cbn [snd]. apply Forall_app. split.
  - destruct (am_world_master m); repeat constructor. apply P_checking.
  - apply for_each_scan. intros col m1. apply for_each_scan. intros row m2.
    apply check_entry_scan.
Qed.

Lemma check_all_weights_scan (ws : list weights) (m : model) :
  Forall P (trace (for_each ws (check_weights cfg h expected) m)).
Proof. apply for_each_scan. intros w m1. apply check_weights_scan. Qed.

End Scan.


(** ** What the loop over the weights prints besides the reports *)

Lemma check_weights_frame (cfg : config) (h expected : D) (w : weights)
    (m : model) :
  omap printed_frame (trace (check_weights cfg h expected w m))
  = if has_optimizer w && am_world_master m
    then [OutChecking (get_name w)] else [].
Proof.
  rewrite check_weights_run. cbv zeta.
  destruct (has_optimizer w); cbn [andb]; [| reflexivity].
  unfold trace at 1. cbn [snd]. rewrite omap_app.
  rewrite (omap_scan printed_frame (trace _)).
  - destruct (am_world_master m); reflexivity.
  - apply for_each_scan. intros col m1. apply for_each_scan. intros row m2.
    apply check_entry_scan; reflexivity.
Qed.

Lemma checking_lines (master : bool) (ws : list weights) :
  flat_map (fun w => if has_optimizer w && master
                     then [OutChecking (D := D) (get_name w)] else []) ws
  = if master
    then map (fun w => OutChecking (get_name w))
             (List.filter has_optimizer ws)
    else [].
Proof.
  induction ws as [| w ws IH]; [destruct master; reflexivity |].
  cbn [flat_map List.filter]. rewrite IH.
  destruct (has_optimizer w), master; reflexivity.
Qed.

(** ** How often the objective function is evaluated *)

Lemma objective_evaluation (m : model) :
  omap evaluation (objective_trace m) = [objective_value m].
Proof.
  destruct (objective_trace_shape m) as (ls & mode & mbs & _ & ->).
  rewrite omap_app, omap_map_none by reflexivity. reflexivity.
Qed.

Lemma check_entry_evaluations (cfg : config) (h expected : D) (w : weights)
    (col row : Z) (m : model) :
  omap evaluation (trace (check_entry cfg h expected w col row m))
  = [f_2h h w col row m; f_h h w col row m;
     f_nh h w col row m; f_n2h h w col row m].
Proof.
  rewrite check_entry_run. unfold trace. cbn [snd].
  rewrite omap_app, (omap_scan evaluation (entry_output _ _ _ _ _ _ _)).
  2:{ eapply Forall_impl; [apply entry_output_prints |].
      intros [] Hprint; try contradiction. reflexivity. }
  unfold entry_trace. cbv zeta.
  rewrite !omap_app, !objective_evaluation. reflexivity.
Qed.

Lemma for_each_omap_length {A B : Type} (f : event -> option B) (g : A -> nat)
    (xs : list A) (body : A -> M unit) :
  (forall x m, result (body x m) = Returns tt ->
               length (omap f (trace (body x m))) = g x) ->
  forall m, result (for_each xs body m) = Returns tt ->
            length (omap f (trace (for_each xs body m)))
            = sum_list (map g xs).
Proof.
  intros Hbody. induction xs as [| x xs IH]; intros m Hres; [reflexivity |].
  rewrite for_each_cons_run in Hres |- *.
  destruct (outcome_unit (result (body x m))) as [[e He] | Hx].
  - rewrite He in Hres. discriminate Hres.
  - rewrite Hx in Hres |- *. unfold result, trace in Hres |- *.
    cbn [fst snd] in Hres |- *.
    rewrite omap_app, length_app. cbn [map sum_list]. f_equal.
    + apply Hbody. exact Hx.
    + apply IH. exact Hres.
Qed.

Lemma sum_list_constant {A : Type} (c : nat) (xs : list A) :
  sum_list (map (fun _ => c) xs) = (length xs * c)%nat.
Proof. induction xs as [| x xs IH]; [reflexivity |]. cbn. rewrite IH. lia. Qed.

Lemma check_weights_evaluations (cfg : config) (h expected : D) (w : weights)
    (m : model) :
  result (check_weights cfg h expected w m) = Returns tt ->
  length (omap evaluation (trace (check_weights cfg h expected w m)))
  = (4 * entry_count w)%nat.
Proof.
  rewrite check_weights_run. cbv zeta. unfold entry_count.
  destruct (has_optimizer w); [| reflexivity].
  rewrite result_run, trace_run. intros Hres.
  rewrite omap_app, length_app.
  replace (length (omap evaluation
                     (if am_world_master m
                      then [EvPrint (OutChecking (get_name w))] else [])))
    with 0%nat by (destruct (am_world_master m); reflexivity).
  rewrite (for_each_omap_length evaluation
             (fun _ => (Z.to_nat (Height w) * 4)%nat)); [| | exact Hres].
  - rewrite sum_list_constant, length_seqZ. lia.
  - intros col m1 Hcol.
    rewrite (for_each_omap_length evaluation (fun _ => 4%nat));
      [| | exact Hcol].
    + rewrite sum_list_constant, length_seqZ. reflexivity.
    + intros row m2 _. rewrite check_entry_evaluations. reflexivity.
Qed.

(** ** How many gradient errors are reported *)

Lemma objective_printed_gradient_error (m : model) :
  omap printed_gradient_error (objective_trace m) = [].
Proof. apply omap_scan, objective_trace_scan; reflexivity. Qed.

Lemma check_entry_errors (cfg : config) (h expected : D) (w : weights)
    (col row : Z) (m : model) :
  m_error_on_failure cfg = true ->
  length (omap printed_gradient_error
               (trace (check_entry cfg h expected w col row m)))
  = match result (check_entry cfg h expected w col row m) with
    | Returns _ => 0%nat
    | Throws _ => 1%nat
    end.
Proof.
  intros Hon. rewrite check_entry_run, result_run, trace_run.
  rewrite omap_app, entry_trace_omap
    by (apply objective_printed_gradient_error || reflexivity).
  unfold entry_output, entry_result. rewrite Hon.
  destruct (is_owner w col row); cbn [andb]; [| reflexivity].
  destruct (entry_failed h expected w col row m); cbn [andb];
    [reflexivity |].
  destruct (m_verbose cfg); reflexivity.
Qed.

(** A loop stops at the first body that throws: when every body
    leaves one item of a view exactly when it throws, so does the
    loop. *)
Lemma for_each_first_throw {A B : Type} (f : event -> option B)
    (xs : list A) (body : A -> M unit) :
  (forall x m, length (omap f (trace (body x m)))
               = match result (body x m) with
                 | Returns _ => 0%nat
                 | Throws _ => 1%nat
                 end) ->
  forall m, length (omap f (trace (for_each xs body m)))
            = match result (for_each xs body m) with
              | Returns _ => 0%nat
              | Throws _ => 1%nat
              end.
Proof.
  intros Hbody. induction xs as [| x xs IH]; intros m; [reflexivity |].
  rewrite for_each_cons_run. specialize (Hbody x m).
  destruct (result (body x m)) as [[] | e];
    rewrite result_run, trace_run; [| exact Hbody].
  rewrite omap_app, length_app, Hbody. apply IH.
Qed.

Lemma check_weights_errors (cfg : config) (h expected : D) (w : weights)
    (m : model) :
  m_error_on_failure cfg = true ->
  length (omap printed_gradient_error
               (trace (check_weights cfg h expected w m)))
  = match result (check_weights cfg h expected w m) with
    | Returns _ => 0%nat
    | Throws _ => 1%nat
    end.
Proof.
  intros Hon. rewrite check_weights_run. cbv zeta.
  destruct (has_optimizer w); [| reflexivity].
  rewrite result_run, trace_run, omap_app, length_app.
  replace (length (omap printed_gradient_error
                     (if am_world_master m
                      then [EvPrint (OutChecking (get_name w))] else [])))
    with 0%nat by (destruct (am_world_master m); reflexivity).
  apply (for_each_first_throw printed_gradient_error). intros col m1.
  apply (for_each_first_throw printed_gradient_error). intros row m2.
  apply check_entry_errors, Hon.
Qed.

(** X12.  A process that does not own an entry perturbs it and
    evaluates the objective function as every process does, with five
    writes and four evaluations, but compares nothing: it prints
    nothing for the entry and does not throw. *)
Theorem entry_of_another_process (cfg : config) (h expected : D)
    (w : weights) (col row : Z) (m : model) :
  is_owner w col row = false ->
  let r := check_entry cfg h expected w col row m in
  result r = Returns tt
  /\ Forall (fun e => ~ is_print e) (trace r)
  /\ omap written_entry (trace r) = replicate 5 (w, row, col)
  /\ length (omap evaluation (trace r)) = 4%nat.
Proof.
  intros Hother. cbv zeta. split; [| split; [| split]].
  - rewrite check_entry_run, result_run. unfold entry_result.
    rewrite Hother. reflexivity.
  - rewrite check_entry_run, trace_run. unfold entry_output.
    rewrite Hother, app_nil_r. unfold entry_trace. cbv zeta.
    repeat (apply Forall_app; split);
      try (apply objective_trace_scan; intros; exact (fun x => x));
      repeat constructor; exact (fun x => x).
  - apply check_entry_written.
  - rewrite check_entry_evaluations. reflexivity.
Qed.

End Loops.

Section Runs.

Context {D : Type} {DS : Scalar D} {DM : ScalarMath D}.
Context {execution_mode : Type} `{Countable execution_mode}.
Context {model Layer weights metric : Type}.
Context {C : Collaborators D execution_mode model Layer weights metric}.

Local Abbreviation event := (event D execution_mode Layer weights metric).
Local Abbreviation config := (check_gradients D execution_mode).
Local Abbreviation M := (@M D execution_mode model Layer weights metric).

(** The check from the computation of the gradients on, in terms of
    the loop over the weights: when the loop throws, nothing after it
    runs. *)
Lemma check_with_objective_run (cfg : config) (mode : execution_mode)
    (f0 : D) (m mg : model) (tg : list event) :
  compute_gradients m = (Returns tt, mg, tg) ->
  let h := finite_difference_step cfg f0 in
  let expected := expected_gradient_error f0 h in
  let header : list event :=
    if am_world_master mg then [EvPrint (OutHeader f0 h expected)] else [] in
  let loop := for_each (get_weights mg) (check_weights cfg h expected) mg in
  let rule : list event :=
    if am_world_master (final_state loop) then [EvPrint OutRule] else [] in
  check_with_objective cfg mode f0 m
  = match result loop with
    | Returns _ =>
        (Returns tt, final_state (clean_up mode (final_state loop)),
         tg ++ header ++ trace loop ++ rule
         ++ trace (clean_up mode (final_state loop)))
    | Throws e => (Throws e, final_state loop, tg ++ header ++ trace loop)
    end.
Proof.
  intros Eg. cbv zeta. unfold check_with_objective. cbv zeta.
  generalize (expected_gradient_error f0 (finite_difference_step cfg f0)).
  intros expected.
  generalize (finite_difference_step cfg f0). intros h.
  rewrite (bind_returns_run _ _ _ _ _ _ Eg).
  rewrite bind_run. cbn [gets]. rewrite bind_run.
  assert (Hheader :
    when (am_world_master mg) (print (OutHeader f0 h expected) : M unit) mg
    = (Returns tt, mg,
       if am_world_master mg then [EvPrint (OutHeader f0 h expected)] else []))
    by (destruct (am_world_master mg); reflexivity).
  rewrite Hheader. rewrite bind_run. cbn [gets]. rewrite bind_run.
  unfold final_state, result, trace.
  destruct (for_each (get_weights mg) (check_weights cfg h expected) mg)
    as [[[[] | e] ml] tl]; cbn [fst snd app]; [| reflexivity].
  rewrite bind_run. cbn [gets]. rewrite bind_run.
  assert (Hrule :
    when (am_world_master ml) (print OutRule : M unit) ml
    = (Returns tt, ml, if am_world_master ml then [EvPrint OutRule] else []))
    by (destruct (am_world_master ml); reflexivity).
  rewrite Hrule.
  destruct (returns_clean_up mode ml) as [[] Hc].
  destruct (clean_up mode ml) as [[oc mc] tc].
  unfold result in Hc. cbn [fst] in Hc. subst oc.
  cbn [fst snd app]. reflexivity.
Qed.

Section StableCheck.

Context {laws : StableStructure}.

(** With a stable structure, the gradient check is its prologue, the
    header, the loop over the weights and, when the loop returns, the
    rule and the clean-up. *)
Lemma run_gradient_check_run (cfg : config) (mode : execution_mode)
    (m : model) :
  exists (mbs : Z) (f0 : D) (m1 : model),
    let h := finite_difference_step cfg f0 in
    let expected := expected_gradient_error f0 h in
    let loop := for_each (get_weights m) (check_weights cfg h expected) m1 in
    same_structure m m1
    /\ result (run_gradient_check cfg mode m) = result loop
    /\ trace (run_gradient_check cfg mode m)
       = prologue_calls mode mbs f0 m
         ++ (if am_world_master m
             then [EvPrint (OutHeader f0 h expected)] else [])
         ++ trace loop
         ++ match result loop with
            | Returns _ =>
                (if am_world_master m then [EvPrint OutRule] else [])
                ++ clean_up_calls mode m
            | Throws _ => []
            end.
Proof.
  destruct (reset_statistics_and_gradients_run mode m) as (ma & Ha & Ea).
  destruct (load_data_in_input_layers_run ma) as (mb & Hb & Eb).
  destruct (objective_trace_stable mb) as (mbs & Hc & Ec).
  pose proof (compute_objective_function_run mb) as Erun.
  set (f0 := objective_value mb) in *.
  set (mc := after_objective mb) in *.
  destruct (compute_gradients_run mc) as (md & Hd & Ed).
  assert (Hmb : same_structure m mb) by (etransitivity; eassumption).
  assert (Hmc : same_structure m mc) by (etransitivity; eassumption).
  assert (Hmd : same_structure m md) by (etransitivity; eassumption).
  exists mbs, f0, md. cbv zeta.
  set (h := finite_difference_step cfg f0).
  set (expected := expected_gradient_error f0 h).
  split; [exact Hmd |].
  unfold run_gradient_check.
  rewrite (bind_returns_run _ _ _ _ _ _ Ea).
  rewrite (bind_returns_run _ _ _ _ _ _ Eb).
  rewrite (bind_returns_run _ _ _ _ _ _ Erun).
  pose proof (check_with_objective_run cfg mode f0 mc md _ Ed) as Ecwo.
  cbv zeta in Ecwo. fold h expected in Ecwo.
  rewrite (structure_weights _ _ Hmd), (structure_master _ _ Hmd) in Ecwo.
  set (loop := for_each (get_weights m) (check_weights cfg h expected) md)
    in *.
  assert (Hloop : same_structure m (final_state loop)).
  { etransitivity; [exact Hmd |].
    apply (tame_for_each same_structure (fun _ => True) I (fun _ _ _ _ => I)).
    intros w.
    apply (tame_check_weights same_structure (fun _ => True) I
             (fun _ _ _ _ => I)).
    - intros; exact I.
    - intros col row m'. split; [apply check_entry_structure | exact I]. }
  destruct (clean_up_run mode (final_state loop)) as (me & He & Ee).
  rewrite Ee in Ecwo. unfold final_state at 1, trace at 2 in Ecwo.
  cbn [fst snd] in Ecwo.
  rewrite (structure_master _ _ Hloop), (structure_layers _ _ Hloop),
    (structure_metrics _ _ Hloop) in Ecwo.
  rewrite Ecwo.
  rewrite Ec, (structure_layers _ _ Hb), (structure_layers _ _ Ha).
  rewrite (structure_mode _ _ Hmb), (structure_layers _ _ Hmc).
  unfold prologue_calls, clean_up_calls.
  assert (Htrace : forall (o : outcome unit) (m' : model) (t : list event),
            trace (o, m', t) = t) by reflexivity.
  destruct (result loop) as [[] | e]; (split; [reflexivity |]);
    rewrite Htrace; cbn [fst snd]; rewrite <- ?app_assoc; cbn [app];
    rewrite <- ?app_assoc, ?app_nil_r; reflexivity.
Qed.

(** X7.  When the calls leave the structure of the model as it is, a
    gradient check that runs starts with these calls, in this order:
    the statistics of the objective function and of every metric are
    reset and the gradient of every weights object with an optimizer
    is cleared; forward prop runs on the input layers and then on the
    other layers; the objective function is evaluated; it is
    differentiated, the weight regularization computed, and back prop
    runs on the layers from the last to the first.  The analytical
    gradients are computed once: nothing that follows clears or
    computes a gradient, or runs forward prop on an input layer. *)
Theorem gradients_computed_once (cfg : config) (m : model) :
  let mode := get_execution_mode m in
  exists (mbs : Z) (f0 : D) (rest : list event),
    trace (do_check_gradients cfg m)
    = (if check_not_needed cfg mode then []
       else [EvObjResetStatistics mode]
            ++ map (fun met => EvMetResetStatistics met mode) (get_metrics m)
            ++ map EvClearGradient
                   (List.filter has_optimizer (get_weights m))
            ++ map EvForwardProp (List.filter is_input_layer (get_layers m))
            ++ map EvForwardProp
                   (List.filter (fun l => negb (is_input_layer l))
                                (get_layers m))
            ++ [EvStartEvaluation mode mbs; EvFinishEvaluation mode mbs f0]
            ++ [EvDifferentiate; EvComputeWeightRegularization]
            ++ map EvBackProp (rev (get_layers m))
            ++ rest)
    /\ Forall keeps_gradients_and_data rest.
Proof.
  cbv zeta. rewrite do_check_gradients_run.
  destruct (check_not_needed cfg (get_execution_mode m)).
  { exists 0, (s_int 0), []. split; [reflexivity | constructor]. }
  destruct (run_gradient_check_run cfg (get_execution_mode m) m)
    as (mbs & f0 & m1 & _ & _ & Htrace).
  cbv zeta in Htrace. rewrite Htrace. unfold prologue_calls.
  exists mbs, f0. eexists. split.
  { rewrite <- !app_assoc. reflexivity. }
  apply Forall_app. split.
  { destruct (am_world_master m); repeat constructor. }
  apply Forall_app. split.
  { apply check_all_weights_scan; intros; try exact I. assumption. }
  destruct (result _); [| constructor].
  apply Forall_app. split.
  { destruct (am_world_master m); repeat constructor. }
  unfold clean_up_calls. apply Forall_app. split.
  { apply Forall_map, Forall_true. intros l. exact I. }
  constructor; [exact I |].
  apply Forall_map, Forall_true. intros met. exact I.
Qed.

(** X8.  When the calls leave the structure of the model as it is,
    the clean-up runs exactly when the check returns: the data reader
    of every input layer is then returned to its initial position, in
    the order of the layers, and the statistics are reset a second
    time.  A check that throws resets no data reader, and resets the
    statistics only at its start. *)
Theorem clean_up_only_on_return (cfg : config) (m : model) :
  let mode := get_execution_mode m in
  let r := do_check_gradients cfg m in
  let resets : list (option metric * execution_mode) :=
    (None, mode) :: map (fun met => (Some met, mode)) (get_metrics m) in
  omap reader_reset (trace r)
  = (if check_not_needed cfg mode then []
     else match result r with
          | Returns _ =>
              map (fun l => (l, mode))
                  (List.filter is_input_layer (get_layers m))
          | Throws _ => []
          end)
  /\ omap statistics_reset (trace r)
     = (if check_not_needed cfg mode then []
        else resets ++ match result r with
                       | Returns _ => resets
                       | Throws _ => []
                       end).
Proof.
  cbv zeta. rewrite do_check_gradients_run.
  destruct (check_not_needed cfg (get_execution_mode m));
    [split; reflexivity |].
  destruct (run_gradient_check_run cfg (get_execution_mode m) m)
    as (mbs & f0 & m1 & _ & Hres & Htrace).
  cbv zeta in Hres, Htrace. rewrite Htrace, Hres.
  match type of Hres with _ = result ?l => set (loop := l) end.
  assert (Hr : omap reader_reset (trace loop) = [])
    by (apply omap_scan, check_all_weights_scan; reflexivity).
  assert (Hs : omap statistics_reset (trace loop) = [])
    by (apply omap_scan, check_all_weights_scan; reflexivity).
  unfold prologue_calls, clean_up_calls.
  split.
  - rewrite !omap_app, Hr.
    destruct (am_world_master m), (result loop) as [[] | e];
      rewrite ?omap_app;
      rewrite ?(omap_map_some reader_reset
                  (fun l => EvSetInitialPosition l (get_execution_mode m))
                  (fun l => (l, get_execution_mode m))) by reflexivity;
      rewrite ?(omap_map_none reader_reset) by reflexivity;
      cbn; rewrite ?app_nil_r; reflexivity.
  - rewrite !omap_app, Hs.
    destruct (am_world_master m), (result loop) as [[] | e];
      rewrite ?omap_app;
      rewrite ?(omap_map_some statistics_reset
                  (fun met => EvMetResetStatistics met (get_execution_mode m))
                  (fun met => (Some met, get_execution_mode m)))
        by reflexivity;
      rewrite ?(omap_map_none statistics_reset) by reflexivity;
      cbn; rewrite ?app_nil_r; reflexivity.
Qed.

Lemma check_weights_structure (cfg : config) (h expected : D) (w : weights)
    (m : model) :
  same_structure m (final_state (check_weights cfg h expected w m)).
Proof.
  apply (tame_check_weights same_structure (fun _ => True) I
           (fun _ _ _ _ => I)).
  - intros; exact I.
  - intros col row m'. split; [apply check_entry_structure | exact I].
Qed.

(** X9.  When the calls leave the structure of the model as it is, a
    callback that returns prints, besides the reports of entries,
    nothing when the process is not the world master, and on the world
    master the header, one line for each weights object with an
    optimizer, in the order of the model, and the closing rule. *)
Theorem output_frame (cfg : config) (m : model) :
  let mode := get_execution_mode m in
  let r := do_check_gradients cfg m in
  result r = Returns tt ->
  exists f0 : D,
    let h := finite_difference_step cfg f0 in
    let expected := expected_gradient_error f0 h in
    omap printed_frame (trace r)
    = if check_not_needed cfg mode || negb (am_world_master m) then []
      else OutHeader f0 h expected
           :: map (fun w => OutChecking (get_name w))
                  (List.filter has_optimizer (get_weights m))
           ++ [OutRule].
Proof.
  cbv zeta. rewrite do_check_gradients_run.
  destruct (check_not_needed cfg (get_execution_mode m)); cbn [orb].
  { intros _. exists (s_int 0). reflexivity. }
  destruct (run_gradient_check_run cfg (get_execution_mode m) m)
    as (mbs & f0 & m1 & Hm1 & Hres & Htrace).
  cbv zeta in Hres, Htrace. rewrite Htrace, Hres.
  match type of Hres with _ = result ?l => set (loop := l) end.
  intros Hret. exists f0. rewrite Hret.
  assert (Hloop : omap printed_frame (trace loop)
                  = if am_world_master m
                    then map (fun w => OutChecking (get_name w))
                             (List.filter has_optimizer (get_weights m))
                    else []).
  { rewrite <- checking_lines.
    apply (for_each_omap_inv (same_structure m)); [| | exact Hm1 | exact Hret].
    - intros w m' Hm'. etransitivity; [exact Hm' |].
      apply check_weights_structure.
    - intros w m' Hm' _. rewrite check_weights_frame.
      rewrite (structure_master _ _ Hm'). reflexivity. }
  unfold prologue_calls, clean_up_calls.
  rewrite !omap_app, Hloop.
  rewrite !(omap_map_none printed_frame) by reflexivity.
  destruct (am_world_master m); reflexivity.
Qed.

(** X10.  When the calls leave the structure of the model as it is,
    a check that returns has evaluated the objective function once and
    then four times for every entry of every weights object with an
    optimizer; a callback that does not check evaluates nothing. *)
Theorem evaluation_count (cfg : config) (m : model) :
  let r := do_check_gradients cfg m in
  result r = Returns tt ->
  length (omap evaluation (trace r))
  = if check_not_needed cfg (get_execution_mode m) then 0%nat
    else (1 + 4 * sum_list (map entry_count (get_weights m)))%nat.
Proof.
  cbv zeta. rewrite do_check_gradients_run.
  destruct (check_not_needed cfg (get_execution_mode m)); [reflexivity |].
  destruct (run_gradient_check_run cfg (get_execution_mode m) m)
    as (mbs & f0 & m1 & Hm1 & Hres & Htrace).
  cbv zeta in Hres, Htrace. rewrite Htrace, Hres.
  match type of Hres with _ = result ?l => set (loop := l) end.
  intros Hret. rewrite Hret.
  assert (Hloop : length (omap evaluation (trace loop))
                  = sum_list (map (fun w => 4 * entry_count w)%nat
                                  (get_weights m))).
  { apply for_each_omap_length; [| exact Hret].
    intros w m' Hw. apply check_weights_evaluations. exact Hw. }
  assert (Hsum : forall ws : list weights,
            sum_list (map (fun w => 4 * entry_count w)%nat ws)
            = (4 * sum_list (map entry_count ws))%nat).
  { induction ws as [| w ws IH]; [reflexivity |]. cbn [map sum_list].
    rewrite IH. unfold Datatypes.id. lia. }
  unfold prologue_calls, clean_up_calls.
  rewrite !omap_app, !length_app, Hloop, Hsum.
  rewrite !(omap_map_none evaluation) by reflexivity.
  destruct (am_world_master m); cbn; lia.
Qed.

End StableCheck.

Lemma omap_agree {B : Type} (f g : event -> option B) (t : list event) :
  Forall (fun e => f e = g e) t -> omap f t = omap g t.
Proof.
  induction 1 as [| e t He _ IH]; [reflexivity |].
  cbn. rewrite He, IH. reflexivity.
Qed.

(** X11.  Without [m_verbose] an entry that passes prints nothing:
    every report the callback prints is the report of a gradient
    error. *)
Theorem quiet_unless_failure (cfg : config) (m : model) :
  m_verbose cfg = false ->
  omap printed_report (trace (do_check_gradients cfg m))
  = omap printed_gradient_error (trace (do_check_gradients cfg m)).
Proof.
  intros Hquiet. apply omap_agree.
  rewrite do_check_gradients_run.
  destruct (check_not_needed cfg (get_execution_mode m)); [constructor |].
  destruct (run_gradient_check_trace cfg (get_execution_mode m) m)
    as (t_pre & m1 & Hpre & ->).
  rewrite trace_run.
  assert (Hplain : forall e : event,
            plain_call e -> printed_report e = printed_gradient_error e).
  { intros e He. destruct e; try contradiction; reflexivity. }
  apply Forall_app. split.
  { eapply Forall_impl; [exact Hpre | exact Hplain]. }
  apply Forall_app. split.
  { apply objective_trace_scan; reflexivity. }
  apply (tame_check_with_objective any_state
           (Forall (fun e => printed_report e = printed_gradient_error e))).
  - constructor.
  - intros t1 t2 H1 H2. apply Forall_app. split; assumption.
  - intros e He. repeat constructor. apply Hplain, He.
  - repeat constructor.
  - repeat constructor.
  - intros name. repeat constructor.
  - intros w col row m'. split; [exact I |].
    apply check_entry_scan; try reflexivity.
    rewrite Hquiet. discriminate.
Qed.

(** X20.  With [m_error_on_failure] the callback reports at most one
    gradient error, and it reports one exactly when it throws: a
    callback that returns has found every entry it compared within
    the expected error. *)
Theorem returns_without_gradient_error (cfg : config) (m : model) :
  m_error_on_failure cfg = true ->
  let r := do_check_gradients cfg m in
  length (omap printed_gradient_error (trace r))
  = match result r with
    | Returns _ => 0%nat
    | Throws _ => 1%nat
    end.
Proof.
  intros Hon. cbv zeta. rewrite do_check_gradients_run.
  destruct (check_not_needed cfg (get_execution_mode m)); [reflexivity |].
  destruct (run_gradient_check_trace cfg (get_execution_mode m) m)
    as (t_pre & m1 & Hpre & ->).
  rewrite result_run, trace_run.
  assert (Hsilent : forall t : list event,
            Forall plain_call t -> omap printed_gradient_error t = []).
  { intros t Ht. apply omap_scan. eapply Forall_impl; [exact Ht |].
    intros e He. destruct e; try contradiction; reflexivity. }
  rewrite !omap_app, (Hsilent t_pre Hpre), objective_printed_gradient_error.
  cbn [app].
  assert (Hplain : forall e : event, plain_call e -> Forall plain_call [e])
    by (intros e He; repeat constructor; exact He).
  assert (Happ : forall t1 t2 : list event,
            Forall plain_call t1 -> Forall plain_call t2 ->
            Forall plain_call (t1 ++ t2))
    by (intros t1 t2 H1 H2; apply Forall_app; split; assumption).
  set (f0 := objective_value m1). set (m2 := after_objective m1).
  destruct (returns_compute_gradients m2) as [[] Hg].
  destruct (tame_compute_gradients any_state (Forall plain_call)
              (List.Forall_nil _) Happ Hplain m2) as [_ Htg].
  destruct (compute_gradients m2) as [[og mg] tg] eqn:Eg.
  rewrite result_run in Hg. rewrite trace_run in Htg. subst og.
  rewrite (check_with_objective_run cfg _ f0 m2 mg tg Eg). cbv zeta.
  set (loop := for_each (get_weights mg) _ mg).
  assert (Hloop : length (omap printed_gradient_error (trace loop))
                  = match result loop with
                    | Returns _ => 0%nat
                    | Throws _ => 1%nat
                    end).
  { apply (for_each_first_throw printed_gradient_error). intros w m'.
    apply check_weights_errors, Hon. }
  destruct (result loop) as [[] | e]; rewrite result_run, trace_run;
    rewrite !omap_app, !length_app, (Hsilent tg Htg), Hloop.
  - destruct (tame_clean_up any_state (Forall plain_call)
                (List.Forall_nil _) Happ Hplain (get_execution_mode m)
                (final_state loop)) as [_ Htc].
    rewrite (Hsilent _ Htc).
    destruct (am_world_master mg), (am_world_master (final_state loop));
      reflexivity.
  - destruct (am_world_master mg); reflexivity.
Qed.

(** Without [m_error_on_failure] the callback returns. *)
Lemma do_check_gradients_returns (cfg : config) :
  m_error_on_failure cfg = false -> returns (do_check_gradients cfg).
Proof.
  intros Hoff. unfold do_check_gradients.
  apply returns_bind; [apply returns_gets | intros mode].
  destruct (check_not_needed cfg mode); [apply returns_ret |].
  unfold run_gradient_check.
  apply returns_bind;
    [apply returns_reset_statistics_and_gradients | intros _].
  apply returns_bind; [apply returns_load_data_in_input_layers | intros _].
  apply returns_bind; [apply compute_objective_function_returns | intros f0].
  apply returns_check_with_objective, Hoff.
Qed.

End Runs.

End CheckGradientsExtra.

(** * The example model has a stable structure, and runs *)

Module QuadraticExtra.
Import Scalar CheckGradients CheckGradientsViews CheckGradientsStructure.
Import CheckGradientsFacts CheckGradientsExtra Quadratic.

#[global] Instance quadratic_structure_respected {D : Type} {DS : Scalar D} :
  Respects (C := quadratic (D := D)) same_structure.
Proof.
  split; intros;
    repeat match goal with x : layer |- _ => destruct x end;
    repeat split.
Qed.

#[global] Instance quadratic_stable {D : Type} {DS : Scalar D} :
  StableStructure (C := quadratic (D := D)).
Proof.
  split; [exact quadratic_structure_respected |].
  intros w v row col m. cbn. destruct (in_matrix w row col); repeat split.
Qed.

Lemma gradients_computed_once_witness :
  StableStructure (C := quadratic (D := R))
  /\ (let m := real_model in
      let md := get_execution_mode m in
      exists (mbs : Z) (f0 : R) (rest : list (event R mode layer weights unit)),
        trace (do_check_gradients real_config m)
        = (if check_not_needed real_config md then []
           else [EvObjResetStatistics md]
                ++ map (fun met => EvMetResetStatistics met md)
                       (get_metrics m)
                ++ map EvClearGradient
                       (List.filter has_optimizer (get_weights m))
                ++ map EvForwardProp
                       (List.filter is_input_layer (get_layers m))
                ++ map EvForwardProp
                       (List.filter (fun l => negb (is_input_layer l))
                                    (get_layers m))
                ++ [EvStartEvaluation md mbs;
                    EvFinishEvaluation md mbs f0]
                ++ [EvDifferentiate; EvComputeWeightRegularization]
                ++ map EvBackProp (rev (get_layers m))
                ++ rest)
        /\ Forall keeps_gradients_and_data rest).
Proof.
  split; [exact quadratic_stable |].
  exact (gradients_computed_once (laws := quadratic_stable)
           real_config real_model).
Defined.

Lemma clean_up_only_on_return_witness :
  StableStructure (C := quadratic (D := R))
  /\ (let m := real_model in
      let md := get_execution_mode m in
      let r := do_check_gradients real_config m in
      let resets : list (option unit * mode) :=
        (None, md) :: map (fun met => (Some met, md)) (get_metrics m) in
      omap reader_reset (trace r)
      = (if check_not_needed real_config md then []
         else match result r with
              | Returns _ =>
                  map (fun l => (l, md))
                      (List.filter is_input_layer (get_layers m))
              | Throws _ => []
              end)
      /\ omap statistics_reset (trace r)
         = (if check_not_needed real_config md then []
            else resets ++ match result r with
                           | Returns _ => resets
                           | Throws _ => []
                           end)).
Proof.
  split; [exact quadratic_stable |].
  exact (clean_up_only_on_return (laws := quadratic_stable)
           real_config real_model).
Defined.

Lemma output_frame_witness :
  StableStructure (C := quadratic (D := R))
  /\ result (do_check_gradients quiet_config real_model) = Returns tt
  /\ exists f0 : R,
       let h := finite_difference_step quiet_config f0 in
       let expected := expected_gradient_error f0 h in
       omap printed_frame (trace (do_check_gradients quiet_config real_model))
       = if check_not_needed quiet_config (get_execution_mode real_model)
            || negb (am_world_master real_model)
         then []
         else OutHeader f0 h expected
              :: map (fun w => OutChecking (get_name w))
                     (List.filter has_optimizer (get_weights real_model))
              ++ [OutRule].
Proof.
  assert (Hret : result (do_check_gradients quiet_config real_model)
                 = Returns tt).
  { destruct (do_check_gradients_returns quiet_config eq_refl real_model)
      as [[] Hr]. exact Hr. }
  split; [exact quadratic_stable |]. split; [exact Hret |].
  exact (output_frame (laws := quadratic_stable) quiet_config real_model Hret).
Defined.

Lemma evaluation_count_witness :
  StableStructure (C := quadratic (D := R))
  /\ result (do_check_gradients quiet_config real_model) = Returns tt
  /\ length (omap evaluation
                  (trace (do_check_gradients quiet_config real_model)))
     = if check_not_needed quiet_config (get_execution_mode real_model)
       then 0%nat
       else (1 + 4 * sum_list (map entry_count (get_weights real_model)))%nat.
Proof.
  assert (Hret : result (do_check_gradients quiet_config real_model)
                 = Returns tt).
  { destruct (do_check_gradients_returns quiet_config eq_refl real_model)
      as [[] Hr]. exact Hr. }
  split; [exact quadratic_stable |]. split; [exact Hret |].
  exact (evaluation_count (laws := quadratic_stable) quiet_config real_model
           Hret).
Defined.

Lemma quiet_unless_failure_witness :
  m_verbose quiet_config = false
  /\ omap printed_report (trace (do_check_gradients quiet_config real_model))
     = omap printed_gradient_error
            (trace (do_check_gradients quiet_config real_model)).
Proof.
  split; [reflexivity |].
  apply (quiet_unless_failure quiet_config real_model). reflexivity.
Defined.

Lemma entry_of_another_process_witness :
  is_owner trained 0 5 = false
  /\ (let r := check_entry (verbose true) (s_lit (1 # 1000))
                           (s_lit (1 # 1000000)) trained 0 5 checked_model in
      result r = Returns tt
      /\ Forall (fun e => ~ is_print e) (trace r)
      /\ omap written_entry (trace r) = replicate 5 (trained, 5, 0)
      /\ length (omap evaluation (trace r)) = 4%nat).
Proof.
  split; [reflexivity |].
  apply (entry_of_another_process (verbose true) (s_lit (1 # 1000))
           (s_lit (1 # 1000000)) trained 0 5 checked_model).
  reflexivity.
Defined.

Lemma returns_without_gradient_error_witness :
  m_error_on_failure real_config = true
  /\ (let r := do_check_gradients real_config real_model in
      length (omap printed_gradient_error (trace r))
      = match result r with
        | Returns _ => 0%nat
        | Throws _ => 1%nat
        end).
Proof.
  split; [reflexivity |].
  apply (returns_without_gradient_error real_config real_model). reflexivity.
Defined.

End QuadraticExtra.

(** * More on the arithmetic of the comparison *)

Module ArithmeticExtra.
Import Scalar CheckGradients CheckGradientsViews CheckGradientsStructure.
Import CheckGradientsExamples CheckGradientsFacts ArithmeticFacts.

(** ** In IEEE binary64 *)

Lemma float_nan_spec : Prim2SF PrimFloat.nan = S754_nan.
Proof. reflexivity. Qed.

Lemma float_infinity_spec : Prim2SF PrimFloat.infinity = S754_infinity false.
Proof. reflexivity. Qed.

Lemma float_twelve_spec :
  Prim2SF (s_int 12 : float) = S754_finite false 6755399441055744 (-49).
Proof. reflexivity. Qed.

Lemma is_nan_or_infinity (x : float) :
  PrimFloat.is_nan x || PrimFloat.is_infinity x = nan_or_infinite (Prim2SF x).
Proof.
  unfold PrimFloat.is_nan, PrimFloat.is_infinity.
  rewrite !FloatAxioms.eqb_spec, abs_spec, float_infinity_spec.
  destruct (Prim2SF x) as [s | s | | s m e]; try reflexivity.
  - destruct s; reflexivity.
  - cbn. unfold SFeqb. cbn. rewrite Z.compare_refl, Pos.compare_cont_refl.
    destruct s; reflexivity.
Qed.

(** X13.  When the expected error is NaN the comparison [error >
    expected_error] is false for every error: an entry is reported as a
    gradient error only if its error is itself NaN or infinite, however
    large a finite error is. *)
Theorem nan_expected_error (error : float) :
  gradient_check_failed error PrimFloat.nan
  = PrimFloat.is_nan error || PrimFloat.is_infinity error.
Proof.
  unfold gradient_check_failed. cbn [s_ltb s_isnan s_isinf float_scalar].
  rewrite ltb_spec, float_nan_spec. reflexivity.
Qed.

(** X14.  With a step of zero the numerical gradient is a quotient by
    zero, infinite or NaN, and so is the error: the entry is reported
    as a gradient error whatever the analytical gradient, the
    objective values and the expected error are. *)
Theorem zero_step_fails (f_2h f_h f_nh f_n2h a h expected : float) :
  PrimFloat.eqb h 0 = true ->
  gradient_check_failed
    (gradient_error a (numerical_gradient f_2h f_h f_nh f_n2h h)) expected
  = true.
Proof.
  intros Hh. unfold gradient_check_failed.
  cbn [s_isnan s_isinf float_scalar].
  rewrite <- orb_assoc, is_nan_or_infinity, orb_true_iff. right.
  unfold gradient_error, numerical_gradient.
  cbn [s_fabs s_sub s_div s_mul float_scalar].
  rewrite abs_spec, sub_spec, div_spec, mul_spec, float_twelve_spec.
  rewrite FloatAxioms.eqb_spec, float_zero_spec in Hh.
  destruct (Prim2SF h) as [sh | sh | | sh mh eh];
    try (exfalso; unfold SFeqb in Hh; cbn in Hh; destruct sh; discriminate Hh);
    try discriminate Hh.
  unfold SF64sub, SF64div, SF64mul. cbn [SFmul].
  match goal with
  | |- context [SFdiv _ _ ?x _] => destruct x as [sx | sx | | sx mx ex]
  end;
    destruct (Prim2SF a) as [sa | sa | | sa ma ea];
    cbn; try reflexivity;
    repeat match goal with |- context [if ?b then _ else _] => destruct b end;
    reflexivity.
Qed.

Lemma zero_step_fails_witness :
  (PrimFloat.eqb 0 0 = true
   /\ gradient_check_failed
        (gradient_error 2 (numerical_gradient 1 1 1 1 0)) 1
      = true)%float.
Proof.
  split; [reflexivity |].
  apply (zero_step_fails 1 1 1 1 2 0 1)%float. reflexivity.
Defined.

(** X15.  When the numerical gradient is the analytical gradient, a
    number, the error and the relative error are zero, no quotient is
    computed, and the entry is reported as a gradient error exactly
    when the expected error is negative. *)
Theorem exact_agreement (a expected : float) :
  PrimFloat.is_nan a = false ->
  PrimFloat.is_infinity a = false ->
  gradient_error a a = 0%float
  /\ relative_error a a = 0%float
  /\ gradient_check_failed (gradient_error a a) expected
     = PrimFloat.ltb expected 0.
Proof.
  intros Hnan Hinf.
  assert (Herr : gradient_error a a = 0%float).
  { apply Prim2SF_inj. unfold gradient_error. cbn [s_fabs s_sub float_scalar].
    rewrite abs_spec, sub_spec, float_zero_spec.
    pose proof (is_nan_or_infinity a) as Hni. rewrite Hnan, Hinf in Hni.
    destruct (Prim2SF a) as [s | s | | s m e]; try discriminate Hni.
    - destruct s; reflexivity.
    - unfold SF64sub, SFsub. rewrite Z.min_id, Z.sub_diag. reflexivity. }
  split; [exact Herr |]. split.
  - unfold relative_error. rewrite Herr. reflexivity.
  - rewrite Herr. unfold gradient_check_failed.
    cbn [s_ltb s_isnan s_isinf float_scalar].
    destruct (PrimFloat.ltb expected 0); reflexivity.
Qed.

Lemma exact_agreement_witness :
  (PrimFloat.is_nan 2 = false
   /\ PrimFloat.is_infinity 2 = false
   /\ gradient_error 2 2 = 0
   /\ relative_error 2 2 = 0
   /\ gradient_check_failed (gradient_error 2 2) 1 = PrimFloat.ltb 1 0)%float.
Proof.
  split; [reflexivity |]. split; [reflexivity |].
  apply (exact_agreement 2 1)%float; reflexivity.
Defined.

(** ** In the reals *)

Local Open Scope R_scope.

Lemma R_int (z : Z) : s_int (D := R) z = IZR z.
Proof. unfold s_int. cbn [s_lit R_scalar]. unfold Q2R. cbn. field. Qed.

Lemma quartic_derivative_correct (a0 a1 a2 a3 a4 x : R) :
  derivable_pt_lim (quartic a0 a1 a2 a3 a4) x
                   (quartic_derivative a1 a2 a3 a4 x).
Proof.
  set (An := fun k : nat =>
               match k with
               | 0 => a0 | 1 => a1 | 2 => a2 | 3 => a3 | _ => a4
               end%nat).
  assert (Hpos : (0 < 4)%nat) by lia.
  pose proof (derivable_pt_lim_fs An x 4 Hpos) as Hd.
  apply (derivable_pt_lim_ext _ (quartic a0 a1 a2 a3 a4)) in Hd.
  - replace (quartic_derivative a1 a2 a3 a4 x)
      with (sum_f_R0 (fun k : nat => INR (S k) * An (S k) * x ^ k)
                     (Init.Nat.pred 4)); [exact Hd |].
    unfold quartic_derivative, An. cbn. ring.
  - intros z. unfold quartic, An. cbn. ring.
Qed.

(** X16.  In exact arithmetic the five-point formula is exact for
    polynomials up to degree four: for an objective that is such a
    polynomial [f] of the entry, and every step other than zero, the
    numerical gradient at [w0] is the derivative of [f] at [w0]. *)
Theorem five_point_exact (a0 a1 a2 a3 a4 w0 h : R) :
  h <> 0 ->
  let f := quartic a0 a1 a2 a3 a4 in
  let numerical :=
    numerical_gradient (f (w0 + 2 * h)) (f (w0 + h)) (f (w0 - h))
                       (f (w0 - 2 * h)) h in
  numerical = quartic_derivative a1 a2 a3 a4 w0
  /\ derivable_pt_lim f w0 numerical.
Proof.
  intros Hh. cbv zeta.
  assert (Heq : numerical_gradient
                  (quartic a0 a1 a2 a3 a4 (w0 + 2 * h))
                  (quartic a0 a1 a2 a3 a4 (w0 + h))
                  (quartic a0 a1 a2 a3 a4 (w0 - h))
                  (quartic a0 a1 a2 a3 a4 (w0 - 2 * h)) h
                = quartic_derivative a1 a2 a3 a4 w0).
  { unfold numerical_gradient.
    rewrite !R_int. cbn [s_add s_sub s_mul s_div s_neg R_scalar].
    unfold quartic, quartic_derivative. field. exact Hh. }
  split; [exact Heq |]. rewrite Heq. apply quartic_derivative_correct.
Qed.

Lemma five_point_exact_witness :
  1 <> 0
  /\ (let f := quartic 0 0 1 0 0 in
      let numerical :=
        numerical_gradient (f (3 + 2 * 1)) (f (3 + 1)) (f (3 - 1))
                           (f (3 - 2 * 1)) 1 in
      numerical = quartic_derivative 0 1 0 0 3
      /\ derivable_pt_lim f 3 numerical).
Proof.
  split; [lra |]. apply (five_point_exact 0 0 1 0 0 3 1). lra.
Defined.

(** X17.  In exact arithmetic the relative error lies between 0 and
    2, and it is zero exactly when the two gradients are equal. *)
Theorem relative_error_bounds (a n : R) :
  0 <= relative_error a n <= 2
  /\ (relative_error a n = 0 <-> a = n).
Proof.
  unfold relative_error, gradient_error, std_max. rewrite R_int.
  cbn [s_eqb s_ltb s_fabs s_sub s_div R_scalar].
  destruct (Req_dec_T (Rabs (a - n)) 0) as [Hzero | Hnonzero]; cbn [negb].
  - split; [lra |]. split; [intros _ | reflexivity].
    destruct (Req_dec (a - n) 0) as [E | E]; [lra |].
    apply Rabs_no_R0 in E. contradiction.
  - assert (Herr : 0 < Rabs (a - n))
      by (pose proof (Rabs_pos (a - n)); lra).
    assert (Htri : Rabs (a - n) <= Rabs a + Rabs n).
    { unfold Rminus. rewrite <- (Rabs_Ropp n). apply Rabs_triang. }
    pose proof (Rabs_pos a) as Ha. pose proof (Rabs_pos n) as Hn.
    assert (Hquot : forall d, Rabs a <= d -> Rabs n <= d ->
              (0 <= Rabs (a - n) / d <= 2)
              /\ (Rabs (a - n) / d = 0 <-> a = n)).
    { intros d Hda Hdn. assert (Hpos : 0 < d) by lra.
      split; [split |].
      - apply Rlt_le, Rdiv_lt_0_compat; assumption.
      - apply (Rmult_le_reg_r d); [exact Hpos |].
        unfold Rdiv. rewrite Rmult_assoc, Rinv_l by lra. lra.
      - split; [| intros ->; rewrite Rminus_diag, Rabs_R0 in Hnonzero; lra].
        intros Hq. exfalso.
        assert (0 < Rabs (a - n) / d) by (apply Rdiv_lt_0_compat; assumption).
        lra. }
    destruct (Rlt_dec (Rabs a) (Rabs n)); apply Hquot; lra.
Qed.

Lemma epsilon_positive : 0 < epsilon (D := R).
Proof.
  unfold epsilon. cbn [s_pow s_epsilon s_lit R_scalar R_scalar_math].
  rewrite R_pow_pos by apply float_epsilon_small. apply exp_pos.
Qed.

Lemma float_int_zero : (s_int 0 : float) = 0%float.
Proof. reflexivity. Qed.

Lemma degenerate_step_fails (f_2h f_h f_nh f_n2h a h expected : float) :
  PrimFloat.eqb h 0 || PrimFloat.is_nan h = true ->
  gradient_check_failed
    (gradient_error a (numerical_gradient f_2h f_h f_nh f_n2h h)) expected
  = true.
Proof.
  intros Hh. unfold gradient_check_failed.
  cbn [s_isnan s_isinf float_scalar].
  rewrite <- orb_assoc, is_nan_or_infinity, orb_true_iff. right.
  unfold gradient_error, numerical_gradient.
  cbn [s_fabs s_sub s_div s_mul float_scalar].
  rewrite abs_spec, sub_spec, div_spec, mul_spec, float_twelve_spec.
  unfold PrimFloat.is_nan in Hh.
  rewrite !FloatAxioms.eqb_spec, float_zero_spec in Hh.
  destruct (Prim2SF h) as [sh | sh | | sh mh eh].
  - unfold SF64sub, SF64div, SF64mul. cbn [SFmul].
    match goal with
    | |- context [SFdiv _ _ ?x _] => destruct x as [sx | sx | | sx mx ex]
    end;
      destruct (Prim2SF a) as [sa | sa | | sa ma ea];
      cbn; try reflexivity;
      repeat match goal with |- context [if ?b then _ else _] => destruct b end;
      reflexivity.
  - exfalso. destruct sh; cbn in Hh; discriminate Hh.
  - unfold SF64sub, SF64div, SF64mul. cbn [SFmul].
    match goal with
    | |- context [SFdiv _ _ ?x _] => destruct x as [sx | sx | | sx mx ex]
    end;
      destruct (Prim2SF a) as [sa | sa | | sa ma ea];
      cbn; reflexivity.
  - exfalso. unfold SFeqb in Hh. cbn in Hh.
    rewrite Z.compare_refl, Pos.compare_cont_refl in Hh.
    destruct sh; cbn in Hh; discriminate Hh.
Qed.

(** X18.  In IEEE binary64, whatever [std::pow] returns: when the
    configured step size is not greater than zero and the objective
    function evaluates to zero, the step the callback chooses is zero
    or NaN, and every entry that is compared then fails the test,
    whatever its gradients and the expected error are. *)
Theorem zero_objective_fails {execution_mode : Type} `{Countable execution_mode}
    (pow : float -> float -> float)
    (cfg : check_gradients float execution_mode)
    (f0 f_2h f_h f_nh f_n2h a expected : float) :
  PrimFloat.ltb 0 (m_step_size cfg) = false ->
  PrimFloat.eqb f0 0 = true ->
  let h := finite_difference_step (DM := float_math pow) cfg f0 in
  PrimFloat.eqb h 0 || PrimFloat.is_nan h = true
  /\ gradient_check_failed
       (gradient_error a (numerical_gradient f_2h f_h f_nh f_n2h h)) expected
     = true.
Proof.
  intros Hstep Hzero. cbv zeta.
  assert (Hh : PrimFloat.eqb
                 (finite_difference_step (DM := float_math pow) cfg f0) 0
               || PrimFloat.is_nan
                    (finite_difference_step (DM := float_math pow) cfg f0)
               = true).
  { unfold finite_difference_step.
    cbn [s_ltb s_fabs s_mul s_sqrt float_scalar float_math].
    rewrite float_int_zero, Hstep.
    set (s := PrimFloat.sqrt _).
    unfold PrimFloat.is_nan.
    rewrite !FloatAxioms.eqb_spec, mul_spec, abs_spec, float_zero_spec.
    rewrite FloatAxioms.eqb_spec, float_zero_spec in Hzero.
    destruct (Prim2SF f0) as [sf | sf | | sf mf ef];
      try (exfalso; unfold SFeqb in Hzero; cbn in Hzero; destruct sf;
           discriminate Hzero);
      try discriminate Hzero.
    unfold SF64mul. destruct (Prim2SF s) as [ss | ss | | ss ms es];
      cbn; try destruct ss; reflexivity. }
  split; [exact Hh |]. apply degenerate_step_fails. exact Hh.
Qed.

Lemma zero_objective_fails_witness :
  (PrimFloat.ltb 0 (m_step_size automatic_step) = false
   /\ PrimFloat.eqb 0 0 = true
   /\ let h := finite_difference_step (DM := float_math (fun x _ => x))
                                       automatic_step 0 in
      PrimFloat.eqb h 0 || PrimFloat.is_nan h = true
      /\ gradient_check_failed
           (gradient_error 2 (numerical_gradient 1 1 1 1 h)) 1 = true)%float.
Proof.
  split; [reflexivity |]. split; [reflexivity |].
  exact (zero_objective_fails (fun x _ => x) automatic_step
           0 1 1 1 1 2 1 eq_refl eq_refl)%float.
Defined.

(** X19.  In exact arithmetic, for an objective that is not negative
    and a positive step, the expected error is positive: an entry
    whose numerical gradient is its analytical gradient is not
    reported as a gradient error. *)
Theorem exact_gradient_passes (f0 h a : R) :
  0 <= f0 -> 0 < h ->
  0 < expected_gradient_error f0 h
  /\ gradient_check_failed (gradient_error a a) (expected_gradient_error f0 h)
     = false.
Proof.
  intros Hf Hh.
  assert (Hexp : 0 < expected_gradient_error f0 h).
  { unfold expected_gradient_error. rewrite !R_int.
    cbn [s_pow s_lit s_add s_mul s_div R_scalar R_scalar_math].
    pose proof epsilon_positive as Heps.
    assert (Hh4 : 0 < R_pow h 4) by (rewrite R_pow_pos by lra; apply exp_pos).
    assert (Hfl : 0 <= epsilon * f0 / h).
    { apply Rmult_le_pos; [nra |]. apply Rlt_le, Rinv_0_lt_compat, Hh. }
    rewrite R_pow_pos by lra. apply exp_pos. }
  split; [exact Hexp |].
  unfold gradient_check_failed, gradient_error.
  cbn [s_ltb s_isnan s_isinf s_fabs s_sub R_scalar].
  rewrite Rminus_diag, Rabs_R0.
  destruct (Rlt_dec (expected_gradient_error f0 h) 0); [lra | reflexivity].
Qed.

Lemma exact_gradient_passes_witness :
  0 <= 1 /\ 0 < 1
  /\ 0 < expected_gradient_error (D := R) 1 1
  /\ gradient_check_failed (gradient_error 2 2)
                           (expected_gradient_error (D := R) 1 1)
     = false.
Proof.
  split; [lra |]. split; [lra |].
  apply (exact_gradient_passes 1 1 2); lra.
Defined.

End ArithmeticExtra.

(** * The check, entry by entry: properties *)

Module CheckGradientsRunsFacts.
Import Scalar CheckGradients CheckGradientsViews CheckGradientsStructure.
Import CheckGradientsFacts CheckGradientsExtra CheckGradientsRuns.

Section Facts.

Context {D : Type} {DS : Scalar D} {DM : ScalarMath D}.
Context {execution_mode : Type} `{Countable execution_mode}.
Context {model Layer weights metric : Type}.
Context {C : Collaborators D execution_mode model Layer weights metric}.

Local Abbreviation event := (event D execution_mode Layer weights metric).
Local Abbreviation config := (check_gradients D execution_mode).
Local Abbreviation M := (@M D execution_mode model Layer weights metric).
Local Abbreviation run := (entry_run model weights).

(** ** Loops over lists that are put together *)

Lemma for_each_app_run {A : Type} (xs ys : list A) (body : A -> M unit)
    (m : model) :
  for_each (xs ++ ys) body m
  = match result (for_each xs body m) with
    | Returns _ =>
        (result (for_each ys body (final_state (for_each xs body m))),
         final_state (for_each ys body (final_state (for_each xs body m))),
         trace (for_each xs body m)
         ++ trace (for_each ys body (final_state (for_each xs body m))))
    | Throws e =>
        (Throws e, final_state (for_each xs body m),
         trace (for_each xs body m))
    end.
Proof.
  revert m. induction xs as [| x xs IH]; intros m.
  - cbn [app]. change (for_each [] body m) with (Returns tt, m, [] : list event).
    rewrite result_run, final_state_run, trace_run.
    cbn [app]. destruct (for_each ys body m) as [[o m'] t]. reflexivity.
  - cbn [app]. rewrite !for_each_cons_run.
    destruct (result (body x m)) as [[] | e].
    + rewrite IH, !result_run, !final_state_run, !trace_run.
      destruct (result (for_each xs body (final_state (body x m))))
        as [[] | e]; rewrite ?result_run, ?final_state_run, ?trace_run,
                             ?app_assoc; reflexivity.
    + rewrite result_run, final_state_run, trace_run. reflexivity.
Qed.

Lemma for_each_map_run {A B : Type} (k : A -> B) (xs : list A)
    (body : B -> M unit) (m : model) :
  for_each (map k xs) body m = for_each xs (fun x => body (k x)) m.
Proof.
  revert m. induction xs as [| x xs IH]; intros m; [reflexivity |].
  cbn [map]. rewrite !for_each_cons_run.
  destruct (result (body (k x) m)); rewrite ?IH; reflexivity.
Qed.

Lemma for_each_flat_map_run {A B : Type} (g : A -> list B) (xs : list A)
    (body : B -> M unit) (m : model) :
  for_each (flat_map g xs) body m
  = for_each xs (fun x => for_each (g x) body) m.
Proof.
  revert m. induction xs as [| x xs IH]; intros m; [reflexivity |].
  cbn [flat_map]. rewrite for_each_app_run, for_each_cons_run.
  destruct (result (for_each (g x) body m)); rewrite ?IH; reflexivity.
Qed.

Lemma for_each_ext_run {A : Type} (xs : list A) (body body' : A -> M unit)
    (m : model) :
  (forall x m', body x m' = body' x m') ->
  for_each xs body m = for_each xs body' m.
Proof.
  intros Hbody. revert m. induction xs as [| x xs IH]; intros m;
    [reflexivity |].
  rewrite !for_each_cons_run, <- Hbody.
  destruct (result (body x m)); rewrite ?IH; reflexivity.
Qed.

(** ** The loop over the entries, run by run *)

Section Loop.

Variable cfg : config.
Variables h expected : D.

Local Abbreviation entry_body :=
  (fun e : weights * Z * Z => check_entry cfg h expected e.1.1 e.2 e.1.2).
Local Abbreviation runs_of := (entry_runs cfg h expected).
Local Abbreviation shown :=
  (fun r : run => run_trace h r ++ run_output cfg h expected r).
Local Abbreviation result_of :=
  (fun rs : list run =>
     match last rs with
     | Some r => run_result cfg h expected r
     | None => Returns tt
     end).
Local Abbreviation state_of :=
  (fun (m : model) (rs : list run) =>
     match last rs with
     | Some r => run_restored h r
     | None => m
     end).

(** The loop over a list of entries is its runs: it ends as the last
    run does, in the state this run leaves, and its trace is theirs,
    in order. *)
Lemma entries_loop_run (es : list (weights * Z * Z)) (m : model) :
  for_each es entry_body m
  = (result_of (runs_of es m), state_of m (runs_of es m),
     flat_map shown (runs_of es m)).
Proof.
  revert m. induction es as [| [[w row] col] es IH]; intros m; [reflexivity |].
  rewrite for_each_cons_run. cbn [fst snd]. rewrite check_entry_run.
  rewrite result_run, final_state_run, trace_run.
  cbn [entry_runs]. cbv zeta.
  set (r := {| run_weights := w; run_row := row; run_col := col;
               run_state := m |}).
  change (entry_result cfg h expected w col row m)
    with (run_result cfg h expected r).
  change (entry_restored h w col row m) with (run_restored h r).
  change (entry_trace h w col row m) with (run_trace h r).
  change (entry_output cfg h expected w col row m)
    with (run_output cfg h expected r).
  destruct (run_result cfg h expected r) as [[] | e] eqn:Hres.
  - rewrite IH, result_run, final_state_run, trace_run.
    rewrite !last_cons. cbn [flat_map].
    destruct (last _); [reflexivity |]. rewrite Hres. reflexivity.
  - cbn [last flat_map]. rewrite app_nil_r, Hres. reflexivity.
Qed.

(** The runs are the entries of a prefix of the list, the whole list
    when the last run returns; and every run before the last
    returns. *)
Lemma entry_runs_prefix (es : list (weights * Z * Z)) (m : model) :
  exists rest,
    es = map run_entry (runs_of es m) ++ rest
    /\ (result_of (runs_of es m) = Returns tt -> rest = []).
Proof.
  revert m. induction es as [| [[w row] col] es IH]; intros m.
  - exists []. split; reflexivity.
  - cbn [entry_runs]. cbv zeta.
    destruct (run_result cfg h expected _) as [[] | e] eqn:Hres.
    + destruct (IH (run_restored h
                      {| run_weights := w; run_row := row; run_col := col;
                         run_state := m |})) as (rest & Hes & Hrest).
      exists rest. split.
      * cbn [map app]. rewrite <- Hes. reflexivity.
      * rewrite last_cons. destruct (last _); [exact Hrest |].
        intros _. apply Hrest. reflexivity.
    + exists es. split; [reflexivity |].
      cbn [last]. rewrite Hres. discriminate.
Qed.

Lemma entry_runs_consecutive (es : list (weights * Z * Z)) (m : model) :
  consecutive h m (runs_of es m).
Proof.
  revert m. induction es as [| [[w row] col] es IH]; intros m; [exact I |].
  cbn [entry_runs]. cbv zeta. split; [reflexivity |].
  destruct (run_result cfg h expected _); [apply IH | exact I].
Qed.

(** Either all runs return and every entry has its run, or the last
    run throws and all before it return. *)
Lemma entry_runs_cases (es : list (weights * Z * Z)) (m : model) :
  (result_of (runs_of es m) = Returns tt
   /\ Forall (fun r => run_result cfg h expected r = Returns tt) (runs_of es m)
   /\ map run_entry (runs_of es m) = es)
  \/ (exists passed failing e,
        runs_of es m = passed ++ [failing]
        /\ Forall (fun r => run_result cfg h expected r = Returns tt) passed
        /\ run_result cfg h expected failing = Throws e
        /\ result_of (runs_of es m) = Throws e).
Proof.
  revert m. induction es as [| [[w row] col] es IH]; intros m.
  - left. repeat split. constructor.
  - cbn [entry_runs]. cbv zeta.
    set (r := {| run_weights := w; run_row := row; run_col := col;
                 run_state := m |}).
    destruct (run_result cfg h expected r) as [[] | e] eqn:Hres.
    + destruct (IH (run_restored h r))
        as [(Hlast & Hall & Hmap)
           | (passed & failing & e & Hruns & Hpassed & Hthrows & Hlast)].
      * left. rewrite last_cons. split; [| split].
        -- destruct (last _); [exact Hlast | exact Hres].
        -- constructor; assumption.
        -- cbn [map]. rewrite Hmap. reflexivity.
      * right. exists (r :: passed), failing, e. rewrite Hruns.
        split; [reflexivity |]. split; [constructor; assumption |].
        split; [exact Hthrows |].
        rewrite last_cons, last_snoc. exact Hthrows.
    + right. exists [], r, e. split; [reflexivity |].
      split; [constructor |]. split; [exact Hres |].
      cbn [last]. exact Hres.
Qed.

(** When the loop throws, the last run is that of an entry the process
    owns and that fails, [m_error_on_failure] is set, and no owned
    entry before it failed. *)
Lemma entry_runs_thrown (es : list (weights * Z * Z)) (m : model)
    (e : string) :
  result_of (runs_of es m) = Throws e ->
  exists passed failing,
    runs_of es m = passed ++ [failing]
    /\ Forall (fun r => run_owned r && run_failed h expected r = false) passed
    /\ run_owned failing && run_failed h expected failing = true
    /\ m_error_on_failure cfg = true.
Proof.
  intros Hthrown.
  destruct (entry_runs_cases es m)
    as [(Hlast & _) | (passed & failing & e' & Hruns & Hpassed & Hfailing & _)].
  { cbv beta in Hthrown, Hlast. congruence. }
  exists passed, failing. split; [exact Hruns |].
  assert (Hresult : forall r,
            run_result cfg h expected r
            = if run_owned r && run_failed h expected r
                 && m_error_on_failure cfg
              then Throws ("gradient checking found large difference between "
                           ++ "analytical and numerical gradients")
              else Returns tt) by reflexivity.
  rewrite Hresult in Hfailing.
  destruct (run_owned failing && run_failed h expected failing);
    cbn [andb] in Hfailing; [| discriminate Hfailing].
  destruct (m_error_on_failure cfg); [| discriminate Hfailing].
  split; [| split; reflexivity].
  eapply Forall_impl; [exact Hpassed |]. intros r Hr. cbv beta in Hr.
  rewrite Hresult, andb_true_r in Hr.
  destruct (run_owned r && run_failed h expected r);
    [discriminate Hr | reflexivity].
Qed.

(** The check of a weights object is the loop over its entries, after
    the line that names it. *)
Lemma check_weights_entries (w : weights) (m : model) :
  check_weights cfg h expected w m
  = (result (for_each (all_entries w) entry_body m),
     final_state (for_each (all_entries w) entry_body m),
     (if has_optimizer w && am_world_master m
      then [EvPrint (OutChecking (get_name w))] else [])
     ++ trace (for_each (all_entries w) entry_body m)).
Proof.
  rewrite check_weights_run. unfold all_entries.
  destruct (has_optimizer w); cbn [andb]; [| reflexivity].
  rewrite for_each_flat_map_run.
  rewrite (for_each_ext_run _
             (fun col => for_each (map (fun row => (w, row, col))
                                       (seqZ 0 (Height w))) entry_body)
             (fun col => for_each (seqZ 0 (Height w)) (fun row =>
                           check_entry cfg h expected w col row)))
    by (intros col m';
        exact (for_each_map_run (fun row => (w, row, col))
                 (seqZ 0 (Height w)) entry_body m')).
  reflexivity.
Qed.

(** The loop over the weights is the loop over all their entries, up
    to the lines that name the weights. *)
Lemma weights_loop_entries {B : Type} (f : event -> option B)
    (ws : list weights) (m : model) :
  (forall name, f (EvPrint (OutChecking name)) = None) ->
  let loop := for_each ws (check_weights cfg h expected) m in
  let flat := for_each (flat_map all_entries ws) entry_body m in
  result loop = result flat
  /\ final_state loop = final_state flat
  /\ omap f (trace loop) = omap f (trace flat).
Proof.
  intros Hf. cbv zeta. revert m.
  induction ws as [| w ws IH]; intros m; [repeat split |].
  cbn [flat_map]. rewrite for_each_cons_run, for_each_app_run.
  rewrite check_weights_entries, result_run, final_state_run, trace_run.
  destruct (result (for_each (all_entries w) entry_body m)) as [[] | e].
  - destruct (IH (final_state (for_each (all_entries w) entry_body m)))
      as (Hres & Hfin & Htr).
    rewrite !result_run, !final_state_run, !trace_run.
    split; [exact Hres |]. split; [exact Hfin |].
    rewrite !omap_app, Htr. f_equal.
    destruct (has_optimizer w && am_world_master m); [| reflexivity].
    cbn. rewrite Hf. reflexivity.
  - rewrite !result_run, !final_state_run, !trace_run.
    split; [reflexivity |]. split; [reflexivity |].
    rewrite !omap_app.
    destruct (has_optimizer w && am_world_master m); [| reflexivity].
    cbn. rewrite Hf. reflexivity.
Qed.

End Loop.

(** ** The stages of the callback *)

Lemma plain_calls_nil : Forall plain_call ([] : list event).
Proof. constructor. Qed.

Lemma plain_calls_app (t1 t2 : list event) :
  Forall plain_call t1 -> Forall plain_call t2 -> Forall plain_call (t1 ++ t2).
Proof. intros H1 H2. apply Forall_app. split; assumption. Qed.

Lemma plain_calls_one (e : event) : plain_call e -> Forall plain_call [e].
Proof. intros He. repeat constructor. exact He. Qed.

(** The gradient check is its prologue, the header, the loop over
    the weights and, when the loop returns, the rule and the
    clean-up; the prologue is calls that neither write nor evaluate,
    around the first evaluation of the objective function. *)
Lemma run_gradient_check_stages (cfg : config) (mode : execution_mode)
    (m : model) :
  let f0 := baseline_objective mode m in
  let h := finite_difference_step cfg f0 in
  let expected := expected_gradient_error f0 h in
  let md := checking_state mode m in
  let loop := for_each (get_weights md) (check_weights cfg h expected) md in
  let header : list event :=
    if am_world_master md then [EvPrint (OutHeader f0 h expected)] else [] in
  let rule : list event :=
    if am_world_master (final_state loop) then [EvPrint OutRule] else [] in
  exists t1 t2 t3 : list event,
    Forall plain_call t1 /\ Forall plain_call t2 /\ Forall plain_call t3
    /\ run_gradient_check cfg mode m
       = match result loop with
         | Returns _ =>
             (Returns tt, final_state (clean_up mode (final_state loop)),
              (t1 ++ objective_trace (baseline_state mode m) ++ t2)
              ++ header ++ trace loop ++ rule ++ t3)
         | Throws e =>
             (Throws e, final_state loop,
              (t1 ++ objective_trace (baseline_state mode m) ++ t2)
              ++ header ++ trace loop)
         end.
Proof.
  cbv zeta. unfold baseline_objective, checking_state, baseline_state.
  destruct (returns_reset_statistics_and_gradients mode m) as [[] Ha].
  destruct (tame_reset_statistics_and_gradients any_state (Forall plain_call)
              plain_calls_nil plain_calls_app plain_calls_one mode m)
    as [_ Hta].
  destruct (reset_statistics_and_gradients mode m) as [[oa ma] ta] eqn:Ea.
  rewrite result_run in Ha. rewrite trace_run in Hta. subst oa.
  rewrite final_state_run.
  destruct (returns_load_data_in_input_layers ma) as [[] Hb].
  destruct (tame_load_data_in_input_layers any_state (Forall plain_call)
              plain_calls_nil plain_calls_app plain_calls_one ma) as [_ Htb].
  destruct (load_data_in_input_layers ma) as [[ob mb] tb] eqn:Eb.
  rewrite result_run in Hb. rewrite trace_run in Htb. subst ob.
  rewrite final_state_run.
  destruct (returns_compute_gradients (after_objective mb)) as [[] Hg].
  destruct (tame_compute_gradients any_state (Forall plain_call)
              plain_calls_nil plain_calls_app plain_calls_one
              (after_objective mb)) as [_ Htg].
  destruct (compute_gradients (after_objective mb)) as [[og mg] tg] eqn:Eg.
  rewrite result_run in Hg. rewrite trace_run in Htg. subst og.
  rewrite final_state_run.
  exists (ta ++ tb), tg,
    (trace (clean_up mode
              (final_state
                 (for_each (get_weights mg)
                    (check_weights cfg
                       (finite_difference_step cfg (objective_value mb))
                       (expected_gradient_error (objective_value mb)
                          (finite_difference_step cfg (objective_value mb))))
                    mg)))).
  split; [apply plain_calls_app; assumption |].
  split; [exact Htg |].
  split.
  { apply (tame_clean_up any_state (Forall plain_call)
             plain_calls_nil plain_calls_app plain_calls_one). }
  unfold run_gradient_check.
  rewrite (bind_returns_run _ _ _ _ _ _ Ea).
  rewrite (bind_returns_run _ _ _ _ _ _ Eb).
  rewrite bind_run, compute_objective_function_run.
  rewrite (check_with_objective_run cfg mode _ _ _ _ Eg). cbv zeta.
  destruct (result (for_each (get_weights mg) _ mg));
    cbn [fst snd]; rewrite <- !app_assoc; reflexivity.
Qed.

Lemma omap_flat_map {A B1 B2 : Type} (f : B1 -> option B2) (g : A -> list B1)
    (xs : list A) :
  omap f (flat_map g xs) = flat_map (fun x => omap f (g x)) xs.
Proof.
  induction xs as [| x xs IH]; [reflexivity |].
  cbn [flat_map]. rewrite omap_app, IH. reflexivity.
Qed.

Lemma omap_when_none {B : Type} (f : event -> option B) (b : bool)
    (e : event) :
  f e = None -> omap f (if b then [e] else []) = [].
Proof. intros He. destruct b; [cbn; rewrite He |]; reflexivity. Qed.

(** The gradient check, run by run: how it ends, and what a view that
    skips the header, the lines naming the weights and the rule shows
    of its trace. *)
Lemma gradient_check_runs (cfg : config) (mode : execution_mode) (m : model) :
  let f0 := baseline_objective mode m in
  let h := finite_difference_step cfg f0 in
  let expected := expected_gradient_error f0 h in
  let md := checking_state mode m in
  let runs :=
    entry_runs cfg h expected (flat_map all_entries (get_weights md)) md in
  let r := run_gradient_check cfg mode m in
  result r = match last runs with
             | Some run => run_result cfg h expected run
             | None => Returns tt
             end
  /\ exists t1 t2 t3 : list event,
       Forall plain_call t1 /\ Forall plain_call t2 /\ Forall plain_call t3
       /\ (forall e, result r = Throws e -> t3 = [])
       /\ forall (B : Type) (f : event -> option B),
            (forall line, printed_frame (EvPrint line : event) = Some line ->
                          f (EvPrint line) = None) ->
            omap f (trace r)
            = omap f (t1 ++ objective_trace (baseline_state mode m) ++ t2)
              ++ flat_map (fun run =>
                             omap f (run_trace h run
                                     ++ run_output cfg h expected run)) runs
              ++ omap f t3.
Proof.
  cbv zeta.
  destruct (run_gradient_check_stages cfg mode m)
    as (t1 & t2 & t3 & H1 & H2 & H3 & Hrun).
  cbv zeta in Hrun.
  set (f0 := baseline_objective mode m) in *.
  set (h := finite_difference_step cfg f0) in *.
  set (expected := expected_gradient_error f0 h) in *.
  set (md := checking_state mode m) in *.
  assert (Hloop : forall (B : Type) (f : event -> option B),
            (forall line, printed_frame (EvPrint line : event) = Some line ->
                          f (EvPrint line) = None) ->
            result (for_each (get_weights md) (check_weights cfg h expected) md)
            = match last (entry_runs cfg h expected
                            (flat_map all_entries (get_weights md)) md) with
              | Some run => run_result cfg h expected run
              | None => Returns tt
              end
            /\ omap f (trace (for_each (get_weights md)
                                (check_weights cfg h expected) md))
               = flat_map (fun run =>
                             omap f (run_trace h run
                                     ++ run_output cfg h expected run))
                   (entry_runs cfg h expected
                      (flat_map all_entries (get_weights md)) md)).
  { intros B f Hf.
    destruct (weights_loop_entries cfg h expected f (get_weights md) md)
      as (Hres & _ & Htr).
    { intros name. apply Hf. reflexivity. }
    rewrite Hres, Htr, entries_loop_run, result_run, trace_run.
    split; [reflexivity | apply omap_flat_map]. }
  destruct (Hloop unit (fun _ => None) (fun _ _ => eq_refl)) as [Hres _].
  rewrite Hrun. rewrite <- Hres.
  destruct (result (for_each (get_weights md) (check_weights cfg h expected) md))
    as [[] | e] eqn:Hl.
  - rewrite result_run, trace_run. split; [reflexivity |].
    exists t1, t2, t3. repeat (split; [assumption |]).
    split; [discriminate |].
    intros B f Hf. destruct (Hloop B f Hf) as [_ Htr].
    rewrite !omap_app, Htr.
    rewrite !omap_when_none by (apply Hf; reflexivity).
    rewrite <- !app_assoc. reflexivity.
  - rewrite result_run, trace_run. split; [reflexivity |].
    exists t1, t2, []. split; [exact H1 |]. split; [exact H2 |].
    split; [constructor |]. split; [reflexivity |].
    intros B f Hf. destruct (Hloop B f Hf) as [_ Htr].
    rewrite !omap_app, Htr.
    rewrite !omap_when_none by (apply Hf; reflexivity).
    cbn [omap app]. rewrite <- !app_assoc, !app_nil_r. reflexivity.
Qed.

(** ** What the views show of one run *)

Lemma omap_some_id {A : Type} (f : A -> option A) (l : list A) :
  Forall (fun a => f a = Some a) l -> omap f l = l.
Proof.
  induction 1 as [| a l Ha _ IH]; [reflexivity |].
  cbn. rewrite Ha. cbn. f_equal. exact IH.
Qed.

Lemma call_of_plain (t : list event) :
  Forall plain_call t -> omap call_of t = t.
Proof.
  intros Ht. apply omap_some_id. eapply Forall_impl; [exact Ht |].
  intros e He. destruct e; try contradiction; reflexivity.
Qed.

Lemma call_of_objective (m : model) :
  omap call_of (objective_trace m) = objective_trace m.
Proof.
  apply omap_some_id, objective_trace_no_output.
  - intros e He. destruct e; try contradiction; reflexivity.
  - reflexivity.
Qed.

Lemma run_shown (cfg : config) (h expected : D) (r : run) :
  run_trace h r ++ run_output cfg h expected r
  = trace (check_entry cfg h expected (run_weights r) (run_col r) (run_row r)
                       (run_state r)).
Proof. rewrite check_entry_run. reflexivity. Qed.

Lemma call_of_run (cfg : config) (h expected : D) (r : run) :
  omap call_of (run_trace h r ++ run_output cfg h expected r) = run_trace h r.
Proof.
  rewrite omap_app.
  rewrite (omap_none call_of (run_output cfg h expected r)).
  2:{ eapply Forall_impl; [apply entry_output_prints |].
      intros [] Hprint; try contradiction. reflexivity. }
  rewrite app_nil_r. unfold run_trace, entry_trace. cbv zeta.
  rewrite !omap_app, !call_of_objective. reflexivity.
Qed.

Lemma printed_report_run (cfg : config) (h expected : D) (r : run) :
  omap printed_report (run_trace h r ++ run_output cfg h expected r)
  = if run_owned r && (run_failed h expected r || m_verbose cfg)
    then [run_report h r] else [].
Proof. rewrite run_shown. apply check_entry_reports. Qed.

Lemma printed_gradient_error_run (cfg : config) (h expected : D) (r : run) :
  omap printed_gradient_error (run_trace h r ++ run_output cfg h expected r)
  = if run_owned r && run_failed h expected r then [run_report h r] else [].
Proof.
  rewrite omap_app. unfold run_trace.
  rewrite entry_trace_omap
    by (apply objective_printed_gradient_error || reflexivity).
  unfold run_output, entry_output, run_owned, run_failed, run_report.
  destruct (is_owner _ _ _); cbn [andb]; [| reflexivity].
  destruct (entry_failed _ _ _ _ _ _); [reflexivity |].
  destruct (m_verbose cfg); reflexivity.
Qed.

Lemma run_result_failure (cfg : config) (h expected : D) (r : run) :
  run_result cfg h expected r
  = if run_owned r && run_failed h expected r && m_error_on_failure cfg
    then Throws ("gradient checking found large difference between "
                 ++ "analytical and numerical gradients")
    else Returns tt.
Proof. reflexivity. Qed.

Lemma plain_call_view {B : Type} (f : event -> option B) (t : list event) :
  (forall e, plain_call e -> f e = None) ->
  Forall plain_call t -> omap f t = [].
Proof.
  intros Hf Ht. apply omap_none. eapply Forall_impl; [exact Ht | exact Hf].
Qed.

(** When the gradient check throws, the last event is the report of a
    gradient error. *)
Lemma gradient_check_abrupt (cfg : config) (mode : execution_mode) (m : model)
    (e : string) :
  result (run_gradient_check cfg mode m) = Throws e ->
  exists t rep,
    trace (run_gradient_check cfg mode m)
    = t ++ [EvPrint (OutGradientError rep)].
Proof.
  destruct (run_gradient_check_trace cfg mode m) as (t_pre & m1 & _ & ->).
  rewrite result_run, trace_run. intros He.
  destruct (abrupt_check_with_objective cfg mode (objective_value m1)
              (after_objective m1) e He) as (t & ev & Ht & rep & -> & _).
  rewrite Ht. exists (t_pre ++ objective_trace m1 ++ t), rep.
  rewrite <- !app_assoc. reflexivity.
Qed.

(** The entries the gradient check has checked, and the reports it
    has printed for them. *)
Lemma gradient_check_reports (cfg : config) (mode : execution_mode)
    (m : model) :
  let f0 := baseline_objective mode m in
  let h := finite_difference_step cfg f0 in
  let expected := expected_gradient_error f0 h in
  let md := checking_state mode m in
  let runs :=
    entry_runs cfg h expected (flat_map all_entries (get_weights md)) md in
  let r := run_gradient_check cfg mode m in
  consecutive h md runs
  /\ (exists rest,
        flat_map all_entries (get_weights md) = map run_entry runs ++ rest
        /\ (result r = Returns tt -> rest = []))
  /\ omap printed_report (trace r)
     = flat_map (fun run =>
                   if run_owned run
                      && (run_failed h expected run || m_verbose cfg)
                   then [run_report h run] else []) runs.
Proof.
  cbv zeta.
  destruct (gradient_check_runs cfg mode m)
    as (Hres & t1 & t2 & t3 & H1 & H2 & H3 & _ & Hview).
  cbv zeta in Hres, Hview.
  split; [apply entry_runs_consecutive |].
  split.
  { destruct (entry_runs_prefix cfg
                (finite_difference_step cfg (baseline_objective mode m))
                (expected_gradient_error (baseline_objective mode m)
                   (finite_difference_step cfg (baseline_objective mode m)))
                (flat_map all_entries (get_weights (checking_state mode m)))
                (checking_state mode m)) as (rest & Hes & Hrest).
    exists rest. split; [exact Hes |]. rewrite Hres. exact Hrest. }
  rewrite (Hview _ printed_report).
  2:{ intros [] Hline; try reflexivity; discriminate Hline. }
  assert (Hplain : forall e : event, plain_call e -> printed_report e = None)
    by (intros e He; destruct e; try contradiction; reflexivity).
  rewrite !omap_app, objective_printed_report.
  rewrite (plain_call_view printed_report t1 Hplain H1),
    (plain_call_view printed_report t2 Hplain H2),
    (plain_call_view printed_report t3 Hplain H3).
  cbn [app]. rewrite app_nil_r.
  apply flat_map_ext. intros run. apply printed_report_run.
Qed.

(** C1, as the code has it.  When the mode of the model is excluded
    the callback does nothing.  Otherwise it checks entry after entry, in the order of
    the loops (for each weights object with an optimizer, column by
    column), each entry in the state the one before it left, starting
    after the first evaluation of the objective function (to [f0]) and
    the computation of the gradients.  The calls of the callback are
    those before the first entry, then those of the entries, then the
    clean-up; outside the entries nothing is written and only [f0] is
    evaluated.  For each entry the calls are: the entry is set to
    [w0 + 2h], the objective function is computed; the same for
    [w0 + h], [w0 - h] and [w0 - 2h]; the entry is set to [w0], the
    value the process held for it.  The numerical gradient of the entry
    is [(- f(w0+2h) + 8 f(w0+h) - 8 f(w0-h) + f(w0-2h)) / (12 h)] with
    the values those four computations returned, and it is what a
    report of the entry shows; a report is printed when the process
    owns the entry and the entry fails the test or the callback is
    verbose.  All entries are checked when the callback returns; when
    it throws, the entries up to the first one the process owns and
    that fails the test. *)
Theorem five_point_stencil (cfg : config) (m : model) :
  let mode := get_execution_mode m in
  let r := do_check_gradients cfg m in
  let f0 := baseline_objective mode m in
  let h := finite_difference_step cfg f0 in
  let expected := expected_gradient_error f0 h in
  let entries := flat_map all_entries (get_weights (checking_state mode m)) in
  if check_not_needed cfg mode then r = (Returns tt, m, [])
  else
    exists (runs : list run) (t_pre t_post : list event),
      omap call_of (trace r) = t_pre ++ flat_map (run_trace h) runs ++ t_post
      /\ omap perturbation t_pre = [Evaluate f0]
      /\ omap perturbation t_post = []
      /\ consecutive h (checking_state mode m) runs
      /\ (exists rest,
            entries = map run_entry runs ++ rest
            /\ (result r = Returns tt -> rest = []))
      /\ (forall e, result r = Throws e ->
            exists passed failing,
              runs = passed ++ [failing]
              /\ Forall (fun run =>
                           run_owned run && run_failed h expected run = false)
                        passed
              /\ run_owned failing && run_failed h expected failing = true)
      /\ omap printed_report (trace r)
         = flat_map (fun run =>
                       if run_owned run
                          && (run_failed h expected run || m_verbose cfg)
                       then [run_report h run] else []) runs
      /\ Forall (fun run =>
           let w := run_weights run in
           let row := run_row run in
           let col := run_col run in
           let w0 := initial_weight w col row (run_state run) in
           let m_2h :=
             set_value w (w0 + s_int 2 * h)%S row col (run_state run) in
           let m_h :=
             set_value w (w0 + h)%S row col
                       (final_state (compute_objective_function m_2h)) in
           let m_nh :=
             set_value w (w0 - h)%S row col
                       (final_state (compute_objective_function m_h)) in
           let m_n2h :=
             set_value w (w0 - s_int 2 * h)%S row col
                       (final_state (compute_objective_function m_nh)) in
           (IsLocal w row col = true ->
              w0 = values_GetLocal (run_state run) w
                                   (LocalRow w row) (LocalCol w col))
           /\ run_trace h run
              = [EvSetValue w (w0 + s_int 2 * h)%S row col]
                ++ trace (compute_objective_function m_2h)
                ++ [EvSetValue w (w0 + h)%S row col]
                ++ trace (compute_objective_function m_h)
                ++ [EvSetValue w (w0 - h)%S row col]
                ++ trace (compute_objective_function m_nh)
                ++ [EvSetValue w (w0 - s_int 2 * h)%S row col]
                ++ trace (compute_objective_function m_n2h)
                ++ [EvSetValue w w0 row col]
           /\ run_restored h run
              = set_value w w0 row col
                          (final_state (compute_objective_function m_n2h))
           /\ exists f_2h f_h f_nh f_n2h : D,
                result (compute_objective_function m_2h) = Returns f_2h
                /\ result (compute_objective_function m_h) = Returns f_h
                /\ result (compute_objective_function m_nh) = Returns f_nh
                /\ result (compute_objective_function m_n2h) = Returns f_n2h
                /\ r_weight (run_report h run) = w0
                /\ r_numerical_gradient (run_report h run)
                   = ((- f_2h + s_int 8 * f_h - s_int 8 * f_nh + f_n2h)
                      / (s_int 12 * h))%S) runs.
Proof.
  cbv zeta. rewrite do_check_gradients_run.
  destruct (check_not_needed cfg (get_execution_mode m)); [reflexivity |].
  destruct (gradient_check_runs cfg (get_execution_mode m) m)
    as (Hres & t1 & t2 & t3 & H1 & H2 & H3 & _ & Hview).
  cbv zeta in Hres, Hview.
  set (mode := get_execution_mode m) in *.
  set (f0 := baseline_objective mode m) in *.
  set (h := finite_difference_step cfg f0) in *.
  set (expected := expected_gradient_error f0 h) in *.
  set (md := checking_state mode m) in *.
  set (es := flat_map all_entries (get_weights md)) in *.
  exists (entry_runs cfg h expected es md),
    (t1 ++ objective_trace (baseline_state mode m) ++ t2), t3.
  split.
  { rewrite (Hview _ call_of) by reflexivity.
    rewrite !omap_app, (call_of_plain t1 H1), (call_of_plain t2 H2),
      (call_of_plain t3 H3), call_of_objective.
    f_equal. f_equal. apply flat_map_ext. intros run. apply call_of_run. }
  split.
  { rewrite !omap_app, (plain_call_silent t1 H1), (plain_call_silent t2 H2),
      objective_perturbation. reflexivity. }
  split; [apply plain_call_silent, H3 |].
  split; [apply entry_runs_consecutive |].
  split.
  { destruct (entry_runs_prefix cfg h expected es md) as (rest & Hes & Hrest).
    exists rest. split; [exact Hes |]. rewrite Hres. exact Hrest. }
  split.
  { intros e He. rewrite Hres in He.
    destruct (entry_runs_thrown cfg h expected es md e He)
      as (passed & failing & Hruns & Hpassed & Hfailing & _).
    exists passed, failing. repeat split; assumption. }
  split.
  { rewrite (Hview _ printed_report).
    2:{ intros [] Hline; try reflexivity; discriminate Hline. }
    assert (Hplain : forall e : event, plain_call e -> printed_report e = None)
      by (intros e He; destruct e; try contradiction; reflexivity).
    rewrite !omap_app, objective_printed_report.
    rewrite (plain_call_view printed_report t1 Hplain H1),
      (plain_call_view printed_report t2 Hplain H2),
      (plain_call_view printed_report t3 Hplain H3).
    cbn [app]. rewrite app_nil_r.
    apply flat_map_ext. intros run. apply printed_report_run. }
  apply Forall_forall. intros run _. cbv zeta.
  split.
  { intros Hlocal. unfold initial_weight, local_row, local_col,
      weight_is_local. rewrite Hlocal. reflexivity. }
  split; [reflexivity |]. split; [reflexivity |].
  eexists _, _, _, _.
  rewrite !compute_objective_function_run, !result_run.
  repeat (split; [reflexivity |]). reflexivity.
Qed.

(** C5.  When the gradient check runs, it checks entry after entry,
    each in the state the one before it left.  For an entry the
    process owns, the error is the absolute difference of the
    analytical gradient, read once the entry is reset, and the
    numerical gradient; the entry fails exactly when this error is
    greater than the expected error, or NaN, or infinite, and exactly
    the failing entries are reported as gradient errors, in order.
    With [m_error_on_failure] the callback throws exactly when an entry
    fails: the failing entry is the last one checked and its report is
    the last event.  Without it the callback returns.  When the
    callback returns all entries have been checked. *)
Theorem failure_policy (cfg : config) (m : model) :
  let mode := get_execution_mode m in
  let r := do_check_gradients cfg m in
  let f0 := baseline_objective mode m in
  let h := finite_difference_step cfg f0 in
  let expected := expected_gradient_error f0 h in
  let entries := flat_map all_entries (get_weights (checking_state mode m)) in
  let failure := fun run : run => run_owned run && run_failed h expected run in
  if check_not_needed cfg mode then r = (Returns tt, m, [])
  else
    exists runs : list run,
      consecutive h (checking_state mode m) runs
      /\ (exists rest,
            entries = map run_entry runs ++ rest
            /\ (result r = Returns tt -> rest = []))
      /\ Forall (fun run =>
           let rep := run_report h run in
           r_analytical_gradient rep
           = gradient_GetLocal (run_restored h run) (run_weights run)
               (local_row (run_weights run) (run_col run) (run_row run))
               (local_col (run_weights run) (run_col run) (run_row run))
           /\ (exists f_2h f_h f_nh f_n2h : D,
                 omap evaluation (run_trace h run) = [f_2h; f_h; f_nh; f_n2h]
                 /\ r_numerical_gradient rep
                    = ((- f_2h + s_int 8 * f_h - s_int 8 * f_nh + f_n2h)
                       / (s_int 12 * h))%S)
           /\ r_error rep
              = s_fabs (r_analytical_gradient rep - r_numerical_gradient rep)%S
           /\ run_failed h expected run
              = (r_error rep >? expected)%S || s_isnan (r_error rep)
                || s_isinf (r_error rep)) runs
      /\ omap printed_gradient_error (trace r)
         = flat_map (fun run => if failure run then [run_report h run] else [])
                    runs
      /\ result r
         = (if existsb failure runs && m_error_on_failure cfg
            then Throws ("gradient checking found large difference between "
                         ++ "analytical and numerical gradients")
            else Returns tt)
      /\ (forall e, result r = Throws e ->
            exists passed failing t,
              runs = passed ++ [failing]
              /\ Forall (fun run => failure run = false) passed
              /\ failure failing = true
              /\ trace r
                 = t ++ [EvPrint (OutGradientError (run_report h failing))]).
Proof.
  cbv zeta. rewrite do_check_gradients_run.
  destruct (check_not_needed cfg (get_execution_mode m)); [reflexivity |].
  destruct (gradient_check_runs cfg (get_execution_mode m) m)
    as (Hres & t1 & t2 & t3 & H1 & H2 & H3 & _ & Hview).
  cbv zeta in Hres, Hview.
  set (mode := get_execution_mode m) in *.
  set (f0 := baseline_objective mode m) in *.
  set (h := finite_difference_step cfg f0) in *.
  set (expected := expected_gradient_error f0 h) in *.
  set (md := checking_state mode m) in *.
  set (es := flat_map all_entries (get_weights md)) in *.
  set (runs := entry_runs cfg h expected es md) in *.
  assert (Herrors :
    omap printed_gradient_error (trace (run_gradient_check cfg mode m))
    = flat_map (fun run => if run_owned run && run_failed h expected run
                           then [run_report h run] else []) runs).
  { rewrite (Hview _ printed_gradient_error).
    2:{ intros [] Hline; try reflexivity; discriminate Hline. }
    assert (Hplain : forall e : event,
              plain_call e -> printed_gradient_error e = None)
      by (intros e He; destruct e; try contradiction; reflexivity).
    rewrite !omap_app, objective_printed_gradient_error.
    rewrite (plain_call_view printed_gradient_error t1 Hplain H1),
      (plain_call_view printed_gradient_error t2 Hplain H2),
      (plain_call_view printed_gradient_error t3 Hplain H3).
    cbn [app]. rewrite app_nil_r.
    apply flat_map_ext. intros run. apply printed_gradient_error_run. }
  exists runs.
  split; [apply entry_runs_consecutive |].
  split.
  { destruct (entry_runs_prefix cfg h expected es md) as (rest & Hes & Hrest).
    exists rest. split; [exact Hes |]. rewrite Hres. exact Hrest. }
  split.
  { apply Forall_forall. intros run _. cbv zeta.
    split; [reflexivity |]. split; [| split; reflexivity].
    eexists _, _, _, _. split; [| reflexivity].
    unfold run_trace, entry_trace. cbv zeta.
    rewrite !omap_app, !objective_evaluation. reflexivity. }
  split; [exact Herrors |].
  assert (Hpassed : forall rs,
            Forall (fun run => run_result cfg h expected run = Returns tt) rs ->
            existsb (fun run => run_owned run && run_failed h expected run) rs
            && m_error_on_failure cfg = false).
  { intros rs Hrs. induction Hrs as [| run rs Hrun _ IH]; [reflexivity |].
    cbn [existsb]. rewrite run_result_failure in Hrun.
    destruct (run_owned run && run_failed h expected run); cbn [orb andb] in *;
      [| exact IH].
    destruct (m_error_on_failure cfg); [discriminate Hrun | reflexivity]. }
  assert (Hthrown : forall run e,
            run_result cfg h expected run = Throws e ->
            run_owned run && run_failed h expected run = true
            /\ m_error_on_failure cfg = true
            /\ e = ("gradient checking found large difference between "
                    ++ "analytical and numerical gradients")%string).
  { intros run e. rewrite run_result_failure.
    destruct (run_owned run && run_failed h expected run); cbn [andb];
      [| discriminate].
    destruct (m_error_on_failure cfg); [| discriminate].
    intros [= <-]. repeat split. }
  destruct (entry_runs_cases cfg h expected es md)
    as [(Hlast & Hall & _)
       | (passed & failing & e & Hruns & Hpassed' & Hthrows & Hlast)];
    fold runs in Hlast; rewrite Hres, Hlast.
  - split; [| discriminate].
    fold runs in Hall. rewrite (Hpassed runs Hall). reflexivity.
  - destruct (Hthrown failing e Hthrows) as (Hfail & Hon & ->).
    fold runs in Hruns.
    split.
    { rewrite Hruns, existsb_app. cbn [existsb]. rewrite Hfail, Hon.
      rewrite orb_true_r. reflexivity. }
    intros e' _. exists passed, failing.
    assert (Hnone : Forall (fun run => run_owned run
                                       && run_failed h expected run = false)
                           passed).
    { eapply Forall_impl; [exact Hpassed' |]. intros run Hrun.
      cbv beta in Hrun.
      rewrite run_result_failure, Hon, andb_true_r in Hrun.
      destruct (run_owned run && run_failed h expected run);
        [discriminate Hrun | reflexivity]. }
    assert (Hr : result (run_gradient_check cfg mode m)
                 = Throws ("gradient checking found large difference between "
                           ++ "analytical and numerical gradients"))
      by (rewrite Hres; exact Hlast).
    destruct (gradient_check_abrupt cfg mode m _ Hr) as (t & rep & Ht).
    exists t. split; [exact Hruns |]. split; [exact Hnone |].
    split; [exact Hfail |].
    rewrite Ht, omap_app, Hruns, flat_map_app in Herrors.
    cbn [omap flat_map printed_gradient_error] in Herrors.
    rewrite Hfail, app_nil_r in Herrors.
    apply app_inj_tail in Herrors. destruct Herrors as [_ ->]. exact Ht.
Qed.

End Facts.

(** C8, as the code has it.  With [DataType] an IEEE binary64 number,
    the relative error of an entry with analytical gradient [a] and
    numerical gradient [n] is [|a - n| / max(|a|, |n|)] when the error
    [|a - n|] compares unequal to zero, and zero otherwise; the
    quotient is computed exactly when the error compares unequal to
    zero, which it does when it is NaN, and its denominator is then
    zero exactly when [a] is zero and [n] is NaN.  When the gradient
    check runs, the error and the relative error of every entry it
    checks are those of the analytical and the numerical gradient of
    the entry, and the reports the callback prints are reports of
    these entries. *)
Theorem relative_error_float
    {execution_mode : Type} `{Countable execution_mode}
    {model Layer weights metric : Type}
    {C : Collaborators float execution_mode model Layer weights metric}
    {DM : ScalarMath float}
    (cfg : check_gradients float execution_mode) (m : model) :
  (forall a n : float,
     let error := PrimFloat.abs (a - n) in
     let denominator := std_max (PrimFloat.abs a) (PrimFloat.abs n) in
     gradient_error a n = error
     /\ relative_error a n
        = (if negb (PrimFloat.eqb error 0) then (error / denominator)%float
           else 0%float)
     /\ (negb (PrimFloat.eqb error 0) = true ->
         (PrimFloat.eqb denominator 0 = true
          <-> PrimFloat.eqb a 0 = true /\ PrimFloat.is_nan n = true)))
  /\ (let mode := get_execution_mode m in
      let r := do_check_gradients cfg m in
      let f0 := baseline_objective mode m in
      let h := finite_difference_step cfg f0 in
      let expected := expected_gradient_error f0 h in
      let entries :=
        flat_map all_entries (get_weights (checking_state mode m)) in
      if check_not_needed cfg mode then r = (Returns tt, m, [])
      else
        exists runs : list (entry_run model weights),
          consecutive h (checking_state mode m) runs
          /\ (exists rest,
                entries = map run_entry runs ++ rest
                /\ (result r = Returns tt -> rest = []))
          /\ Forall (fun run =>
                       let rep := run_report h run in
                       r_error rep
                       = gradient_error (r_analytical_gradient rep)
                                        (r_numerical_gradient rep)
                       /\ r_relative_error rep
                          = relative_error (r_analytical_gradient rep)
                                           (r_numerical_gradient rep)) runs
          /\ omap printed_report (trace r)
             = flat_map (fun run =>
                           if run_owned run
                              && (run_failed h expected run || m_verbose cfg)
                           then [run_report h run] else []) runs).
Proof.
  split.
  - intros a n. cbv zeta. split; [reflexivity |]. split; [reflexivity |].
    intros Herr. apply ArithmeticFacts.float_zero_denominator.
    apply negb_true_iff. exact Herr.
  - cbv zeta. rewrite do_check_gradients_run.
    destruct (check_not_needed cfg (get_execution_mode m)); [reflexivity |].
    destruct (gradient_check_reports cfg (get_execution_mode m) m)
      as (Hconsecutive & Hprefix & Hreports).
    cbv zeta in Hconsecutive, Hprefix, Hreports.
    eexists. split; [exact Hconsecutive |]. split; [exact Hprefix |].
    split; [| exact Hreports].
    apply Forall_forall. intros run _. split; reflexivity.
Qed.

End CheckGradientsRunsFacts.

(** * Runs of the whole callback on the example model *)

Module QuadraticRuns.
Import Scalar CheckGradients CheckGradientsViews CheckGradientsStructure.
Import CheckGradientsFacts CheckGradientsExtra CheckGradientsRuns.
Import CheckGradientsRunsFacts Quadratic CheckGradientsExamples.

(** An error that is NaN fails the test, whatever the expected error
    is. *)
Lemma nan_error_fails (error expected : float) :
  PrimFloat.is_nan error = true ->
  gradient_check_failed error expected = true.
Proof.
  intros Hnan. unfold gradient_check_failed.
  cbn [s_isnan float_scalar]. rewrite Hnan, orb_true_r. reflexivity.
Qed.

(** C1, as stated, fails.  The trained weights have an optimizer and
    two entries.  In an execution mode that [m_modes] excludes the
    callback returns at once, and neither entry is written.  With
    [m_error_on_failure] and an infinite objective the error of the
    first entry is NaN, whatever [std::pow] returns for the expected
    error: the callback throws, the five writes of the run are those
    to entry (0, 0), and entry (1, 0) is never perturbed. *)
Lemma entries_left_unchecked :
  (has_optimizer trained = true
   /\ all_entries trained = [(trained, 0, 0); (trained, 1, 0)])
  /\ do_check_gradients validation_only real_model
     = (Returns tt, real_model, [])
  /\ (forall pow : float -> float -> float,
        let r := do_check_gradients (DM := float_math pow) strict_config
                                    infinite_model in
        result r = Throws ("gradient checking found large difference between "
                           ++ "analytical and numerical gradients")
        /\ omap written_entry (trace r) = replicate 5 (trained, 0, 0)).
Proof.
  split; [split; reflexivity |]. split.
  { rewrite do_check_gradients_run. reflexivity. }
  intros pow. cbv zeta. rewrite do_check_gradients_run.
  change (check_not_needed strict_config (get_execution_mode infinite_model))
    with false. cbv iota.
  destruct (gradient_check_runs (DM := float_math pow) strict_config
              (get_execution_mode infinite_model) infinite_model)
    as (Hres & t1 & t2 & t3 & H1 & H2 & H3 & Hpost & Hview).
  cbv zeta in Hres, Hpost, Hview.
  set (mode := get_execution_mode infinite_model) in *.
  set (f0 := baseline_objective mode infinite_model) in *.
  set (h := finite_difference_step (DM := float_math pow) strict_config f0) in *.
  set (expected := expected_gradient_error (DM := float_math pow) f0 h) in *.
  set (md := checking_state mode infinite_model) in *.
  change (flat_map all_entries (get_weights md))
    with [(trained, 0, 0); (trained, 1, 0)] in *.
  cbn [entry_runs] in Hres, Hview.
  set (r1 := {| run_weights := trained; run_row := 0; run_col := 0;
                run_state := md |}) in *.
  assert (Hfail : run_result strict_config h expected r1
                  = Throws ("gradient checking found large difference between "
                            ++ "analytical and numerical gradients")).
  { rewrite run_result_failure.
    replace (run_failed h expected r1) with true; [reflexivity |].
    symmetry. apply nan_error_fails. vm_compute. reflexivity. }
  rewrite Hfail in Hres, Hview. cbn [last] in Hres. rewrite Hfail in Hres.
  split; [exact Hres |].
  rewrite (Hview _ written_entry) by reflexivity.
  rewrite (Hpost _ Hres).
  assert (Hplain : forall e : event float Quadratic.mode layer weights unit,
            plain_call e -> written_entry e = None)
    by (intros e He; destruct e; try contradiction; reflexivity).
  rewrite !omap_app, objective_written_entry.
  rewrite (plain_call_view written_entry t1 Hplain H1),
    (plain_call_view written_entry t2 Hplain H2).
  cbn [flat_map omap app]. rewrite !app_nil_r, run_shown.
  apply check_entry_written.
Qed.

End QuadraticRuns.

(** * The callback when a collaborator can throw: properties *)

Module CheckGradientsExceptionsFacts.
Import Scalar CheckGradients CheckGradientsViews CheckGradientsFacts.
Import CheckGradientsExtra CheckGradientsExceptions.

Section Follows.

Context {D : Type} {DS : Scalar D}.
Context {execution_mode : Type} `{Countable execution_mode}.
Context {model Layer weights metric : Type}.
Context {C : Collaborators D execution_mode model Layer weights metric}.
Context {E : Exceptions D execution_mode model Layer weights metric}.

Local Abbreviation event := (event D execution_mode Layer weights metric).
Local Abbreviation config := (check_gradients D execution_mode).
Local Abbreviation M := (@M D execution_mode model Layer weights metric).
Local Abbreviation T := (@T D execution_mode model Layer weights metric).

Lemma follows_ret {A : Type} (a : A) :
  follows (CheckGradients.ret a : M A) (ret a).
Proof. intros m. left. reflexivity. Qed.

Lemma follows_gets {A : Type} (f : model -> A) :
  follows (CheckGradients.gets f : M A) (gets f).
Proof. intros m. left. reflexivity. Qed.

Lemma follows_print (line : output D) :
  follows (CheckGradients.print line : M unit) (print line).
Proof. intros m. left. reflexivity. Qed.

Lemma follows_throw {A : Type} (message : string) :
  follows (CheckGradients.throw message : M A) (throw message).
Proof. intros m. left. reflexivity. Qed.

Lemma follows_call (f : model -> model) (e : event) :
  ~ is_print e -> follows (CheckGradients.call f e) (call f e).
Proof.
  intros He m. unfold call.
  destruct (thrown e m) as [[message m'] |] eqn:Hthrown.
  - right. exists message, e, [], m, (message, m').
    repeat split; [exact He | exact Hthrown].
  - left. reflexivity.
Qed.

Lemma follows_call_finish_evaluation (mode : execution_mode) (mbs : Z) :
  follows (CheckGradients.call_finish_evaluation mode mbs)
          (call_finish_evaluation mode mbs).
Proof.
  intros m. unfold call_finish_evaluation. cbv zeta.
  destruct (thrown _ m) as [[message m'] |] eqn:Hthrown.
  - right. eexists message, _, [], m, (message, m').
    repeat split; [| exact Hthrown]. intros [].
  - left. reflexivity.
Qed.

Lemma exceptions_bind_run {A B : Type} (x : T A) (f : A -> T B) (m : model) :
  (x ≫= f) m =
  match x m with
  | (Done a, m1, t1) => ((f a m1).1.1, (f a m1).1.2, t1 ++ (f a m1).2)
  | (Mismatch e, m1, t1) => (Mismatch e, m1, t1)
  | (Raised e, m1, t1) => (Raised e, m1, t1)
  end.
Proof.
  unfold mbind, T_bind, bind.
  destruct (x m) as [[[a | e | e] m1] t1]; try reflexivity.
  destruct (f a m1) as [[o m2] t2]. reflexivity.
Qed.

Lemma follows_bind {A B : Type} (x : M A) (xT : T A) (f : A -> M B)
    (fT : A -> T B) :
  follows x xT -> (forall a, follows (f a) (fT a)) ->
  follows (x ≫= f) (xT ≫= fT).
Proof.
  intros Hx Hf m. rewrite bind_run, exceptions_bind_run.
  destruct (Hx m)
    as [-> | (message & e & rest & m' & y & Hraised & Htrace & He & Hy)].
  - unfold lift. destruct (x m) as [[[a | e] m1] t1]; cbn [fst snd];
      [| left; reflexivity].
    destruct (Hf a m1)
      as [-> | (message & e & rest & m' & y & Hraised & Htrace & He & Hy)].
    + left. reflexivity.
    + right. exists message, e, rest, m', y.
      split; [exact Hraised |]. split; [| split; assumption].
      unfold trace, trace_of in *. cbn [snd]. rewrite Htrace.
      apply app_assoc.
  - right. exists message, e. unfold exit_of, trace, trace_of in *.
    destruct (xT m) as [[o m1] t1]. cbn [fst snd] in *. subst o.
    destruct (x m) as [[[a | e'] m2] t2]; cbn [fst snd] in *.
    + exists (rest ++ (f a m2).2), m', y. rewrite Htrace, <- app_assoc.
      repeat split; assumption.
    + exists rest, m', y. repeat split; assumption.
Qed.

Lemma follows_when (b : bool) (c : M unit) (cT : T unit) :
  follows c cT -> follows (CheckGradients.when b c) (when b cT).
Proof. destruct b; [trivial | intros _; apply follows_ret]. Qed.

Lemma follows_for_each {A : Type} (xs : list A) (body : A -> M unit)
    (bodyT : A -> T unit) :
  (forall x, follows (body x) (bodyT x)) ->
  follows (CheckGradients.for_each xs body) (for_each xs bodyT).
Proof.
  intros Hbody. induction xs as [| x xs IH].
  - apply follows_ret.
  - cbn [CheckGradients.for_each for_each].
    apply follows_bind; [apply Hbody | intros _; exact IH].
Qed.

Ltac follow :=
  repeat first
    [ apply follows_ret | apply follows_gets | apply follows_print
    | apply follows_throw | apply follows_call; intros []
    | apply follows_call_finish_evaluation
    | apply follows_when
    | apply follows_for_each; intros ?
    | apply follows_bind; [| intros ?] ].

Lemma follows_compute_objective_function :
  follows CheckGradients.compute_objective_function compute_objective_function.
Proof.
  unfold CheckGradients.compute_objective_function, compute_objective_function.
  follow.
Qed.

Lemma follows_check_entry (cfg : config) (h expected : D) (w : weights)
    (col row : Z) :
  follows (CheckGradients.check_entry cfg h expected w col row)
          (check_entry cfg h expected w col row).
Proof.
  unfold CheckGradients.check_entry, check_entry.
  apply follows_bind.
  - unfold CheckGradients.perturb_entry, perturb_entry,
      CheckGradients.set_entry, set_entry.
    repeat first
      [ apply follows_compute_objective_function
      | apply follows_ret | apply follows_gets
      | apply follows_call; intros []
      | apply follows_bind; [| intros ?] ].
  - intros [w0 [[[f_2h f_h] f_nh] f_n2h]].
    unfold CheckGradients.compare_entry, compare_entry.
    destruct (is_owner w col row); [| apply follows_ret].
    apply follows_bind; [apply follows_gets | intros a].
    destruct (gradient_check_failed _ expected).
    + apply follows_bind; [apply follows_print | intros _].
      destruct (m_error_on_failure cfg);
        [apply follows_throw | apply follows_ret].
    + apply follows_when, follows_print.
Qed.

Lemma follows_check_weights (cfg : config) (h expected : D) (w : weights) :
  follows (CheckGradients.check_weights cfg h expected w)
          (check_weights cfg h expected w).
Proof.
  unfold CheckGradients.check_weights, check_weights.
  destruct (negb (has_optimizer w)); [apply follows_ret |].
  apply follows_bind; [apply follows_gets | intros master].
  apply follows_bind; [apply follows_when, follows_print | intros _].
  apply follows_for_each. intros col. apply follows_for_each. intros row.
  apply follows_check_entry.
Qed.

Lemma follows_reset_statistics_and_gradients (mode : execution_mode) :
  follows (CheckGradients.reset_statistics_and_gradients mode)
          (reset_statistics_and_gradients mode).
Proof.
  unfold CheckGradients.reset_statistics_and_gradients,
    reset_statistics_and_gradients.
  follow.
Qed.

Lemma follows_load_data_in_input_layers :
  follows CheckGradients.load_data_in_input_layers load_data_in_input_layers.
Proof.
  unfold CheckGradients.load_data_in_input_layers, load_data_in_input_layers.
  follow.
Qed.

Lemma follows_compute_gradients :
  follows CheckGradients.compute_gradients compute_gradients.
Proof.
  unfold CheckGradients.compute_gradients, compute_gradients. follow.
Qed.

Lemma follows_clean_up (mode : execution_mode) :
  follows (CheckGradients.clean_up mode) (clean_up mode).
Proof. unfold CheckGradients.clean_up, clean_up. follow. Qed.

End Follows.

Section Run.

Context {D : Type} {DS : Scalar D} {DM : ScalarMath D}.
Context {execution_mode : Type} `{Countable execution_mode}.
Context {model Layer weights metric : Type}.
Context {C : Collaborators D execution_mode model Layer weights metric}.
Context {E : Exceptions D execution_mode model Layer weights metric}.

Local Abbreviation event := (event D execution_mode Layer weights metric).
Local Abbreviation config := (check_gradients D execution_mode).

Lemma follows_do_check_gradients (cfg : config) :
  follows (CheckGradients.do_check_gradients cfg) (do_check_gradients cfg).
Proof.
  unfold CheckGradients.do_check_gradients, do_check_gradients.
  apply follows_bind; [apply follows_gets | intros mode].
  destruct (check_not_needed cfg mode); [apply follows_ret |].
  unfold CheckGradients.run_gradient_check, run_gradient_check.
  apply follows_bind;
    [apply follows_reset_statistics_and_gradients | intros _].
  apply follows_bind; [apply follows_load_data_in_input_layers | intros _].
  apply follows_bind; [apply follows_compute_objective_function | intros f0].
  unfold CheckGradients.check_with_objective, check_with_objective.
  cbv zeta.
  apply follows_bind; [apply follows_compute_gradients | intros _].
  apply follows_bind; [apply follows_gets | intros master].
  apply follows_bind; [apply follows_when, follows_print | intros _].
  apply follows_bind; [apply follows_gets | intros ws].
  apply follows_bind.
  { apply follows_for_each. intros w. apply follows_check_weights. }
  intros _. apply follows_bind; [apply follows_gets | intros master'].
  apply follows_bind; [apply follows_when, follows_print | intros _].
  apply follows_clean_up.
Qed.

(** A run that does not end in an exception of a collaborator is the
    run without exceptions. *)
Lemma follows_run {A : Type} (c : M A) (cT : T A) (m : model) :
  follows c cT ->
  (forall message, exit_of (cT m) <> Raised message) ->
  cT m = lift (c m).
Proof.
  intros Hc Hexit.
  destruct (Hc m) as [Hrun | (message & e & rest & m' & y & Hraised & _)];
    [exact Hrun |].
  destruct (Hexit message Hraised).
Qed.

(** A run of the callback that does not end in an exception of a
    collaborator is its run in the embedding without exceptions. *)
Lemma do_check_gradients_without_exception (cfg : config) (m : model) :
  (forall message,
     exit_of (CheckGradientsExceptions.do_check_gradients cfg m)
     <> Raised message) ->
  CheckGradientsExceptions.do_check_gradients cfg m
  = lift (CheckGradients.do_check_gradients cfg m).
Proof. apply follows_run, follows_do_check_gradients. Qed.

(** A trace that stops at a call, within calls followed by output,
    stops within the calls. *)
Lemma stops_within_calls (calls out done rest : list event) (e : event) :
  calls ++ out = done ++ e :: rest ->
  Forall is_print out -> ~ is_print e ->
  exists rest', calls = done ++ e :: rest'.
Proof.
  intros Heq Hout He. apply app_eq_app in Heq.
  destruct Heq as [l [[Hcalls Hrest] | [Hdone Hout']]].
  - destruct l as [| e' l].
    + cbn in Hrest. subst out. apply Forall_cons in Hout.
      destruct Hout as [Hprint _]. contradiction.
    + cbn in Hrest. injection Hrest as <- _. exists l. exact Hcalls.
  - subst out. apply Forall_app in Hout. destruct Hout as [_ Hout].
    apply Forall_cons in Hout. destruct Hout as [Hprint _]. contradiction.
Qed.


End Run.

End CheckGradientsExceptionsFacts.

(** * Runs with a layer that throws *)

Module QuadraticExceptions.
Import Scalar CheckGradients CheckGradientsViews CheckGradientsFacts.
Import Quadratic QuadraticFacts CheckGradientsExceptions.
Import CheckGradientsExceptionsFacts CheckGradientsExamples.



End QuadraticExceptions.
